(** * Verification of the evidence pipeline of the sentiment-report service

    The development embeds the Python sources under [src/] in Gallina:
    - [src/services/search_service.py], [llm_search_service.py],
      [mcp_ddg_service.py], [mock_service.py]: ranking, retrying fetch,
      [gather_readables], the JSON-array extractor;
    - [src/services/crawler_service.py]: the suppression store and the
      per-domain crawl;
    - [src/services/report_service.py]: prompts, the fallback report and
      [try_parse_json_object];
    - [src/adapters/llm_doubao.py]: the retrying LLM client;
    - [src/app.py]: the [/analyze] handler.

    A Python [str] is a list of Unicode code points, a [dict] with string
    keys is a [gmap], [os.environ] is a [gmap] threaded through the handler,
    and every [await] on the outside world is answered by an explicit
    oracle. *)

From Stdlib Require Import ZArith NArith List Lia Ascii String Bool.
From stdpp Require Import gmap strings list fin_maps.

Set Default Proof Using "Type".
Set Warnings "-register-all".
Local Open Scope Z_scope.

(** ** Python strings *)

Module PyStr.

(** A [str] is a sequence of code points; [len], slicing and comparison
    all work on code points, never on bytes. *)
Abbreviation str := (list N).

(** Decoding of the UTF-8 bytes of a source literal into code points. *)
Fixpoint utf8_decode (bs : list N) : list N :=
  match bs with
  | [] => []
  | b :: t =>
      if (b <? 128)%N then b :: utf8_decode t
      else if (b <? 224)%N then
        match t with
        | b1 :: t1 => ((b - 192) * 64 + (b1 - 128))%N :: utf8_decode t1
        | _ => []
        end
      else if (b <? 240)%N then
        match t with
        | b1 :: b2 :: t2 =>
            ((b - 224) * 4096 + (b1 - 128) * 64 + (b2 - 128))%N :: utf8_decode t2
        | _ => []
        end
      else
        match t with
        | b1 :: b2 :: b3 :: t3 =>
            ((b - 240) * 262144 + (b1 - 128) * 4096 + (b2 - 128) * 64 + (b3 - 128))%N
              :: utf8_decode t3
        | _ => []
        end
  end.

Fixpoint bytes_of (s : string) : list N :=
  match s with
  | EmptyString => []
  | String a r => N_of_ascii a :: bytes_of r
  end.

(** [py "..."] is the Python literal with that text. *)
Definition py (s : string) : str := utf8_decode (bytes_of s).
Arguments py : simpl never.

Definition LF : N := 10.
Definition CR : N := 13.
Definition SPACE : N := 32.
Definition QUOTE : N := 34.
Definition BACKTICK : N := 96.
Definition LBRACKET : N := 91.
Definition RBRACKET : N := 93.
Definition LBRACE : N := 123.
Definition RBRACE : N := 125.

(** [str.isspace] for one code point (the Unicode White_Space characters
    together with the four information separators, as CPython has it). *)
Definition is_space (c : N) : bool :=
  ((9 <=? c) && (c <=? 13) || (28 <=? c) && (c <=? 32)
   || (c =? 133) || (c =? 160) || (c =? 5760)
   || (8192 <=? c) && (c <=? 8202)
   || (c =? 8232) || (c =? 8233) || (c =? 8239) || (c =? 8287)
   || (c =? 12288))%N.

Fixpoint lstrip_by (p : N -> bool) (s : str) : str :=
  match s with
  | c :: r => if p c then lstrip_by p r else s
  | [] => []
  end.

Definition rstrip_by (p : N -> bool) (s : str) : str :=
  rev (lstrip_by p (rev s)).

(** [s.strip()] *)
Definition strip (s : str) : str := rstrip_by is_space (lstrip_by is_space s).

(** [l[:n]] with Python's treatment of a negative bound. *)
Definition slice_to {A} (n : Z) (l : list A) : list A :=
  if 0 <=? n then firstn (Z.to_nat n) l
  else firstn (length l - Z.to_nat (- n))%nat l.

(** [l[a:b]] for non-negative bounds. *)
Definition slice {A} (a b : nat) (l : list A) : list A :=
  firstn (b - a)%nat (skipn a l).

(** [s.startswith(p)], also returning what follows the prefix. *)
Fixpoint strip_prefix (p s : str) : option str :=
  match p, s with
  | [], _ => Some s
  | a :: p', b :: s' => if (a =? b)%N then strip_prefix p' s' else None
  | _ :: _, [] => None
  end.

Definition startswith (p s : str) : bool :=
  match strip_prefix p s with Some _ => true | None => false end.

(** [p in s] for strings. *)
Fixpoint contains (p s : str) : bool :=
  startswith p s ||
  match s with
  | [] => false
  | _ :: r => contains p r
  end.

(** Index of the first occurrence of a character ([re.search] of a single
    literal character, [str.find]). *)
Fixpoint find_char (c : N) (s : str) : option nat :=
  match s with
  | [] => None
  | x :: r => if (x =? c)%N then Some O else S <$> find_char c r
  end.

(** [s.rfind(c)] for a single character, [None] standing for [-1]. *)
Fixpoint rfind_char (c : N) (s : str) : option nat :=
  match s with
  | [] => None
  | x :: r =>
      match rfind_char c r with
      | Some i => Some (S i)
      | None => if (x =? c)%N then Some O else None
      end
  end.

(** [s.replace(a, b)] for single characters. *)
Definition replace_char (a b : N) (s : str) : str :=
  map (fun c => if (c =? a)%N then b else c) s.

(** [s.lower()].  Only the code points whose lower-case form is a single
    ASCII letter matter for the comparisons the handler makes: these are
    [A-Z] and the Kelvin sign U+212A. *)
Definition lower_char (c : N) : N :=
  if ((65 <=? c) && (c <=? 90))%N then (c + 32)%N
  else if (c =? 8490)%N then 107%N
  else c.

Definition lower (s : str) : str := map lower_char s.

(** [sep.join(parts)] *)
Fixpoint join (sep : str) (parts : list str) : str :=
  match parts with
  | [] => []
  | [p] => p
  | p :: rest => p ++ sep ++ join sep rest
  end.

(** Decimal rendering of a natural number, [str(n)]. *)
Fixpoint dec_digits (fuel : nat) (n : N) (acc : str) : str :=
  match fuel with
  | O => acc
  | S f =>
      let d := (48 + n mod 10)%N in
      if (n <? 10)%N then d :: acc else dec_digits f (n / 10)%N (d :: acc)
  end.

Definition str_of_N (n : N) : str := dec_digits (S (N.to_nat (N.log2 n))) n [].

Definition str_of_nat (n : nat) : str := str_of_N (N.of_nat n).

(** Lexicographic comparison of strings by code point ([<] on [str]). *)
Fixpoint str_ltb (a b : str) : bool :=
  match a, b with
  | [], [] => false
  | [], _ :: _ => true
  | _ :: _, [] => false
  | x :: a', y :: b' =>
      if (x <? y)%N then true
      else if (y <? x)%N then false
      else str_ltb a' b'
  end.

(** A literal in which the apostrophe stands for the double quote, to write
    JSON text inside a Gallina string. *)
Definition pyq (s : string) : str := replace_char 39 34 (py s).
Arguments pyq : simpl never.

(** Truthiness of a string: [bool(s)]. *)
Definition nonempty (s : str) : bool :=
  match s with [] => false | _ => true end.

(** [a or b] on strings. *)
Definition str_or (a b : str) : str := if nonempty a then a else b.

End PyStr.
Import PyStr.

(** ** JSON values and [json.loads]

    The repository parses model output with the standard library's
    [json.loads] under its default settings.  The model below follows the
    grammar that decoder accepts: RFC 8259 with the constants [NaN],
    [Infinity] and [-Infinity], strict strings (no raw control character),
    no trailing comma, nothing but white space after the value.  A failure
    of any kind (the decoder raises) is [None].  The interpreter's
    recursion limit and its bound on the digits of an integer literal are
    not modelled. *)

Module Json.

Inductive value :=
| JNull
| JBool (b : bool)
| JInt (z : Z)
| JFloat (m e : Z)          (* the decimal [m * 10^e] before rounding *)
| JNaN
| JInf (negative : bool)
| JStr (s : str)
| JArr (l : list value)
| JObj (kvs : list (str * value)).

(** [d[k] = v] on an insertion-ordered dict. *)
Fixpoint dict_set (k : str) (v : value) (d : list (str * value)) : list (str * value) :=
  match d with
  | [] => [(k, v)]
  | (k', v') :: r =>
      if decide (k' = k) then (k, v) :: r else (k', v') :: dict_set k v r
  end.

(** [d.get(k)] *)
Fixpoint dict_get (k : str) (d : list (str * value)) : option value :=
  match d with
  | [] => None
  | (k', v) :: r => if decide (k' = k) then Some v else dict_get k r
  end.

(** A float literal denotes zero when its digits are all zero or when it
    lies at or below half of the least subnormal double, [2^-1075]. *)
Definition float_is_zero (m e : Z) : bool :=
  (m =? 0) || ((e <? 0) && (Z.abs m * 2 ^ 1075 <=? 10 ^ (- e))).

(** [bool(v)] *)
Definition truthy (v : value) : bool :=
  match v with
  | JNull => false
  | JBool b => b
  | JInt z => negb (z =? 0)
  | JFloat m e => negb (float_is_zero m e)
  | JNaN | JInf _ => true
  | JStr s => nonempty s
  | JArr l => match l with [] => false | _ => true end
  | JObj d => match d with [] => false | _ => true end
  end.

Definition is_ws (c : N) : bool :=
  ((c =? 32) || (c =? 9) || (c =? 10) || (c =? 13))%N.

Definition skip_ws (s : str) : str := lstrip_by is_ws s.

Definition is_digit (c : N) : bool := ((48 <=? c) && (c <=? 57))%N.

Definition hex_val (c : N) : option N :=
  if ((48 <=? c) && (c <=? 57))%N then Some (c - 48)%N
  else if ((97 <=? c) && (c <=? 102))%N then Some (c - 87)%N
  else if ((65 <=? c) && (c <=? 70))%N then Some (c - 55)%N
  else None.

(** The four hexadecimal digits after [\u]. *)
Definition decode_uXXXX (s : str) : option (N * str) :=
  match s with
  | a :: b :: c :: d :: r =>
      match hex_val a, hex_val b, hex_val c, hex_val d with
      | Some x, Some y, Some z, Some w => Some ((x * 4096 + y * 256 + z * 16 + w)%N, r)
      | _, _, _, _ => None
      end
  | _ => None
  end.

(** The body of a string literal, after the opening quote. *)
Fixpoint scan_string (fuel : nat) (s : str) (acc : str) : option (str * str) :=
  match fuel with
  | O => None
  | S f =>
      match s with
      | [] => None
      | c :: r =>
          if (c =? 34)%N then Some (rev acc, r)
          else if (c =? 92)%N then
            match r with
            | [] => None
            | e :: r' =>
                if (e =? 34)%N then scan_string f r' (34%N :: acc)
                else if (e =? 92)%N then scan_string f r' (92%N :: acc)
                else if (e =? 47)%N then scan_string f r' (47%N :: acc)
                else if (e =? 98)%N then scan_string f r' (8%N :: acc)
                else if (e =? 102)%N then scan_string f r' (12%N :: acc)
                else if (e =? 110)%N then scan_string f r' (10%N :: acc)
                else if (e =? 114)%N then scan_string f r' (13%N :: acc)
                else if (e =? 116)%N then scan_string f r' (9%N :: acc)
                else if (e =? 117)%N then
                  match decode_uXXXX r' with
                  | None => None
                  | Some (hi, r1) =>
                      if ((55296 <=? hi) && (hi <=? 56319))%N then
                        match r1 with
                        | 92%N :: 117%N :: r2 =>
                            match decode_uXXXX r2 with
                            | None => None
                            | Some (lo, r3) =>
                                if ((56320 <=? lo) && (lo <=? 57343))%N then
                                  scan_string f r3
                                    ((65536 + (hi - 55296) * 1024 + (lo - 56320))%N :: acc)
                                else scan_string f r1 (hi :: acc)
                            end
                        | _ => scan_string f r1 (hi :: acc)
                        end
                      else scan_string f r1 (hi :: acc)
                  end
                else None
            end
          else if (c <=? 31)%N then None
          else scan_string f r (c :: acc)
      end
  end.

(** A run of decimal digits: its value, its length and the rest. *)
Fixpoint scan_digits (s : str) (v : Z) (n : Z) : Z * Z * str :=
  match s with
  | c :: r => if is_digit c then scan_digits r (v * 10 + Z.of_N (c - 48)) (n + 1) else (v, n, s)
  | [] => (v, n, s)
  end.

(** The integer part of a number: [0], or a digit other than zero and the
    digits after it. *)
Definition scan_int_part (s : str) : option (Z * str) :=
  match s with
  | c :: r =>
      if is_digit c then
        if (c =? 48)%N then Some (0, r)
        else let '(v, _, s1) := scan_digits s 0 0 in Some (v, s1)
      else None
  | [] => None
  end.

(** The fraction: a point and at least one digit.  The value of the digits
    and their number. *)
Definition scan_fraction (s : str) : option (Z * Z * str) :=
  match s with
  | 46%N :: d :: r => if is_digit d then Some (scan_digits (d :: r) 0 0) else None
  | _ => None
  end.

(** The exponent: [e] or [E], an optional sign, at least one digit. *)
Definition scan_exponent (s : str) : option (Z * str) :=
  match s with
  | x :: r =>
      if ((x =? 101) || (x =? 69))%N then
        let '(eneg, r1) :=
          match r with
          | 45%N :: r1 => (true, r1)
          | 43%N :: r1 => (false, r1)
          | _ => (false, r)
          end in
        match r1 with
        | d :: _ =>
            if is_digit d then
              let '(v, _, s') := scan_digits r1 0 0 in
              Some (if eneg then - v else v, s')
            else None
        | [] => None
        end
      else None
  | [] => None
  end.

(** A number: an optional minus sign, the integer part, an optional
    fraction, an optional exponent.  With a fraction or an exponent it is a
    float, otherwise an int. *)
Definition scan_number (s : str) : option (value * str) :=
  let '(neg, s0) := match s with
                    | 45%N :: r => (true, r)
                    | _ => (false, s)
                    end in
  let sign := if neg then -1 else 1 in
  match scan_int_part s0 with
  | None => None
  | Some (ip, s1) =>
      match scan_fraction s1 with
      | Some (fv, fn, s2) =>
          match scan_exponent s2 with
          | Some (ev, s3) => Some (JFloat (sign * (ip * 10 ^ fn + fv)) (ev - fn), s3)
          | None => Some (JFloat (sign * (ip * 10 ^ fn + fv)) (- fn), s2)
          end
      | None =>
          match scan_exponent s1 with
          | Some (ev, s3) => Some (JFloat (sign * ip) ev, s3)
          | None => Some (JInt (sign * ip), s1)
          end
      end
  end.

(** The named constants. *)
Definition scan_constant (s : str) : option (value * str) :=
  match strip_prefix (py "null") s with
  | Some r => Some (JNull, r)
  | None =>
  match strip_prefix (py "true") s with
  | Some r => Some (JBool true, r)
  | None =>
  match strip_prefix (py "false") s with
  | Some r => Some (JBool false, r)
  | None =>
  match strip_prefix (py "NaN") s with
  | Some r => Some (JNaN, r)
  | None =>
  match strip_prefix (py "Infinity") s with
  | Some r => Some (JInf false, r)
  | None =>
  match strip_prefix (py "-Infinity") s with
  | Some r => Some (JInf true, r)
  | None => None
  end end end end end end.

(** The next character, when it is [c]. *)
Definition eat (c : N) (s : str) : option str :=
  match s with
  | x :: r => if (x =? c)%N then Some r else None
  | [] => None
  end.

Definition COMMA : N := 44.
Definition COLON : N := 58.

Fixpoint parse_value (fuel : nat) (s : str) : option (value * str) :=
  match fuel with
  | O => None
  | S f =>
      match s with
      | [] => None
      | c :: r =>
          if (c =? QUOTE)%N then
            match scan_string (S (length r)) r [] with
            | Some (v, r') => Some (JStr v, r')
            | None => None
            end
          else if (c =? LBRACE)%N then
            match eat RBRACE (skip_ws r) with
            | Some r' => Some (JObj [], r')
            | None => parse_members f (skip_ws r) []
            end
          else if (c =? LBRACKET)%N then
            match eat RBRACKET (skip_ws r) with
            | Some r' => Some (JArr [], r')
            | None => parse_elems f (skip_ws r) []
            end
          else
            match scan_constant s with
            | Some x => Some x
            | None => scan_number s
            end
      end
  end
with parse_elems (fuel : nat) (s : str) (acc : list value) : option (value * str) :=
  match fuel with
  | O => None
  | S f =>
      match parse_value f s with
      | None => None
      | Some (v, r) =>
          match eat RBRACKET (skip_ws r) with
          | Some r' => Some (JArr (rev (v :: acc)), r')
          | None =>
              match eat COMMA (skip_ws r) with
              | Some r' => parse_elems f (skip_ws r') (v :: acc)
              | None => None
              end
          end
      end
  end
with parse_members (fuel : nat) (s : str) (acc : list (str * value)) : option (value * str) :=
  match fuel with
  | O => None
  | S f =>
      match eat QUOTE s with
      | None => None
      | Some r =>
          match scan_string (S (length r)) r [] with
          | None => None
          | Some (k, r1) =>
              match eat COLON (skip_ws r1) with
              | None => None
              | Some r2 =>
                  match parse_value f (skip_ws r2) with
                  | None => None
                  | Some (v, r3) =>
                      match eat RBRACE (skip_ws r3) with
                      | Some r' => Some (JObj (dict_set k v acc), r')
                      | None =>
                          match eat COMMA (skip_ws r3) with
                          | Some r' => parse_members f (skip_ws r') (dict_set k v acc)
                          | None => None
                          end
                      end
                  end
              end
          end
      end
  end.

(** [json.loads(s)]: one value, surrounded by white space only.  Every
    call of the three readers consumes a character before it calls again,
    so twice the length of the text bounds the depth of their calls. *)
Definition loads (s : str) : option value :=
  match parse_value (2 * length s + 2) (skip_ws s) with
  | Some (v, r) => match skip_ws r with [] => Some v | _ => None end
  | None => None
  end.

Definition is_dict (v : value) : bool :=
  match v with JObj _ => true | _ => false end.

End Json.
Import Json.

(** ** Evidence items

    An item is a Python [dict] from field names to strings ([href], [link],
    [url], [title], [source], [date], [summary], [article_title],
    [article_text]). *)

Abbreviation Item := (gmap string str).

(** [it.get(k) or ''] : a missing key and an empty value read alike. *)
Definition get (it : Item) (k : string) : str := default [] (it !! k).

(** ** The ranking rule of the four searching providers *)

Module Ranking.

Section WithUrlparse.

(** [urlparse(url).netloc] of the standard library; [None] when
    [urlparse] raises. *)
Variable urlparse_netloc : str -> option str.

(** [domain_of] of search_service.py, llm_search_service.py and
    mock_service.py, [_domain] of mcp_ddg_service.py. *)
Definition domain_of (url : str) : str := default [] (urlparse_netloc url).

(** The fields of [self] the ranking reads, as [__init__] stored them. *)
Record Service := {
  max_results : Z;
  max_fetch_html : Z;
  only_trusted : bool;
  trusted_domains : list str;
  blacklist_domains : list str;
}.

(** [[urlparse(d).netloc or d for d in (domains or [])]] *)
Definition normalize_domains (ds : list str) : option (list str) :=
  mapM (fun d => (fun n => str_or n d) <$> urlparse_netloc d) ds.

(** [__init__], shared by the four classes; [None] when it raises. *)
Definition init (max_results max_fetch_html : Z) (trusted : list str)
    (only_trusted : bool) (blacklist : list str) : option Service :=
  t ← normalize_domains trusted;
  b ← normalize_domains blacklist;
  Some {| max_results := max_results; max_fetch_html := max_fetch_html;
          only_trusted := only_trusted;
          trusted_domains := t; blacklist_domains := b |}.

Definition is_blacklisted (self : Service) (dom : str) : bool :=
  bool_decide (dom ∈ blacklist_domains self).

(** [self.trusted_domains and dom in self.trusted_domains] *)
Definition is_trusted (self : Service) (dom : str) : bool :=
  match trusted_domains self with
  | [] => false
  | _ => bool_decide (dom ∈ trusted_domains self)
  end.

(** One turn of the [for it in items] loop on the pair
    [(trusted, others)]. *)
Definition rank_step (self : Service) (url_of : Item -> str)
    (acc : list Item * list Item) (it : Item) : list Item * list Item :=
  let dom := domain_of (url_of it) in
  if is_blacklisted self dom then acc
  else if is_trusted self dom then (acc.1 ++ [it], acc.2)
  else (acc.1, acc.2 ++ [it]).

(** The body shared by the four ranking methods; they differ in the
    field the URL is read from. *)
Definition rank (self : Service) (url_of : Item -> str) (items : list Item)
    : list Item :=
  let '(trusted, others) := fold_left (rank_step self url_of) items ([], []) in
  let ranked := trusted ++ (if only_trusted self then [] else others) in
  slice_to (max_results self) ranked.

(** [SearchService._rank_results]: [it.get('href') or it.get('link') or ''] *)
Definition SearchService_rank_results (self : Service) :=
  rank self (fun it => str_or (get it "href") (get it "link")).

(** [LLMSearchService._rank_results]: [it.get('href') or it.get('url') or ''] *)
Definition LLMSearchService_rank_results (self : Service) :=
  rank self (fun it => str_or (get it "href") (get it "url")).

(** [MCPDDGService._rank]: [it.get('href') or ''] *)
Definition MCPDDGService_rank (self : Service) :=
  rank self (fun it => get it "href").

(** [MockSearchService._rank]: [it.get('href') or ''] *)
Definition MockSearchService_rank (self : Service) :=
  rank self (fun it => get it "href").

(** The providers that rank, and the ranking each one runs. *)
Inductive Variant := DirectSearch | LLMSearch | ProtocolTool | Mock.

Definition url_field (v : Variant) (it : Item) : str :=
  match v with
  | DirectSearch => str_or (get it "href") (get it "link")
  | LLMSearch => str_or (get it "href") (get it "url")
  | ProtocolTool | Mock => get it "href"
  end.

Definition rank_results (v : Variant) (self : Service) : list Item -> list Item :=
  match v with
  | DirectSearch => SearchService_rank_results self
  | LLMSearch => LLMSearchService_rank_results self
  | ProtocolTool => MCPDDGService_rank self
  | Mock => MockSearchService_rank self
  end.

(** *** The rule as the specification words it *)

(** The domain an item is judged by. *)
Definition item_domain (v : Variant) (it : Item) : str :=
  domain_of (url_field v it).

Definition in_trusted_set (self : Service) (dom : str) : bool :=
  bool_decide (dom ∈ trusted_domains self).

(** The items of the trusted partition: not blacklisted, domain in the
    trusted set; in their original order. *)
Definition trusted_partition (v : Variant) (self : Service) (items : list Item) :=
  List.filter (fun it => negb (is_blacklisted self (item_domain v it))
                          && in_trusted_set self (item_domain v it)) items.

(** The others: not blacklisted, domain outside the trusted set. *)
Definition others_partition (v : Variant) (self : Service) (items : list Item) :=
  List.filter (fun it => negb (is_blacklisted self (item_domain v it))
                          && negb (in_trusted_set self (item_domain v it))) items.

Definition ranking_rule (v : Variant) (self : Service) (items : list Item) :=
  slice_to (max_results self)
    (trusted_partition v self items
     ++ (if only_trusted self then [] else others_partition v self items)).

End WithUrlparse.

End Ranking.

(** ** Fetching article text: [fetch_readable] and [gather_readables] *)

Module Fetch.

(** What one [await client.get(url)] together with the extraction that
    follows it can come to.  The status of a response is kept to show that
    it plays no part. *)
Inductive GetOutcome :=
| GotHtml (status : Z) (title text : str)
    (* a response whose content type holds [text/html]; [title] and [text]
       are what readability and BeautifulSoup extract, after [or ''] *)
| GotOther (status : Z)
    (* a response of another content type *)
| TransportError
    (* [httpx.ReadTimeout], [httpx.ConnectTimeout] or another [httpx.HTTPError] *)
| OtherError.
    (* any other exception: a URL that is no string, a failing extraction *)

(** The network as one fetch sees it: whether the [AsyncClient] can be
    built, and the outcome of each attempt on each URL ([None] is a missing
    [href]). *)
Record Net := {
  client_ok : bool;
  get_outcome : option str -> nat -> GetOutcome;
}.

Inductive Event :=
| EvGet (url : option str) (attempt : nat)
| EvSleep (seconds : Z).

(** The [for attempt in range(3)] loop of [SearchService.fetch_readable]. *)
Fixpoint fetch_attempts (net : Net) (url : option str) (attempts : list nat)
    : (str * str) * list Event :=
  match attempts with
  | [] => (([], []), [])
  | attempt :: rest =>
      match get_outcome net url attempt with
      | GotHtml _ title text => ((title, text), [EvGet url attempt])
      | GotOther _ => (([], []), [EvGet url attempt])
      | TransportError =>
          let '(r, tr) := fetch_attempts net url rest in
          (r, EvGet url attempt :: EvSleep (1 * 2 ^ Z.of_nat attempt) :: tr)
      | OtherError => (([], []), [EvGet url attempt])
      end
  end.

(** [SearchService.fetch_readable]: the pair [(title, text)], with the
    requests and sleeps it made. *)
Definition SearchService_fetch_readable (net : Net) (url : option str)
    : (str * str) * list Event :=
  if client_ok net then fetch_attempts net url (seq 0 3)
  else (([], []), []).

(** [LLMSearchService.fetch_readable]: one request, no retry. *)
Definition LLMSearchService_fetch_readable (net : Net) (url : option str)
    : (str * str) * list Event :=
  if client_ok net then
    match get_outcome net url 0 with
    | GotHtml _ title text => ((title, text), [EvGet url 0%nat])
    | _ => (([], []), [EvGet url 0%nat])
    end
  else (([], []), []).

(** [content_map] of [MockSearchService.fetch_readable]. *)
Definition mock_content_map : list (str * (str * str)) :=
  [ (py "https://example.com/aifilm/industry_trends",
     (py "AI 电影产业趋势速览",
      py "过去一年，生成式 AI 在电影制作各环节的应用更为普及：剧本辅助、分镜与预可视化、特效合成与清洁等均出现效率提升案例。大型制片厂更重视合规与资产管理，小型团队偏向快速试验。资本层面回归理性，关注能落地的场景与成本结构优化。"));
    (py "https://example.com/aifilm/opinion_landscape",
     (py "舆情与争议点分布",
      py "从创作者看，AI 被视为新工具但需避免风格同质化；从平台看，版权与模型来源透明是重点；从观众看，题材创新与真实质感是核心诉求。共识是：明确署名、数据来源合规、风险提示到位。"));
    (py "https://example.com/aifilm/regulation",
     (py "政策与监管动态",
      py "近半年内，行业对训练数据合规、生成内容标识与侵权责任的讨论增多。部分地区出台指导意见，鼓励在可控范围内推进 AI 赋能影视生产，同时强调审查与内容安全要求。")) ].

Fixpoint assoc (k : str) (l : list (str * (str * str))) : option (str * str) :=
  match l with
  | [] => None
  | (k', v) :: r => if decide (k' = k) then Some v else assoc k r
  end.

(** [MockSearchService.fetch_readable]: [content_map.get(url, ('', ''))] *)
Definition MockSearchService_fetch_readable (url : option str) : str * str :=
  match url with
  | Some u => default ([], []) (assoc u mock_content_map)
  | None => ([], [])
  end.

(** The merge step of [gather_readables]: [it2 = dict(it)] with the two
    fields set. *)
Definition enrich (it : Item) (r : str * str) : Item :=
  <["article_text" := r.2]> (<["article_title" := r.1]> it).

(** [gather_readables] as the direct, LLM-driven and mock providers write
    it: the first [max_fetch_html] items, each fetched, results zipped back
    by position. *)
Definition gather_with (fetch : option str -> str * str) (max_fetch_html : Z)
    (items : list Item) : list Item :=
  let selected := slice_to max_fetch_html items in
  let results := map (fun it => fetch (it !! "href")) selected in
  map (fun p => enrich p.1 p.2) (combine selected results).

Definition SearchService_gather_readables (net : Net) (self : Ranking.Service) :=
  gather_with (fun u => (SearchService_fetch_readable net u).1)
              (Ranking.max_fetch_html self).

Definition LLMSearchService_gather_readables (net : Net) (self : Ranking.Service) :=
  gather_with (fun u => (LLMSearchService_fetch_readable net u).1)
              (Ranking.max_fetch_html self).

Definition MockSearchService_gather_readables (self : Ranking.Service) :=
  gather_with MockSearchService_fetch_readable (Ranking.max_fetch_html self).

(** [MCPDDGService.gather_readables] hands over to the [SearchService] it
    holds in [self._fetcher], built with the same [max_fetch_html]. *)
Definition MCPDDGService_gather_readables (net : Net) (self : Ranking.Service) :=
  SearchService_gather_readables net self.

(** The fetch and the gathering of each provider that ranks. *)
Definition fetch_readable (v : Ranking.Variant) (net : Net) (url : option str)
    : str * str :=
  match v with
  | Ranking.DirectSearch | Ranking.ProtocolTool => (SearchService_fetch_readable net url).1
  | Ranking.LLMSearch => (LLMSearchService_fetch_readable net url).1
  | Ranking.Mock => MockSearchService_fetch_readable url
  end.

Definition gather_readables (v : Ranking.Variant) (net : Net) (self : Ranking.Service)
    : list Item -> list Item :=
  match v with
  | Ranking.DirectSearch => SearchService_gather_readables net self
  | Ranking.LLMSearch => LLMSearchService_gather_readables net self
  | Ranking.ProtocolTool => MCPDDGService_gather_readables net self
  | Ranking.Mock => MockSearchService_gather_readables self
  end.

(** The requests and sleeps of a fetch whose first [n] attempts met a
    transport error. *)
Definition failed_rounds (url : option str) (n : nat) : list Event :=
  flat_map (fun a => [EvGet url a; EvSleep (1 * 2 ^ Z.of_nat a)]) (seq 0 n).

(** A network on which every page answers 503 with an HTML error page. *)
Definition unavailable_net : Net :=
  {| client_ok := true;
     get_outcome := fun _ _ => GotHtml 503 (py "Service Unavailable") (py "try later") |}.

(** An attempt that raised. *)
Definition raised (o : GetOutcome) : bool :=
  match o with
  | TransportError | OtherError => true
  | _ => false
  end.

(** A direct-search service with the caps [app.py] gives it by default
    ([MAX_RESULTS] 12, [MAX_FETCH_HTML] 8) and a network on which every
    page is an article. *)
Definition default_service : Ranking.Service :=
  {| Ranking.max_results := 12; Ranking.max_fetch_html := 8;
     Ranking.only_trusted := false;
     Ranking.trusted_domains := []; Ranking.blacklist_domains := [] |}.

Definition good_net : Net :=
  {| client_ok := true;
     get_outcome := fun _ _ => GotHtml 200 (py "title") (py "text") |}.

Definition sample_item (n : nat) : Item :=
  <["href" := py "https://example.com/" ++ str_of_nat n]> ∅.

End Fetch.

(** ** The site crawler: suppression store, per-domain crawl, search *)

Module Crawler.

(** One entry of [self._suppress]: [{count, suppress_until}] *)
Record SuppressRecord := { count : Z; suppress_until : Z }.

(** [self._suppress], keyed by domain. *)
Abbreviation SuppressStore := (gmap str SuppressRecord).

(** The fields [__init__] sets from its arguments and from the environment
    ([SUPPRESS_THRESHOLD], default 3; [SUPPRESS_TTL_HOURS], default 24). *)
Record CrawlerService := {
  per_site_limit : Z;
  max_total_limit : Z;
  time_days : Z;
  trusted_domains : list str;
  blacklist_domains : list str;
  suppress_threshold : Z;
  suppress_hours : Z;
}.

Definition default_suppress_threshold : Z := 3.
Definition default_suppress_hours : Z := 24.

(** [_record_failure], called at time [now = int(time.time())]. *)
Definition _record_failure (self : CrawlerService) (now : Z) (domain : str)
    (store : SuppressStore) : SuppressStore :=
  let rec := default {| count := 0; suppress_until := 0 |} (store !! domain) in
  let c := count rec + 1 in
  let rec' :=
    if suppress_threshold self <=? c
    then {| count := c; suppress_until := now + suppress_hours self * 3600 |}
    else {| count := c; suppress_until := suppress_until rec |} in
  <[domain := rec']> store.

(** [_record_success] *)
Definition _record_success (domain : str) (store : SuppressStore) : SuppressStore :=
  delete domain store.

(** The suppression test at the head of [_search_one_domain]:
    [sup and sup.get('suppress_until', 0) > now]. *)
Definition is_suppressed (store : SuppressStore) (now : Z) (domain : str) : bool :=
  match store !! domain with
  | Some sup => now <? suppress_until sup
  | None => false
  end.

(** [record_failure(domain)] called once at each of the given times. *)
Definition record_failures (self : CrawlerService) (domain : str)
    (nows : list Z) (store : SuppressStore) : SuppressStore :=
  fold_left (fun s now => _record_failure self now domain s) nows store.

(** The failure count the store holds for a domain, zero without a
    record. *)
Definition failure_count (store : SuppressStore) (domain : str) : Z :=
  default 0 (count <$> store !! domain).

(** A crawler with the default threshold, 3, and the default duration,
    twenty-four hours. *)
Definition default_crawler : CrawlerService :=
  {| per_site_limit := 5; max_total_limit := 30; time_days := 15;
     trusted_domains := [py "people.com.cn"]; blacklist_domains := [];
     suppress_threshold := default_suppress_threshold;
     suppress_hours := default_suppress_hours |}.

(** [domain_aliases] and [extra_seeds] of [_search_one_domain]. *)
Definition domain_aliases : list (str * list str) :=
  [ (py "xinhuanet.com", [py "news.cn"; py "www.news.cn"]) ].

Definition extra_seeds : list (str * list str) :=
  [ (py "xinhuanet.com",
     [py "https://www.xinhuanet.com/auto/";
      py "https://www.xinhuanet.com/fortune/";
      py "https://www.xinhuanet.com/tech/"]);
    (py "thepaper.cn",
     [py "https://www.thepaper.cn/channel/26916";
      py "https://www.thepaper.cn/channel/26835";
      py "https://www.thepaper.cn/channel/27224"]);
    (py "163.com",
     [py "https://auto.163.com/"; py "https://news.163.com/"]) ].

Fixpoint table_get (k : str) (t : list (str * list str)) : list str :=
  match t with
  | [] => []
  | (k', v) :: r => if decide (k' = k) then v else table_get k r
  end.

(** [_is_same_site] *)
Definition _is_same_site (url_domain base_domain : str)
    (aliases : list (str * list str)) : bool :=
  bool_decide (url_domain = base_domain)
  || existsb (fun kv => bool_decide (base_domain = kv.1)
                        && bool_decide (url_domain ∈ kv.2)) aliases.

(** [re.sub(r"<[^>]+>", " ", text)]: every [<...>] with something between
    the brackets becomes one space. *)
Fixpoint strip_tags (fuel : nat) (s : str) : str :=
  match fuel with
  | O => s
  | S f =>
      match s with
      | [] => []
      | c :: r =>
          if (c =? 60)%N then
            match find_char 62 r with
            | Some (S k) => 32%N :: strip_tags f (skipn (S (S k)) r)
            | _ => c :: strip_tags f r
            end
          else c :: strip_tags f r
      end
  end.

Definition anchor_title (text : str) : str :=
  slice_to 80 (strip (strip_tags (length text) text)).

(** The markers of video pages. *)
Definition video_markers : list str :=
  [py "video"; py "/v/"; py "/tv/"; py "live"].

(** A fetched page: its status and the [(href, text)] pairs the anchor
    pattern finds in its body. *)
Record Page := { status_code : Z; anchors : list (str * str) }.

(** What the crawl of one request meets outside the process. *)
Record World := {
  keywords : option (list str);
    (* [_generate_keywords(topic)]; [None] when it raises, as it does
       when the call of the model fails *)
  client_ok : bool;
    (* whether [self._client()] returns a client *)
  sitemap_items : str -> list str -> list Item;
    (* [_collect_from_sitemap(client, base_url, keywords)]: it catches its
       own failures *)
  get_page : str -> option Page;
    (* [client.get(url, follow_redirects=True)]; [None] when it raises *)
  timed_out : str -> bool;
    (* whether the task of a domain still waits for a response when its
       sixty seconds are over *)
  now_at_check : str -> Z;
    (* [int(time.time())] at the head of [_search_one_domain], per domain *)
  now_at_failure : str -> Z;
    (* [int(time.time())] inside [_record_failure], per domain *)
}.

Section WithUrllib.

(** [urllib.parse.urljoin(base, url)] and [urlparse(url).hostname];
    [None] when the call raises, [Some []] for a missing host. *)
Variable urljoin : str -> str -> option str.
Variable hostname : str -> option str.

(** [_domain] *)
Definition _domain (url : str) : str := lower (default [] (hostname url)).

(** [_normalize_url] *)
Definition _normalize_url (url base : str) : str := default url (urljoin base url).

(** The loop over the anchors of one page, shared by the home page and
    the channel pages; it returns [items] as the loop leaves it. *)
Fixpoint scan_anchors (self : CrawlerService) (kws : list str)
    (domain base : str) (l : list (str * str)) (items : list Item) : list Item :=
  match l with
  | [] => items
  | (href, text) :: rest =>
      let url := _normalize_url href base in
      let udom := _domain url in
      if negb (_is_same_site udom domain domain_aliases)
      then scan_anchors self kws domain base rest items
      else
        let hit := existsb (fun kw => contains kw text) kws
                   || existsb (fun kw => contains kw url) kws in
        if hit && existsb (fun x => contains x url) video_markers
        then scan_anchors self kws domain base rest items
        else
          let items' :=
            if hit
            then items ++ [ <["source" := domain]>
                            (<["title" := anchor_title text]>
                             (<["href" := url]> ∅)) ]
            else items in
          if per_site_limit self <=? Z.of_nat (length items')
          then items'
          else scan_anchors self kws domain base rest items'
  end.

(** The loop over the channel pages of a domain. *)
Fixpoint scan_seeds (self : CrawlerService) (w : World) (kws : list str)
    (domain : str) (seeds : list str) (items : list Item) : list Item :=
  match seeds with
  | [] => items
  | seed :: rest =>
      if per_site_limit self <=? Z.of_nat (length items) then items
      else
        match get_page w seed with
        | None => scan_seeds self w kws domain rest items
        | Some r =>
            if 400 <=? status_code r then scan_seeds self w kws domain rest items
            else scan_seeds self w kws domain rest
                   (scan_anchors self kws domain seed (anchors r) items)
        end
  end.

(** The [try] block of [_search_one_domain]; [None] when it raises. *)
Definition collect_candidates (self : CrawlerService) (w : World)
    (kws : list str) (domain base_url : str) : option (list Item) :=
  let items := slice_to (per_site_limit self) (sitemap_items w base_url kws) in
  if Z.of_nat (length items) <? per_site_limit self then
    match get_page w base_url with
    | None => None
    | Some resp =>
        let items1 :=
          if status_code resp <? 400
          then scan_anchors self kws domain base_url (anchors resp) items
          else items in
        Some (scan_seeds self w kws domain (table_get domain extra_seeds) items1)
    end
  else Some items.

(** [_search_one_domain]: the candidate list, or [None] when it raises,
    and the store as it leaves it. *)
Definition _search_one_domain (self : CrawlerService) (w : World)
    (kws : list str) (domain base_url : str) (store : SuppressStore)
    : option (list Item) * SuppressStore :=
  if bool_decide (domain ∈ blacklist_domains self) then (Some [], store)
  else if is_suppressed store (now_at_check w domain) domain then (Some [], store)
  else
    match collect_candidates self w kws domain base_url with
    | Some items =>
        let store' :=
          if 0 <? Z.of_nat (length items) then _record_success domain store
          else store in
        (Some (slice_to (per_site_limit self) items), store')
    | None =>
        (None, _record_failure self (now_at_failure w domain) domain store)
    end.

(** The keys of the [seeds] dict, in insertion order. *)
Definition seed_domains (ds : list str) : list str :=
  fold_left (fun acc d => if bool_decide (d ∈ acc) then acc else acc ++ [d]) ds [].

(** Whether the task of a domain comes to wait for a response: a
    blacklisted or suppressed domain returns before any request. *)
Definition waits (self : CrawlerService) (w : World) (domain : str)
    (store : SuppressStore) : bool :=
  negb (bool_decide (domain ∈ blacklist_domains self))
  && negb (is_suppressed store (now_at_check w domain) domain).

(** The task of one seed: [_search_one_domain] on the entry page of the
    domain under [asyncio.wait_for(..., timeout=60.0)].  A task that runs
    out of time is cancelled where it waits for a response; the
    cancellation is no [Exception], so it passes both [except] clauses
    and neither a success nor a failure is recorded; the result of the
    task is the [TimeoutError], which is no list. *)
Definition domain_task (self : CrawlerService) (w : World) (kws : list str)
    (d : str) (store : SuppressStore) : option (list Item) * SuppressStore :=
  if waits self w d store && timed_out w d then (None, store)
  else _search_one_domain self w kws d (py "https://" ++ d ++ py "/") store.

(** The domain tasks.  They run interleaved under [asyncio.gather]; each
    touches the store at its own domain only, so their effect on it is
    that of running them one after the other. *)
Fixpoint run_domains (self : CrawlerService) (w : World) (kws : list str)
    (ds : list str) (store : SuppressStore)
    : list (option (list Item)) * SuppressStore :=
  match ds with
  | [] => ([], store)
  | d :: rest =>
      let '(r, store1) := domain_task self w kws d store in
      let '(rs, store2) := run_domains self w kws rest store1 in
      (r :: rs, store2)
  end.

(** [results.extend(res)] for every result that is a list. *)
Definition collect_results (results_list : list (option (list Item))) : list Item :=
  concat (map (fun r => default [] r) results_list).

(** [CrawlerService.search]; [None] when it raises: the keywords come
    first, then the client, and a failure of either leaves the method
    before any task is started. *)
Definition search (self : CrawlerService) (w : World) (store : SuppressStore)
    : option (list Item) * SuppressStore :=
  match keywords w with
  | None => (None, store)
  | Some kws =>
      if client_ok w then
        let '(results_list, store') :=
          run_domains self w kws (seed_domains (trusted_domains self)) store in
        (Some (slice_to (max_total_limit self) (collect_results results_list)), store')
      else (None, store)
  end.

(** What the task of a seed adds to the results when it is run on the
    store as the search finds it: its list, nothing when its result is an
    exception. *)
Definition site_candidates (self : CrawlerService) (w : World) (kws : list str)
    (store : SuppressStore) (d : str) : list Item :=
  default [] (domain_task self w kws d store).1.

End WithUrllib.

(** What fetching one candidate page yields in [gather_readables]. *)
Inductive PageFetch :=
| FetchFailed
    (* [client.get] raises, or the status is 400 or more *)
| Fetched (text : str) (title : option str) (date : option str).
    (* [_strip_html(resp.text)], the text of the title element when there
       is one, the first date-like string when there is one *)

(** [fetch_one] *)
Definition fetch_one (fetch : str -> PageFetch) (it : Item) : Item :=
  match fetch (get it "href") with
  | FetchFailed => <["article_text" := []]> it
  | Fetched text title date =>
      let it1 := match title with
                 | Some t => <["article_title" := t]> it
                 | None => it
                 end in
      let it2 := match date with
                 | Some d => <["date" := d]> it1
                 | None => it1
                 end in
      <["article_text" := text]> it2
  end.

(** [CrawlerService.gather_readables]; [None] when [self._client()]
    raises.  The semaphore bounds how many fetches are in flight, not what
    is returned. *)
Definition gather_readables (client_ok : bool) (fetch : str -> PageFetch)
    (items : list Item) : option (list Item) :=
  if client_ok then Some (map (fetch_one fetch) items) else None.

End Crawler.

(** ** A concrete crawl, for the examples *)

Module CrawlExample.

Import Crawler.

(** What [urlparse(url).hostname] gives on URLs of the shape
    [scheme://host/path], the only ones the examples use. *)
Fixpoint after_scheme (s : str) : option str :=
  match s with
  | 58%N :: 47%N :: 47%N :: r => Some r
  | _ :: r => after_scheme r
  | [] => None
  end.

Fixpoint host_part (s : str) : str :=
  match s with
  | [] => []
  | c :: r =>
      if ((c =? 47) || (c =? 63) || (c =? 35) || (c =? 58))%N then []
      else c :: host_part r
  end.

Definition hostname (url : str) : option str :=
  Some (lower (default [] (host_part <$> after_scheme url))).

(** [urljoin(base, url)] on an absolute [url] is [url]. *)
Definition urljoin (base url : str) : option str := Some url.

(** The crawler of [app.py] set up with one trusted site and the host of
    its alias on the blacklist. *)
Definition crawler : CrawlerService :=
  {| per_site_limit := 5; max_total_limit := 30; time_days := 15;
     trusted_domains := [py "xinhuanet.com"];
     blacklist_domains := [py "news.cn"];
     suppress_threshold := default_suppress_threshold;
     suppress_hours := default_suppress_hours |}.

(** The home page of the site answers with one link to its alias host;
    no sitemap is found and the channel pages cannot be reached. *)
Definition world : World :=
  {| keywords := Some [py "汽车"];
     client_ok := true;
     sitemap_items := fun _ _ => [];
     get_page := fun url =>
       if decide (url = py "https://xinhuanet.com/")
       then Some {| status_code := 200;
                    anchors := [(py "https://news.cn/auto/1.htm", py "新能源<b>汽车</b>销量")] |}
       else None;
     timed_out := fun _ => false;
     now_at_check := fun _ => 1000;
     now_at_failure := fun _ => 1000 |}.

Definition found : Item :=
  <["source" := py "xinhuanet.com"]>
    (<["title" := py "新能源 汽车 销量"]>
     (<["href" := py "https://news.cn/auto/1.htm"]> ∅)).

End CrawlExample.

(** ** Recovering JSON from model output *)

Module Extract.

(** [re.sub(r"^```(?:json)?\r?\n", "", t)]: an opening fence line at the
    very start of the text is removed. *)
Definition after_newline (r : str) : option str :=
  match r with
  | 13%N :: 10%N :: r' => Some r'
  | 10%N :: r' => Some r'
  | _ => None
  end.

Definition strip_open_fence (t : str) : str :=
  match strip_prefix (py "```") t with
  | None => t
  | Some r =>
      let plain := default t (after_newline r) in
      match strip_prefix (py "json") r with
      | Some r1 => default plain (after_newline r1)
      | None => plain
      end
  end.

(** [s.endswith(p)], also returning what precedes the suffix. *)
Definition strip_suffix (p s : str) : option str :=
  match strip_prefix (rev p) (rev s) with
  | Some r => Some (rev r)
  | None => None
  end.

(** The closing fence with the line break before it. *)
Definition close_crlf : str := CR :: LF :: py "```".
Definition close_lf : str := LF :: py "```".

(** [re.sub(r"\r?\n```$", "", t)]: a closing fence line at the end of the
    text is removed; [$] also matches before a final newline, which then
    stays.  The leftmost match wins. *)
Definition strip_close_fence (t : str) : str :=
  match strip_suffix (close_crlf ++ [LF]) t with
  | Some x => x ++ [LF]
  | None =>
  match strip_suffix close_crlf t with
  | Some x => x
  | None =>
  match strip_suffix (close_lf ++ [LF]) t with
  | Some x => x ++ [LF]
  | None =>
  match strip_suffix close_lf t with
  | Some x => x
  | None => t
  end end end end.

(** The three lines both extractors start with. *)
Definition clean (text : str) : str :=
  strip_close_fence (strip_open_fence (strip text)).

(** The variables of the salvage loop. *)
Record Salvage := {
  objs : list value;
  buf : str;
  depth : Z;
  started : bool;
}.

(** One turn of [for ch in snippet]. *)
Definition salvage_step (st : Salvage) (ch : N) : Salvage :=
  let depth1 := if (ch =? LBRACE)%N then depth st + 1 else depth st in
  let started1 := if (ch =? LBRACE)%N then true else started st in
  let buf1 := if started1 then buf st ++ [ch] else buf st in
  if (ch =? RBRACE)%N then
    let depth2 := Z.max 0 (depth1 - 1) in
    if (depth2 =? 0) && nonempty buf1 then
      {| objs := match loads buf1 with
                 | Some (JObj kvs) => objs st ++ [JObj kvs]
                 | _ => objs st
                 end;
         buf := []; depth := depth2; started := false |}
    else {| objs := objs st; buf := buf1; depth := depth2; started := started1 |}
  else {| objs := objs st; buf := buf1; depth := depth1; started := started1 |}.

Definition salvage_init : Salvage :=
  {| objs := []; buf := []; depth := 0; started := false |}.

Definition salvage (snippet : str) : list value :=
  objs (fold_left salvage_step snippet salvage_init).

(** [json.loads(s)] kept when it is a list. *)
Definition loads_list (s : str) : option (list value) :=
  match loads s with
  | Some (JArr l) => Some l
  | _ => None
  end.

(** [_extract_json_array] of llm_search_service.py; [None] is Python's
    [None]. *)
Definition _extract_json_array (text : str) : option (list value) :=
  if negb (nonempty text) then None
  else
    let text := clean text in
    match find_char LBRACKET text with
    | Some m =>
        let stop := match rfind_char RBRACKET text with
                    | Some n => S n
                    | None => length text
                    end in
        let snippet := slice m stop text in
        match loads snippet with
        | Some (JArr l) => Some l
        | Some _ => loads_list text
        | None =>
            match salvage snippet with
            | [] => loads_list text
            | objs => Some objs
            end
        end
    | None => loads_list text
    end.

(** [json.loads(s)] kept when it is a dict. *)
Definition loads_dict (s : str) : option (list (str * value)) :=
  match loads s with
  | Some (JObj kvs) => Some kvs
  | _ => None
  end.

(** [try_parse_json_object] of report_service.py; the result is the dict,
    empty on failure. *)
Definition try_parse_json_object (text : str) : list (str * value) :=
  if negb (nonempty text) then []
  else
    let t := clean text in
    let whole := default [] (loads_dict t) in
    match find_char LBRACE t, rfind_char RBRACE t with
    | Some m, Some n =>
        if (m <? n)%nat then
          match loads_dict (slice m (S n) t) with
          | Some d => d
          | None => whole
          end
        else whole
    | _, _ => whole
    end.

(** *** Shapes of text, for stating what the extractor recovers *)

(** Scanning from depth [d], the braces of [s] come back to depth zero at
    its last character and not before. *)
Fixpoint closes_at_end (d : nat) (s : str) : bool :=
  match s with
  | [] => false
  | c :: r =>
      let d' := if (c =? LBRACE)%N then S d
                else if (c =? RBRACE)%N then pred d else d in
      match d', r with
      | O, [] => true
      | O, _ :: _ => false
      | S _, _ => closes_at_end d' r
      end
  end.

(** The text of one object as the salvage loop can cut it out: it opens
    with a brace that its last character closes. *)
Definition object_text (o : str) : bool :=
  match o with
  | c :: r => (c =? LBRACE)%N && closes_at_end 1 r
  | [] => false
  end.

Definition brace_free (s : str) : Prop := (LBRACE ∉ s) /\ (RBRACE ∉ s).

(** [sep0 ++ o1 ++ sep1 ++ o2 ++ ...]: objects with the text before each. *)
Fixpoint object_run (parts : list (str * str)) : str :=
  match parts with
  | [] => []
  | (sep, o) :: rest => sep ++ o ++ object_run rest
  end.

(** The state of the salvage loop between two objects. *)
Definition idle (found : list value) : Salvage :=
  {| objs := found; buf := []; depth := 0; started := false |}.

(** What the objects of a run parse to. *)
Definition parsed_objects (parts : list (str * str)) : list value :=
  map (fun p => JObj (default [] (loads_dict p.2))) parts.

(** A run the salvage loop can cut up: nothing but brace-free text between
    the objects, each object closed by its last brace and valid JSON. *)
Definition salvageable (parts : list (str * str)) : Prop :=
  Forall (fun p => brace_free p.1 /\ object_text p.2 = true
                   /\ is_Some (loads_dict p.2)) parts.

(** A character that is neither a bracket nor a brace. *)
Definition plain (c : N) : Prop :=
  c <> LBRACKET /\ c <> RBRACKET /\ c <> LBRACE /\ c <> RBRACE.

(** The fence lines as models write them. *)
Definition fence_open : str := py "```json" ++ [LF].
Definition fence_close : str := LF :: py "```".

End Extract.

(** ** Prompts and the fallback report (report_service.py) *)

Module Report.

(** One chat message, [{'role': ..., 'content': ...}]. *)
Record Message := { role : str; content : str }.

(** [(it.get('article_text') or '').strip()] *)
Definition article_text_of (it : Item) : str := strip (get it "article_text").

(** [it.get(a) or it.get(b) or it.get(c) or d] *)
Definition first_of (it : Item) (a b c : string) (d : str) : str :=
  str_or (get it a) (str_or (get it b) (str_or (get it c) d)).

(** [s] cut to [n] characters with an ellipsis when it is longer. *)
Definition ellipsize (n : nat) (s : str) : str :=
  if (n <? length s)%nat then firstn n s ++ py "…" else s.

(** The evidence lines of [build_prompt]. *)
Fixpoint evidence_lines (items : list Item) : list str :=
  match items with
  | [] => []
  | it :: rest =>
      let article_text := article_text_of it in
      if nonempty article_text then
        let src := first_of it "article_title" "title" "source" [] in
        let url := get it "href" in
        let snippet := slice_to 800 article_text in
        (py "- 来源: " ++ src ++ [LF] ++ py "  链接: " ++ url ++ [LF]
         ++ py "  摘要: " ++ snippet) :: evidence_lines rest
      else evidence_lines rest
  end.

(** [build_prompt] *)
Definition build_prompt (topic : str) (items : list Item) : list Message :=
  let system :=
    {| role := py "system";
       content := py "你是一名资深舆情分析师。请以简洁、结构化的Markdown输出分析报告，避免虚构，保持客观。所有判断仅依据已抓取到的正文内容，不得使用检索摘要或未验证线索。" |} in
  let evidence_text := join [LF; LF] (evidence_lines items) in
  let user :=
    {| role := py "user";
       content :=
         py "主题: " ++ topic ++ [LF] ++ [LF]
         ++ py "请严格基于以下“已抓取正文”的证据列表生成结构化的Markdown报告，包含：" ++ [LF]
         ++ py "1) 舆情概览 2) 关键信息点 3) 风险与争议 4) 结论与建议 5) 参考来源列表。" ++ [LF]
         ++ py "报告用中文，条理清晰，适合直接导出为PDF。" ++ [LF] ++ [LF]
         ++ py "证据列表:" ++ [LF] ++ evidence_text ++ [LF] |} in
  [system; user].

(** [domains[src] = domains.get(src, 0) + 1] on an insertion-ordered dict. *)
Fixpoint bump (src : str) (d : list (str * nat)) : list (str * nat) :=
  match d with
  | [] => [(src, 1%nat)]
  | (k, n) :: r => if decide (k = src) then (k, S n) :: r else (k, n) :: bump src r
  end.

(** The histogram of the [source] fields. *)
Definition count_sources (items : list Item) : list (str * nat) :=
  fold_left (fun d it =>
               let src := get it "source" in
               if nonempty src then bump src d else d) items [].

(** The order of the key [(-n, d)]: more hits first, then by name. *)
Definition before (a b : str * nat) : bool :=
  (b.2 <? a.2)%nat || ((a.2 =? b.2)%nat && str_ltb a.1 b.1).

Fixpoint insert_sorted (x : str * nat) (l : list (str * nat)) : list (str * nat) :=
  match l with
  | [] => [x]
  | y :: r => if before x y then x :: l else y :: insert_sorted x r
  end.

(** [sorted(domains.items(), key=lambda x: (-x[1], x[0]))]: the keys of a
    dict are distinct, so the order is total and the result does not
    depend on the sorting method. *)
Definition sorted_sources (d : list (str * nat)) : list (str * nat) :=
  fold_right insert_sorted [] d.

(** [dom_text] *)
Definition dom_text (items : list Item) : str :=
  match count_sources items with
  | [] => py "无可用来源"
  | d => join (py ", ")
           (map (fun p => p.1 ++ py "×" ++ str_of_nat p.2)
                (firstn 8 (sorted_sources d)))
  end.

(** The lines of the section on key issues, one or two per item that has
    article text. *)
Fixpoint issue_lines (items : list Item) : list str :=
  match items with
  | [] => []
  | it :: rest =>
      let article_text := article_text_of it in
      if nonempty article_text then
        let title := first_of it "article_title" "title" "source" (py "未命名") in
        let href := str_or (get it "href") (get it "url") in
        let src := get it "source" in
        let snippet := ellipsize 180 (replace_char LF SPACE (strip article_text)) in
        let bullet := py "- [" ++ title ++ py "](" ++ href ++ py ") — " ++ src in
        if nonempty snippet
        then bullet :: (py "  " ++ [LF] ++ py "  摘要（正文摘录）：" ++ snippet)
                    :: issue_lines rest
        else bullet :: issue_lines rest
      else issue_lines rest
  end.

(** The lines of the reference list, one per item. *)
Definition reference_lines (items : list Item) : list str :=
  map (fun it =>
         let title := first_of it "title" "article_title" "source" (py "来源") in
         let href := str_or (get it "href") (get it "url") in
         let src := get it "source" in
         py "- [" ++ title ++ py "](" ++ href ++ py ") — " ++ src) items.

(** [build_fallback_markdown] *)
Definition build_fallback_markdown (topic : str) (items : list Item) : str :=
  let topic := str_or topic (py "报告") in
  let n := str_of_nat (length items) in
  let lines :=
    [ py "# " ++ topic;
      [];
      py "## 执行摘要";
      py "- 线索覆盖：命中 " ++ n ++ py " 条；来源分布：" ++ dom_text items ++ py "。";
      [];
      py "## 舆情概览";
      py "- 命中条数：" ++ n;
      py "- 来源分布：" ++ dom_text items;
      [];
      py "## 关键议题分析" ]
    ++ issue_lines items
    ++ [ [];
         py "## 风险与影响评估";
         py "- 品牌：结合正文线索评估正负面曝光与情感倾向（待补充）。";
         py "- 政策监管/法律合规：关注监管动向与合规要求（待补充）。";
         py "- 安全与公众感知：识别潜在安全事件与公众敏感点（待补充）。";
         py "- 财务：关注商业化进度、投入产出与成本压力（待补充）。";
         py "- 舆论引爆可能性：监测社交平台传播态势与关键节点（待补充）。";
         [];
         py "## 利益相关方与立场";
         py "- 媒体/KOL/机构/受众的态度与动机将随证据集完善补充。";
         [];
         py "## 结论与建议";
         py "- 根据当前已抓取的正文线索，建议持续跟踪并补充证据；在模型服务可用时生成完整专家版报告。";
         [];
         py "## 参考来源" ]
    ++ reference_lines items
    ++ [ [] ] in
  join [LF] lines.

(** The entries of [_evidence_block], numbered from [idx + 1]. *)
Fixpoint evidence_entries (idx : nat) (items : list Item) : list str :=
  match items with
  | [] => []
  | it :: rest =>
      let article_text := article_text_of it in
      if nonempty article_text then
        let idx := S idx in
        let title := first_of it "article_title" "title" "source" (py "来源") in
        let href := str_or (get it "href") (get it "url") in
        let src := get it "source" in
        let date := get it "date" in
        let summary := ellipsize 300 (replace_char LF SPACE article_text) in
        (py "[" ++ str_of_nat idx ++ py "] 标题：" ++ title ++ [LF]
         ++ py "来源：" ++ src ++ [LF]
         ++ py "链接：" ++ href ++ [LF]
         ++ py "日期：" ++ date ++ [LF]
         ++ py "摘要（正文摘录）：" ++ summary ++ [LF]) :: evidence_entries idx rest
      else evidence_entries idx rest
  end.

(** [_evidence_block] *)
Definition _evidence_block (items : list Item) : str :=
  join [LF] (evidence_entries 0 items).

(** [build_expert_structure_messages] *)
Definition build_expert_structure_messages (topic : str) (items : list Item)
    : list Message :=
  let system :=
    {| role := py "system";
       content := py "你是资深舆情分析师与风险顾问。所有关键判断必须由可验证来源支撑；仅依据已抓取到的正文进行判断；对不确定内容以审慎语气表达；明确争议点与信息边界；建议需具备行动、理由、风险、优先级。" |} in
  let user :=
    {| role := py "user";
       content :=
         py "主题：" ++ topic ++ [LF] ++ [LF]
         ++ py "请基于以下证据列表，输出严格 JSON（不包含任何解释文本）。" ++ [LF]
         ++ py "JSON 结构要求：" ++ [LF]
         ++ py "- summary: [{ text }]" ++ [LF]
         ++ py "- topics: [{ id, name, claim, evidence_ids, counter_evidence_ids, impact, confidence, confidence_reason }]" ++ [LF]
         ++ py "- risks: [{ name, level, reason, trigger, mitigation, dimensions }]（维度需覆盖：品牌、政策监管、法律合规、安全、公众感知、财务、舆论引爆可能性）" ++ [LF]
         ++ py "- stakeholders: [{ name, type, stance, motivation, evidence_ids }]" ++ [LF]
         ++ py "- recommendations: [{ action, reason, risks, priority, horizon }]（优先级用 P0/P1/P2）" ++ [LF]
         ++ py "- references: [{ id, title, source, url, date }]" ++ [LF] ++ [LF]
         ++ py "要求：" ++ [LF]
         ++ py "1) 每个 claim 必须由 evidence_ids 支撑，证据仅来自已抓取的正文；存在冲突信息时填写 counter_evidence_ids，并在 confidence_reason 解释不确定性。" ++ [LF]
         ++ py "2) confidence 使用 高/中/低，并写明理由（来源类型、一致性、时间新鲜度、是否有反证）。" ++ [LF]
         ++ py "3) 仅返回 JSON，不要附加解释。" ++ [LF] ++ [LF]
         ++ py "证据列表：" ++ [LF] ++ _evidence_block items |} in
  [system; user].

(** [build_expert_markdown_messages] *)
Definition build_expert_markdown_messages (topic json_text : str) : list Message :=
  let system :=
    {| role := py "system";
       content := py "你是资深舆情分析师与风险顾问。风格为学术审慎；避免绝对化；明确争议与边界；所有关键判断必须在句末用 [n] 引用（n 对应参考来源）。不得加入对用户的解释性文字。" |} in
  let user :=
    {| role := py "user";
       content :=
         py "请将下面的结构化 JSON（主题：" ++ topic
         ++ py "）转写为中文 Markdown 专家报告，统一模板如下：" ++ [LF]
         ++ py "1) 执行摘要（3–5条要点；包含2–3条建议并标注优先级）" ++ [LF]
         ++ py "2) 舆情概览（时间线与关键节点；来源与传播路径；话题簇简表）" ++ [LF]
         ++ py "3) 关键议题分析（每簇：主张→证据→反证/争议→影响→置信度【中等且给出理由】）" ++ [LF]
         ++ py "   影响维度需覆盖：品牌、政策监管、法律合规、安全、公众感知、财务" ++ [LF]
         ++ py "4) 风险与影响评估（风险清单：等级、理由、触发条件、缓释措施；包含“舆论引爆可能性”维度；给出简要风险矩阵）" ++ [LF]
         ++ py "5) 利益相关方与立场（媒体/机构/KOL/受众的态度、动机与诉求）" ++ [LF]
         ++ py "6) 结论与建议（短期与中长期；行动、理由、风险、优先级）" ++ [LF]
         ++ py "7) 参考来源（[n] 标题 — 来源 — 链接 — 日期；正文中每个议题仅展示2–3个代表性引用，其余在参考来源保留）" ++ [LF] ++ [LF]
         ++ py "约束：全文不超过3500字；文中所有关键判断必须用 [n] 引用；每个议题末尾注明“置信度：中等（理由…）”。" ++ [LF] ++ [LF]
         ++ py "结构化 JSON：" ++ [LF] ++ py "```json" ++ [LF] ++ json_text ++ [LF]
         ++ py "```" |} in
  [system; user].

End Report.

(** ** The LLM client (adapters/llm_doubao.py) *)

Module Doubao.

(** What one turn of the retry loop can come to: [client.post], then
    [resp.raise_for_status()], then [resp.json()]. *)
Inductive PostOutcome :=
| Answered (body : value)
    (* a response whose status is below 400, with its JSON body *)
| StatusError (code : Z)
    (* a response with a 4xx or 5xx status: [raise_for_status] raises
       [httpx.HTTPStatusError], a subclass of [httpx.HTTPError] *)
| ReadTimeout
    (* [httpx.ReadTimeout] *)
| TransportError
    (* any other [httpx.HTTPError]: connection error, connect timeout *)
| OtherError.
    (* any other exception, such as a body that is not JSON *)

(** The exception an unanswered turn leaves in [last_exc]. *)
Inductive Exc :=
| HTTPStatusError (code : Z)
| ReadTimeoutExc
| HTTPErrorExc
| OtherExc.

Inductive Result :=
| Returned (body : value)
| ReturnedNone            (* the loop ends with [last_exc] unset *)
| Raised (e : Exc).

Inductive Event :=
| EvPost (attempt : nat)
| EvSleep (seconds : Z).

Definition answered (o : PostOutcome) : bool :=
  match o with
  | Answered _ => true
  | _ => false
  end.

Definition exc_of (o : PostOutcome) : Exc :=
  match o with
  | StatusError code => HTTPStatusError code
  | ReadTimeout => ReadTimeoutExc
  | TransportError => HTTPErrorExc
  | Answered _ | OtherError => OtherExc
  end.

(** [1 * (2 ** attempt)] *)
Definition backoff (attempt : nat) : Z := 1 * 2 ^ Z.of_nat attempt.

(** The [for attempt in range(3)] loop of [complete]: each of the three
    [except] clauses records the exception, and the sleep after them is
    shared. *)
Fixpoint complete_attempts (post : nat -> PostOutcome) (attempts : list nat)
    (last_exc : option Exc) : Result * list Event :=
  match attempts with
  | [] =>
      (match last_exc with
       | Some e => Raised e
       | None => ReturnedNone
       end, [])
  | attempt :: rest =>
      match post attempt with
      | Answered body => (Returned body, [EvPost attempt])
      | failure =>
          let '(r, tr) := complete_attempts post rest (Some (exc_of failure)) in
          (r, EvPost attempt :: EvSleep (backoff attempt) :: tr)
      end
  end.

(** [DoubaoClient.complete]; building the [AsyncClient] is outside the
    loop, so its failure is raised at once. *)
Definition complete (client_ok : bool) (post : nat -> PostOutcome)
    : Result * list Event :=
  if client_ok then complete_attempts post (seq 0 3) None
  else (Raised OtherExc, []).

(** The requests and sleeps of a run in which the first [n] attempts
    failed. *)
Definition failed_rounds (n : nat) : list Event :=
  flat_map (fun a => [EvPost a; EvSleep (backoff a)]) (seq 0 n).

(** An endpoint that answers every request with status 500. *)
Definition always_500 (attempt : nat) : PostOutcome := StatusError 500.

End Doubao.

(** ** The [/analyze] handler (app.py) *)

Module App.

(** [os.environ] *)
Abbreviation Env := (gmap string str).

(** [os.getenv(k, d)] *)
Definition getenv (env : Env) (k : string) (d : str) : str := default d (env !! k).

(** [os.getenv("EXPERT_MODE", "true").lower() == "true"] *)
Definition expert_enabled (env : Env) : bool :=
  bool_decide (lower (getenv env "EXPERT_MODE" (py "true")) = py "true").

(** The settings the head of the handler reads from the environment, as
    parsed there: [MAX_RESULTS], [MAX_FETCH_HTML], [ONLY_TRUSTED],
    [TRUSTED_DOMAINS] and [BLACKLIST_DOMAINS] split at commas,
    [REPORT_DIR], [SEARCH_PROVIDER], the limits of the crawler and the
    suppression settings its constructor reads.  The endpoint, model and
    key of the LLM-driven search only shape what its search returns. *)
Record Settings := {
  max_results : Z;
  max_fetch : Z;
  only_trusted : bool;
  trusted : list str;
  blacklist : list str;
  report_dir : str;
  search_provider : str;
  per_site : Z;
  max_total : Z;
  time_days : Z;
  crawler_strict : bool;
  suppress_threshold : Z;
  suppress_hours : Z;
}.

(** A provider object held in [ss] or [ddgs_fallback]. *)
Inductive ServiceObj :=
| Ranked (v : Ranking.Variant) (self : Ranking.Service)
| Crawl (self : Crawler.CrawlerService).

(** The calls of the handler to [llm.complete]. *)
Inductive LLMCall := Stage1 | Stage2 | Classic.

(** What one request meets outside the process. *)
Record World := {
  search_outcome : ServiceObj -> str -> option (list Item);
    (* [await svc.search(topic)]; [None] when it raises *)
  net : Fetch.Net;
    (* the network of [fetch_readable] *)
  crawl_client_ok : bool;
  crawl_fetch : str -> Crawler.PageFetch;
    (* the client and the pages of [CrawlerService.gather_readables] *)
  llm_client_ok : bool;
  llm_post : LLMCall -> nat -> Doubao.PostOutcome;
    (* the attempts of each call to the model *)
  fs_ok : bool;
    (* [os.makedirs] and [open(md_path, 'w')] succeed *)
  file_id : str;
    (* [str(int(asyncio.get_event_loop().time()*1000))] *)
  md_to_html : str -> option str;
    (* [md_to_html_body(content)]; [None] when it raises *)
  low_fetch_settings_ok : bool;
    (* whether [float(...)] of [LOW_FETCH_RATE_THRESHOLD] and [int(...)] of
       [LOW_FETCH_MIN_DOCS] succeed; when one of them raises, the [except]
       of the notice block leaves the notice empty *)
  low_fetch_notice : nat -> nat -> str;
    (* under settings that can be read, the notice of the fetch-rate rule
       for [got_text] and [total]: float arithmetic on the two settings,
       empty when the rule does not fire *)
}.

Inductive Event :=
| Searched (svc : ServiceObj)          (* [svc.search(topic)] was awaited *)
| SearchFailed                         (* the [except] of the search block logged *)
| Gathered (svc : ServiceObj)          (* [svc.gather_readables(items)] was awaited *)
| SetEnv (k : string) (v : str)        (* [os.environ[k] = v] *)
| Asked (call : LLMCall) (messages : list Report.Message)
                                       (* [llm.complete(messages)] was awaited *)
| Demoted                              (* [expert_mode = False] after stage 1 *)
| FellBack.                            (* [build_fallback_markdown] gave the content *)

(** The body of the [200] response. *)
Record Report := {
  markdown_path : str;
  pdf_path : str;
  markdown : str;
  html : str;
  mode : str;
  fallback : str;
  notice : str;
}.

Inductive Response :=
| Error400                 (* no topic *)
| Error500                 (* [gather_readables] raised *)
| Ok200 (r : Report)
| Crashed.                 (* an exception leaves the handler *)

Definition crawler_default_trusted : list str :=
  [py "people.com.cn"; py "xinhuanet.com"; py "cctv.com"; py "thepaper.cn";
   py "bjnews.com.cn"; py "ifeng.com"; py "163.com"; py "sohu.com"].

Definition crawler_default_blacklist : list str :=
  [py "weixin.qq.com"; py "mp.weixin.qq.com"; py "baijiahao.baidu.com";
   py "bilibili.com"; py "iqiyi.com"; py "youku.com"; py "bilibili.tv";
   py "acfun.cn"].

Section WithUrlparse.

Variable urlparse_netloc : str -> option str.

(** One of the four ranking services, built from the settings. *)
Definition ranked (cfg : Settings) (v : Ranking.Variant)
    (trusted blacklist : list str) : option ServiceObj :=
  Ranked v <$> Ranking.init urlparse_netloc (max_results cfg) (max_fetch cfg)
                 trusted (only_trusted cfg) blacklist.

(** The choice of [ss] and [ddgs_fallback]; [None] when a constructor
    raises. *)
Definition make_services (cfg : Settings) : option (ServiceObj * option ServiceObj) :=
  let provider := lower (search_provider cfg) in
  if decide (provider = py "llm") then
    ss ← ranked cfg Ranking.LLMSearch (trusted cfg) (blacklist cfg);
    fb ← ranked cfg Ranking.DirectSearch (trusted cfg) (blacklist cfg);
    Some (ss, Some fb)
  else if decide (provider = py "mcp") then
    ss ← ranked cfg Ranking.ProtocolTool (trusted cfg) (blacklist cfg);
    fb ← ranked cfg Ranking.LLMSearch (trusted cfg) (blacklist cfg);
    Some (ss, Some fb)
  else if decide (provider = py "mock") then
    ss ← ranked cfg Ranking.Mock (trusted cfg) (blacklist cfg);
    Some (ss, None)
  else if decide (provider = py "crawler") then
    let trusted' := match trusted cfg with
                    | [] => crawler_default_trusted
                    | t => t
                    end in
    let blacklist' := match blacklist cfg with
                      | [] => crawler_default_blacklist
                      | b => b
                      end in
    let ss := Crawl {| Crawler.per_site_limit := per_site cfg;
                       Crawler.max_total_limit := max_total cfg;
                       Crawler.time_days := time_days cfg;
                       Crawler.trusted_domains := trusted';
                       Crawler.blacklist_domains := blacklist';
                       Crawler.suppress_threshold := suppress_threshold cfg;
                       Crawler.suppress_hours := suppress_hours cfg |} in
    if crawler_strict cfg then Some (ss, None)
    else
      fb ← ranked cfg Ranking.DirectSearch trusted' blacklist';
      Some (ss, Some fb)
  else
    ss ← ranked cfg Ranking.DirectSearch (trusted cfg) (blacklist cfg);
    Some (ss, None).

End WithUrlparse.

(** The state of the search block: the items, the active provider and
    what happened so far; or the provider that was active when an
    exception left the [try]. *)
Inductive SearchState :=
| Found (items : list Item) (ss : ServiceObj) (tr : list Event)
| Failed (ss : ServiceObj) (tr : list Event).

(** One of the three fallback tests:
    [if provider == name and len(items) == 0 and ddgs_fallback is not None]. *)
Definition fallback_if (W : World) (topic provider name : str)
    (ddgs_fallback : option ServiceObj) (st : SearchState) : SearchState :=
  match st with
  | Failed _ _ => st
  | Found items ss tr =>
      match ddgs_fallback with
      | Some fb =>
          if bool_decide (provider = name) && (length items =? 0)%nat then
            match search_outcome W fb topic with
            | Some items' => Found items' fb (tr ++ [Searched fb])
            | None => Failed ss (tr ++ [Searched fb])
            end
          else st
      | None => st
      end
  end.

(** The [try] block around the search, and its [except]. *)
Definition search_phase (W : World) (topic provider : str)
    (ss : ServiceObj) (ddgs_fallback : option ServiceObj)
    : list Item * ServiceObj * list Event :=
  let st0 := match search_outcome W ss topic with
             | Some items => Found items ss [Searched ss]
             | None => Failed ss [Searched ss]
             end in
  let st1 := fallback_if W topic provider (py "crawler") ddgs_fallback st0 in
  let st2 := fallback_if W topic provider (py "mcp") ddgs_fallback st1 in
  let st3 := fallback_if W topic provider (py "llm") ddgs_fallback st2 in
  match st3 with
  | Found items ss' tr => (items, ss', tr)
  | Failed ss' tr => ([], ss', tr ++ [SearchFailed])
  end.

(** [await ss.gather_readables(items)]; [None] when it raises. *)
Definition gather (W : World) (ss : ServiceObj) (items : list Item)
    : option (list Item) :=
  match ss with
  | Ranked v self => Some (Fetch.gather_readables v (net W) self items)
  | Crawl self => Crawler.gather_readables (crawl_client_ok W) (crawl_fetch W) items
  end.

(** [(it.get('article_text') or '').strip()] is not empty. *)
Definition has_text (it : Item) : bool := nonempty (Report.article_text_of it).

(** [got_text] *)
Definition got_text (items_readable : list Item) : nat :=
  length (List.filter has_text items_readable).

(** [r.get('choices', [{}])[0].get('message', {}).get('content', '')] on
    what [llm.complete] returned; [None] when the call or one of the
    accesses raises. *)
Definition message_content (r : Doubao.Result) : option value :=
  match r with
  | Doubao.Returned (JObj d) =>
      match default (JArr [JObj []]) (dict_get (py "choices") d) with
      | JArr (JObj c :: _) =>
          match default (JObj []) (dict_get (py "message") c) with
          | JObj m => Some (default (JStr []) (dict_get (py "content") m))
          | _ => None
          end
      | _ => None
      end
  | _ => None
  end.

Definition ask (W : World) (call : LLMCall) : option value :=
  message_content (Doubao.complete (llm_client_ok W) (llm_post W call)).1.

(** [try_parse_json_object(json_text)] on a content of any JSON type: a
    falsy content gives the empty dict, a string is parsed, anything else
    has no [strip] and raises. *)
Definition parse_structured (json_text : value) : option (list (str * value)) :=
  match json_text with
  | JStr s => Some (Extract.try_parse_json_object s)
  | _ => if truthy json_text then None else Some []
  end.

(** [not data or not isinstance(data, dict) or not data.get('references')] *)
Definition lacks_references (data : list (str * value)) : bool :=
  match data with
  | [] => true
  | _ => negb (truthy (default JNull (dict_get (py "references") data)))
  end.

Definition text_of (v : value) : str :=
  match v with
  | JStr s => s
  | _ => []
  end.

(** The [if expert_mode:] block: the value of [expert_mode] after it, the
    content and what happened. *)
Definition expert_stage (W : World) (topic : str) (items_readable : list Item)
    : bool * value * list Event :=
  let msgs1 := Report.build_expert_structure_messages topic items_readable in
  let draft := JStr (Report.build_fallback_markdown topic items_readable) in
  match ask W Stage1 with
  | None => (true, draft, [Asked Stage1 msgs1; FellBack])
  | Some json_text =>
      match parse_structured json_text with
      | None => (true, draft, [Asked Stage1 msgs1; FellBack])
      | Some data =>
          if lacks_references data
          then (false, JStr [], [Asked Stage1 msgs1; Demoted])
          else
            let msgs2 :=
              Report.build_expert_markdown_messages topic (text_of json_text) in
            match ask W Stage2 with
            | None => (true, draft, [Asked Stage1 msgs1; Asked Stage2 msgs2; FellBack])
            | Some content => (true, content, [Asked Stage1 msgs1; Asked Stage2 msgs2])
            end
      end
  end.

(** [marker in content] for a content of any JSON type; [None] when the
    type has no membership test. *)
Definition py_in (marker : str) (content : value) : option bool :=
  match content with
  | JStr s => Some (contains marker s)
  | JArr l => Some (existsb (fun x => match x with
                                      | JStr t => bool_decide (t = marker)
                                      | _ => false
                                      end) l)
  | JObj d => Some (match dict_get marker d with Some _ => true | None => false end)
  | _ => None
  end.

Definition no_evidence_marker_1 : str := py "未提供“已抓取正文”的证据列表".
Definition no_evidence_marker_2 : str := py "未提供证据".

(** [any([...])] over the stripped article texts. *)
Definition has_evidence (items_readable : list Item) : bool :=
  existsb has_text items_readable.

(** The [if not expert_mode:] block; the content is [None] when the
    membership test raises. *)
Definition classic_stage (W : World) (topic : str) (items_readable : list Item)
    : option value * list Event :=
  let draft := JStr (Report.build_fallback_markdown topic items_readable) in
  let '(content, tr) :=
    if negb (has_evidence items_readable) then (draft, [FellBack])
    else
      let messages := Report.build_prompt topic items_readable in
      match ask W Classic with
      | Some c => (c, [Asked Classic messages])
      | None => (draft, [Asked Classic messages; FellBack])
      end in
  if negb (truthy content) then (Some draft, tr ++ [FellBack])
  else
    match py_in no_evidence_marker_1 content with
    | None => (None, tr)
    | Some true => (Some draft, tr ++ [FellBack])
    | Some false =>
        match py_in no_evidence_marker_2 content with
        | None => (None, tr)
        | Some true => (Some draft, tr ++ [FellBack])
        | Some false => (Some content, tr)
        end
    end.

(** The synthesis: the expert block when the mode is on, then the classic
    block when the mode is off or was switched off. *)
Definition synthesize (W : World) (expert_mode : bool) (topic : str)
    (items_readable : list Item) : option value * list Event :=
  let '(expert_mode', content, tr) :=
    if expert_mode then expert_stage W topic items_readable
    else (false, JStr [], []) in
  if expert_mode' then (Some content, tr)
  else
    let '(content', tr') := classic_stage W topic items_readable in
    (content', tr ++ tr').

(** [os.path.join(report_dir, name)] for a relative [name]. *)
Definition path_join (dir name : str) : str :=
  match rev dir with
  | [] => name
  | 47%N :: _ => dir ++ name
  | _ => dir ++ py "/" ++ name
  end.

Definition empty_search_notice : str :=
  py "当前检索为空，已生成草稿报告；建议调整主题或稍后重试。".

Definition model_down_marker : str := py "说明：由于模型服务暂时不可用".

(** What the handler returns once the content is there: the file is
    written, the HTML is rendered, the answer is put together. *)
Definition respond (W : World) (cfg : Settings) (env : Env) (content : value)
    (search_empty : bool) (got total : nat) : Response :=
  if negb (fs_ok W) then Crashed
  else
    match content with
    | JStr md =>
        match md_to_html W md with
        | None => Crashed
        | Some body_html =>
            Ok200
              {| markdown_path :=
                   path_join (report_dir cfg) (py "report_" ++ file_id W ++ py ".md");
                 pdf_path :=
                   path_join (report_dir cfg) (py "report_" ++ file_id W ++ py ".pdf");
                 markdown := md;
                 html := body_html;
                 mode := if expert_enabled env then py "expert" else py "classic";
                 fallback :=
                   if search_empty then py "检索为空，已返回草稿报告"
                   else if contains model_down_marker md
                        then py "LLM 调用失败，已返回草稿报告"
                        else [];
                 notice :=
                   if negb (low_fetch_settings_ok W) then []
                   else if search_empty then empty_search_notice
                   else low_fetch_notice W got total |}
        end
    | _ => Crashed
    end.

(** The environment after the gather block: with no article text at all,
    [os.environ['EXPERT_MODE'] = 'false']. *)
Definition env_after_gather (env : Env) (items_readable : list Item) : Env :=
  if (got_text items_readable =? 0)%nat
  then <["EXPERT_MODE" := py "false"]> env
  else env.

(** What the gather block adds to the trace. *)
Definition gather_events (ss : ServiceObj) (items_readable : list Item) : list Event :=
  if (got_text items_readable =? 0)%nat
  then [Gathered ss; SetEnv "EXPERT_MODE" (py "false")]
  else [Gathered ss].

(** The handler from the gathered items on: the switch of the mode, the
    synthesis, the answer. *)
Definition finish (W : World) (cfg : Settings) (env : Env) (topic : str)
    (ss : ServiceObj) (search_empty : bool) (items_readable : list Item)
    : Response * Env * list Event :=
  let got := got_text items_readable in
  let total := length items_readable in
  let env1 := env_after_gather env items_readable in
  let tr2 := gather_events ss items_readable in
  let expert_mode := expert_enabled env1 in
  let '(content, tr3) := synthesize W expert_mode topic items_readable in
  match content with
  | None => (Crashed, env1, tr2 ++ tr3)
  | Some c => (respond W cfg env1 c search_empty got total, env1, tr2 ++ tr3)
  end.

(** [analyze]: the response, the environment it leaves, what happened. *)
Definition analyze (urlparse_netloc : str -> option str) (W : World)
    (cfg : Settings) (env : Env) (payload_topic : option str)
    : Response * Env * list Event :=
  let topic := default [] payload_topic in
  if negb (nonempty topic) then (Error400, env, [])
  else
    match make_services urlparse_netloc cfg with
    | None => (Crashed, env, [])
    | Some (ss0, ddgs_fallback) =>
        let provider := lower (search_provider cfg) in
        let '(items, ss, tr1) := search_phase W topic provider ss0 ddgs_fallback in
        let search_empty := (length items =? 0)%nat in
        match gather W ss items with
        | None => (Error500, env, tr1 ++ [Gathered ss])
        | Some items_readable =>
            let '(r, env1, tr) :=
              finish W cfg env topic ss search_empty items_readable in
            (r, env1, tr1 ++ tr)
        end
    end.

(** The requests of one process, served one after the other: the
    environment a request leaves is the one the next request finds. *)
Fixpoint serve (urlparse_netloc : str -> option str)
    (requests : list (World * Settings * option str)) (env : Env)
    : list (Response * list Event) * Env :=
  match requests with
  | [] => ([], env)
  | (W, cfg, topic) :: rest =>
      let '(r, env1, tr) := analyze urlparse_netloc W cfg env topic in
      let '(rs, env2) := serve urlparse_netloc rest env1 in
      ((r, tr) :: rs, env2)
  end.

(** An event of the two-stage synthesis. *)
Definition expert_event (e : Event) : bool :=
  match e with
  | Asked Stage1 _ | Asked Stage2 _ | Demoted => true
  | _ => false
  end.

(** A trace without any event of the two-stage synthesis. *)
Definition quiet (tr : list Event) : Prop :=
  Forall (fun e => expert_event e = false) tr.

End App.

(** ** Concrete requests, for the examples *)

Module AppExample.

Import App.

(** [urlparse(d).netloc] of a bare domain name, which has no [//]: the
    empty string. *)
Definition bare_netloc (d : str) : option str := Some [].

(** [samples] of [MockSearchService.search]. *)
Definition mock_samples : list Item :=
  [ <["date" := py "2025-06-01"]>
      (<["summary" := py "概述近一年 AI 与电影行业的应用进展与典型事件"]>
       (<["source" := py "example.com"]>
        (<["title" := py "AI 电影产业趋势速览"]>
         (<["href" := py "https://example.com/aifilm/industry_trends"]> ∅))));
    <["date" := py "2025-05-20"]>
      (<["summary" := py "整理创作者、平台、观众的不同观点与主要争议焦点"]>
       (<["source" := py "example.com"]>
        (<["title" := py "舆情与争议点分布"]>
         (<["href" := py "https://example.com/aifilm/opinion_landscape"]> ∅))));
    <["date" := py "2025-04-10"]>
      (<["summary" := py "归纳近半年政策与行业规范的更新要点"]>
       (<["source" := py "example.com"]>
        (<["title" := py "政策与监管动态"]>
         (<["href" := py "https://example.com/aifilm/regulation"]> ∅)))) ].

(** The body of a chat completion whose message has the given content. *)
Definition chat_body (content : str) : value :=
  JObj [(py "choices",
         JArr [JObj [(py "message", JObj [(py "content", JStr content)])]])].

(** The settings of an installation with defaults only, for a given
    provider name. *)
Definition settings (provider : str) : Settings :=
  {| max_results := 12; max_fetch := 8; only_trusted := false;
     trusted := []; blacklist := [];
     report_dir := py "reports";
     search_provider := provider;
     per_site := 5; max_total := 30; time_days := 15;
     crawler_strict := false;
     suppress_threshold := 3; suppress_hours := 24 |}.

(** The provider objects the handler builds from these settings. *)
Definition ranked_obj (v : Ranking.Variant) (trusted blacklist : list str) : ServiceObj :=
  Ranked v {| Ranking.max_results := 12; Ranking.max_fetch_html := 8;
              Ranking.only_trusted := false;
              Ranking.trusted_domains := trusted;
              Ranking.blacklist_domains := blacklist |}.

Definition crawler_obj : ServiceObj :=
  Crawl {| Crawler.per_site_limit := 5; Crawler.max_total_limit := 30;
           Crawler.time_days := 15;
           Crawler.trusted_domains := crawler_default_trusted;
           Crawler.blacklist_domains := crawler_default_blacklist;
           Crawler.suppress_threshold := 3; Crawler.suppress_hours := 24 |}.

Definition crawler_ddgs_obj : ServiceObj :=
  ranked_obj Ranking.DirectSearch crawler_default_trusted crawler_default_blacklist.

Definition mcp_obj : ServiceObj := ranked_obj Ranking.ProtocolTool [] [].
Definition llm_obj : ServiceObj := ranked_obj Ranking.LLMSearch [] [].
Definition mock_obj : ServiceObj := ranked_obj Ranking.Mock [] [].

Definition two_hits : list Item :=
  [ <["href" := py "https://example.org/a"]> ∅;
    <["href" := py "https://example.org/b"]> ∅ ].

(** A world in which the mock provider answers as its code does, the
    crawler finds nothing or fails as [crawler_search] says, every other
    search has two hits, every page is an article, the model answers stage
    1 with prose and the single-stage prompt with a report. *)
Definition world (crawler_search : option (list Item)) : World :=
  {| search_outcome := fun svc _ =>
       match svc with
       | Ranked Ranking.Mock self =>
           Some (Ranking.MockSearchService_rank bare_netloc self mock_samples)
       | Ranked Ranking.ProtocolTool _ => Some []
       | Ranked _ _ => Some two_hits
       | Crawl _ => crawler_search
       end;
     net := Fetch.good_net;
     crawl_client_ok := true;
     crawl_fetch := fun _ => Crawler.FetchFailed;
     llm_client_ok := true;
     llm_post := fun call _ =>
       match call with
       | Stage1 => Doubao.Answered (chat_body (py "no json here"))
       | _ => Doubao.Answered (chat_body (py "# Report"))
       end;
     fs_ok := true;
     file_id := py "1";
     md_to_html := fun md => Some md;
     low_fetch_settings_ok := true;
     low_fetch_notice := fun _ _ => [] |}.

(** What the mock provider gathers for its three samples. *)
Definition mock_readables : list Item :=
  Fetch.MockSearchService_gather_readables Fetch.default_service
    (Ranking.MockSearchService_rank bare_netloc Fetch.default_service mock_samples).

(** The answer to a request for the topic [X] served by the mock
    provider in that world, from an empty environment. *)
Definition demoted_report : Report :=
  {| markdown_path := py "reports/report_1.md";
     pdf_path := py "reports/report_1.pdf";
     markdown := py "# Report";
     html := py "# Report";
     mode := py "expert";
     fallback := [];
     notice := [] |}.

End AppExample.

(** ** Further concrete requests *)

Module AppCases.

Import App.

(** A world with the model out of reach: its client cannot be built, so
    every [llm.complete] raises at once. *)
Definition model_down (W : World) : World :=
  {| search_outcome := search_outcome W;
     net := net W;
     crawl_client_ok := crawl_client_ok W;
     crawl_fetch := crawl_fetch W;
     llm_client_ok := false;
     llm_post := llm_post W;
     fs_ok := fs_ok W;
     file_id := file_id W;
     md_to_html := md_to_html W;
     low_fetch_settings_ok := low_fetch_settings_ok W;
     low_fetch_notice := low_fetch_notice W |}.

(** The answer the handler gives when the search came back empty, for a
    report body rendered to [body]; the notice is there when the settings
    of the fetch-rate rule can be read. *)
Definition empty_search_report (W : World) (cfg : Settings) (topic body : str) : Report :=
  {| markdown_path := path_join (report_dir cfg) (py "report_" ++ file_id W ++ py ".md");
     pdf_path := path_join (report_dir cfg) (py "report_" ++ file_id W ++ py ".pdf");
     markdown := Report.build_fallback_markdown topic [];
     html := body;
     mode := py "classic";
     fallback := py "检索为空，已返回草稿报告";
     notice := if low_fetch_settings_ok W then empty_search_notice else [] |}.

(** The providers whose items hold strings by construction: the samples
    of the mock, the links the crawler cuts out of pages, the results of
    the client of the search engine.  The LLM-driven search and the
    protocol-tool search hand on values of the JSON they read, of
    whatever type. *)
Definition string_items (ss : ServiceObj) : bool :=
  match ss with
  | Ranked Ranking.LLMSearch _ | Ranked Ranking.ProtocolTool _ => false
  | _ => true
  end.

(** The characters of the marker of a model outage that no literal of
    the draft holds. *)
Definition outage_marker_rare : str := py "说明由于暂不".

(** The fields of an item the draft reads. *)
Definition draft_fields : list string :=
  ["href"; "url"; "source"; "title"; "article_title"; "article_text"].

End AppCases.

(** ** The searches of the mock and of the direct provider *)

Module MockSearch.

Section WithUrlparse.

Variable urlparse_netloc : str -> option str.

(** [MockSearchService.search]: the built-in samples, ranked; the query
    plays no part. *)
Definition search (self : Ranking.Service) (query : str) : list Item :=
  Ranking.MockSearchService_rank urlparse_netloc self AppExample.mock_samples.

End WithUrlparse.

End MockSearch.

Module DirectSearch.

Section WithUrlparse.

Variable urlparse_netloc : str -> option str.

(** The loop over the results in [SearchService.search]:
    [if 'href' not in r and 'link' in r: r['href'] = r['link']]. *)
Definition normalize_keys (r : Item) : Item :=
  match r !! "href", r !! "link" with
  | None, Some l => <["href" := l]> r
  | _, _ => r
  end.

(** [SearchService.search]; [ddgs_text query n] stands for
    [list(DDGS().text(query, max_results=n))], [None] when it raises. *)
Definition search (self : Ranking.Service)
    (ddgs_text : str -> Z -> option (list Item)) (query : str)
    : option (list Item) :=
  results ← ddgs_text query (Ranking.max_results self * 2);
  Some (Ranking.SearchService_rank_results urlparse_netloc self
          (map normalize_keys results)).

End WithUrlparse.

End DirectSearch.

(** ** The links a page scan takes *)

Module CrawlerPages.

Import Crawler.

Section WithUrllib.

Variable urljoin : str -> str -> option str.
Variable hostname : str -> option str.

(** An anchor [(href, text)] the loop of [_search_one_domain] turns into
    a candidate: its URL stays on the site or on an alias of it, a keyword
    occurs in its text or in its URL, and the URL holds no marker of a
    video page. *)
Definition takes (kws : list str) (domain base : str) (a : str * str) : bool :=
  let url := _normalize_url urljoin a.1 base in
  _is_same_site (_domain hostname url) domain domain_aliases
  && (existsb (fun kw => contains kw a.2) kws
      || existsb (fun kw => contains kw url) kws)
  && negb (existsb (fun x => contains x url) video_markers).

(** The candidate made of an anchor. *)
Definition item_of_anchor (domain base : str) (a : str * str) : Item :=
  <["source" := domain]>
    (<["title" := anchor_title a.2]>
     (<["href" := _normalize_url urljoin a.1 base]> ∅)).

End WithUrllib.

End CrawlerPages.

(** ** The LLM-driven search (llm_search_service.py) *)

Module LLMSearch.

Definition SLASH : N := 47.

(** [s.rstrip('/')] *)
Definition rstrip_slash (s : str) : str := rstrip_by (fun c => (c =? SLASH)%N) s.

(** [s.endswith(p)] *)
Definition endswith (p s : str) : bool := startswith (rev p) (rev s).

(** [self._base_api] as [__init__] computes it from [base_url]: the base
    with its trailing slashes removed, and [/v1] added unless it is there. *)
Definition base_api (base_url : option str) : str :=
  let raw_base :=
    rstrip_slash (str_or (default [] base_url) (py "https://aihubmix.com")) in
  if endswith (py "/v1") raw_base then raw_base else raw_base ++ py "/v1".

(** The two endpoints the search tries, in this order. *)
Inductive Endpoint := ChatCompletions | Responses.

Definition endpoint_url (base_url : option str) (e : Endpoint) : str :=
  base_api base_url
  ++ match e with
     | ChatCompletions => py "/chat/completions"
     | Responses => py "/responses"
     end.

(** A dict of the answer of the model, and an item built from it: the
    fields hold whatever JSON the model returned. *)
Abbreviation JDict := (list (str * value)).

(** [a or b] *)
Definition v_or (a b : value) : value := if truthy a then a else b.

(** [d.get(k)], [None] for a missing key. *)
Definition jget (d : JDict) (k : string) : value := default JNull (dict_get (py k) d).

(** The first characters of [s] that satisfy [p]. *)
Fixpoint take_while (p : N -> bool) (s : str) : str :=
  match s with
  | c :: r => if p c then c :: take_while p r else []
  | [] => []
  end.

(** [list(dict.fromkeys(l))]: the elements in the order of their first
    occurrence. *)
Definition dict_fromkeys (l : list str) : list str :=
  fold_left (fun acc u => if bool_decide (u ∈ acc) then acc else acc ++ [u]) l [].

(** What one [await client.post(...)] comes to. *)
Inductive PostOutcome :=
| Response (status : Z) (json : option value)
    (* a response; [json] is what [r.json()] returns, [None] when it raises *)
| ReadTimeout
    (* [httpx.ReadTimeout] *)
| HTTPError
    (* any other [httpx.HTTPError] *)
| OtherError.
    (* any other exception *)

(** The network as a search sees it: whether the client of an endpoint
    can be built, and the outcome of each attempt. *)
Record Net := {
  client_ok : Endpoint -> bool;
  post : Endpoint -> nat -> PostOutcome;
}.

Inductive Event :=
| EvPost (e : Endpoint) (attempt : nat)
| EvSleep (seconds : Z).

(** How the retry loop ends: with a response in [r], with [r] still
    [None], or with an exception that leaves it. *)
Inductive LoopResult :=
| Got (status : Z) (json : option value)
| NoResponse
| Escaped.

(** The [for attempt in range(3)] loop of both endpoints: a response ends
    it, a timeout or another [httpx.HTTPError] is logged and slept on, any
    other exception is not caught there. *)
Fixpoint post_attempts (outcome : nat -> PostOutcome) (e : Endpoint)
    (attempts : list nat) : LoopResult * list Event :=
  match attempts with
  | [] => (NoResponse, [])
  | attempt :: rest =>
      match outcome attempt with
      | Response status json => (Got status json, [EvPost e attempt])
      | ReadTimeout | HTTPError =>
          let '(r, tr) := post_attempts outcome e rest in
          (r, EvPost e attempt :: EvSleep (1 * 2 ^ Z.of_nat attempt) :: tr)
      | OtherError => (Escaped, [EvPost e attempt])
      end
  end.

(** [(data.get('choices') or [{}])[0].get('message', {}).get('content', '')];
    [None] when one of the accesses raises. *)
Definition chat_content (data : value) : option value :=
  match data with
  | JObj d =>
      match v_or (jget d "choices") (JArr [JObj []]) with
      | JArr (JObj c :: _) =>
          match default (JObj []) (dict_get (py "message") c) with
          | JObj m => Some (default (JStr []) (dict_get (py "content") m))
          | _ => None
          end
      | _ => None
      end
  | _ => None
  end.

(** [data.get('output_text') or data.get('content') or ''] *)
Definition responses_content (data : value) : option value :=
  match data with
  | JObj d => Some (v_or (jget d "output_text") (v_or (jget d "content") (JStr [])))
  | _ => None
  end.

(** [_extract_json_array(content)] on a content of any JSON type: a falsy
    content gives [None], a string is searched, anything else has no
    [strip] and raises (the outer [None]). *)
Definition extract (content : value) : option (option (list value)) :=
  match content with
  | JStr s => Some (Extract._extract_json_array s)
  | _ => if truthy content then None else Some None
  end.

(** [content or ""] for a content that is a string or falsy. *)
Definition text_of (content : value) : str :=
  match content with
  | JStr s => s
  | _ => []
  end.

Definition HREF : str := py "href".
Definition TITLE : str := py "title".
Definition SOURCE : str := py "source".
Definition DATE : str := py "date".
Definition SUMMARY : str := py "summary".

(** The keys of a normalized item, in order. *)
Definition item_keys : list str := [HREF; TITLE; SOURCE; DATE; SUMMARY].

(** A field value of a normalized item: truthy, or the empty string. *)
Definition filled (v : value) : bool :=
  truthy v || match v with JStr [] => true | _ => false end.

(** The [href] of an item. *)
Definition href_of (it : JDict) : value := jget it "href".

Section WithLibraries.

(** [urlparse(url).netloc], [None] when it raises; and the class [\w] of
    [re] on [str] patterns. *)
Variable urlparse_netloc : str -> option str.
Variable is_word : N -> bool.

(** [domain_of(v)] on a value that is a string or truthy: on anything but
    a string [urlparse] raises, and the function returns [""]. *)
Definition domain_of_value (v : value) : str :=
  match v with
  | JStr s => Ranking.domain_of urlparse_netloc s
  | _ => []
  end.

(** The item appended for a dict [it] of the array. *)
Definition item_of (it : JDict) : JDict :=
  let url0 := v_or (jget it "url") (v_or (jget it "href") (JStr [])) in
  [ (HREF, url0);
    (TITLE, v_or (jget it "title") (JStr []));
    (SOURCE, v_or (jget it "source") (JStr (domain_of_value url0)));
    (DATE, v_or (jget it "date") (JStr []));
    (SUMMARY, v_or (jget it "summary") (JStr [])) ].

(** The loop over the array: elements that are no dict are skipped. *)
Definition items_of (arr : list value) : list JDict :=
  flat_map (fun it => match it with
                      | JObj d => [item_of d]
                      | _ => []
                      end) arr.

(** The item appended for a URL found in plain text. *)
Definition url_item (u : str) : JDict :=
  [ (HREF, JStr u);
    (TITLE, JStr []);
    (SOURCE, JStr (Ranking.domain_of urlparse_netloc u));
    (DATE, JStr []);
    (SUMMARY, JStr []) ].

(** A character of the class of the URL pattern: a word character or one
    of [- . ? = / # % & : +]. *)
Definition url_char (c : N) : bool :=
  is_word c || bool_decide (c ∈ py "-.?=/#%&:+").

(** The match of the pattern [https?://] followed by one or more
    characters of the class, at the head of [s]. *)
Definition match_url (s : str) : option str :=
  match strip_prefix (py "http") s with
  | None => None
  | Some r =>
      let '(scheme, r1) :=
        match r with
        | 115%N :: r' => (py "https", r')
        | _ => (py "http", r)
        end in
      match strip_prefix (py "://") r1 with
      | None => None
      | Some r2 =>
          match take_while url_char r2 with
          | [] => None
          | body => Some (scheme ++ py "://" ++ body)
          end
      end
  end.

(** [re.findall] of the pattern: the matches from left to right, none
    overlapping another; [skip] characters still belong to the match
    before. *)
Fixpoint findall_urls (skip : nat) (s : str) : list str :=
  match s with
  | [] => []
  | _ :: r =>
      match skip with
      | S k => findall_urls k r
      | O =>
          match match_url s with
          | Some u => u :: findall_urls (length u - 1) r
          | None => findall_urls 0 r
          end
      end
  end.

(** The URL an item is ranked by: [it.get('href') or it.get('url') or '']. *)
Definition rank_url (it : JDict) : value :=
  v_or (jget it "href") (v_or (jget it "url") (JStr [])).

(** One turn of the loop of [_rank_results], on items with JSON fields. *)
Definition rank_step (self : Ranking.Service)
    (acc : list JDict * list JDict) (it : JDict) : list JDict * list JDict :=
  let dom := domain_of_value (rank_url it) in
  if Ranking.is_blacklisted self dom then acc
  else if Ranking.is_trusted self dom then (acc.1 ++ [it], acc.2)
  else (acc.1, acc.2 ++ [it]).

(** [LLMSearchService._rank_results] *)
Definition _rank_results (self : Ranking.Service) (items : list JDict) : list JDict :=
  let '(trusted, others) := fold_left (rank_step self) items ([], []) in
  let ranked := trusted ++ (if Ranking.only_trusted self then [] else others) in
  slice_to (Ranking.max_results self) ranked.

(** What [_call_chat_completions] makes of the content of the message:
    the items of the JSON array when one is found and is not empty, else
    the URLs of the text; [None] is Python's [None]. *)
Definition chat_result (self : Ranking.Service) (content : value)
    : option (list JDict) :=
  match extract content with
  | None => None
  | Some (Some (x :: xs)) => Some (_rank_results self (items_of (x :: xs)))
  | Some _ =>
      let urls := slice_to (Ranking.max_results self)
                    (dict_fromkeys (findall_urls 0 (text_of content))) in
      match map url_item urls with
      | [] => None
      | items => Some (_rank_results self items)
      end
  end.

(** What [_call_responses] makes of the content: no fallback on URLs. *)
Definition responses_result (self : Ranking.Service) (content : value)
    : option (list JDict) :=
  match extract content with
  | Some (Some (x :: xs)) => Some (_rank_results self (items_of (x :: xs)))
  | _ => None
  end.

(** The part of both calls after the request: every failure, an answer
    with status 400 or more included, gives [None]. *)
Definition read_response (self : Ranking.Service) (e : Endpoint) (r : LoopResult)
    : option (list JDict) :=
  match r with
  | Got status json =>
      if 400 <=? status then None
      else
        data ← json;
        match e with
        | ChatCompletions => chat_content data ≫= chat_result self
        | Responses => responses_content data ≫= responses_result self
        end
  | NoResponse | Escaped => None
  end.

(** [_call_chat_completions] and [_call_responses] *)
Definition call (self : Ranking.Service) (net : Net) (e : Endpoint)
    : option (list JDict) * list Event :=
  if client_ok net e then
    let '(r, tr) := post_attempts (post net e) e (seq 0 3) in
    (read_response self e r, tr)
  else (None, []).

Definition _call_chat_completions (self : Ranking.Service) (net : Net) :=
  call self net ChatCompletions.

Definition _call_responses (self : Ranking.Service) (net : Net) :=
  call self net Responses.

(** [if items:] *)
Definition found (r : option (list JDict)) : bool :=
  match r with
  | Some (_ :: _) => true
  | _ => false
  end.

(** [LLMSearchService.search] *)
Definition search (self : Ranking.Service) (net : Net) : list JDict * list Event :=
  let '(items, tr1) := _call_chat_completions self net in
  if found items then (default [] items, tr1)
  else
    let '(items2, tr2) := _call_responses self net in
    if found items2 then (default [] items2, tr1 ++ tr2)
    else ([], tr1 ++ tr2).

(** A normalized item: the five keys in order, every value truthy or the
    empty string. *)
Definition normalized_item_spec (it : JDict) : Prop :=
  map fst it = item_keys /\ Forall (fun kv : str * value => filled kv.2 = true) it.

(** What a call returns: at most [max_results] normalized items, none
    with a blacklisted domain. *)
Definition ranked_items_spec (self : Ranking.Service) (items : list JDict) : Prop :=
  (0 <= Ranking.max_results self ->
   Z.of_nat (length items) <= Ranking.max_results self)
  /\ Forall (fun it => normalized_item_spec it
                       /\ Ranking.is_blacklisted self
                            (domain_of_value (href_of it)) = false) items.

End WithLibraries.

(** The requests and sleeps of a loop whose first [n] attempts met a
    timeout or a transport error. *)
Definition failed_rounds (e : Endpoint) (n : nat) : list Event :=
  flat_map (fun a => [EvPost e a; EvSleep (1 * 2 ^ Z.of_nat a)]) (seq 0 n).

(** An attempt the loop retries. *)
Definition retried (o : PostOutcome) : bool :=
  match o with
  | ReadTimeout | HTTPError => true
  | _ => false
  end.

(** A network for the examples: chat completions answers 503 with a JSON
    body, the responses endpoint answers with a fenced array of one
    reference. *)
Definition example_net : Net :=
  {| client_ok := fun _ => true;
     post := fun e _ =>
       match e with
       | ChatCompletions => Response 503 (Some (JObj []))
       | Responses =>
           Response 200
             (Some (JObj [(py "output_text",
                           JStr (pyq "```json
[{'url': 'https://a.example/x', 'title': 7}]
```"))]))
       end |}.

End LLMSearch.

(** ** The text work of the crawler: page text, keywords, sitemaps *)

Module CrawlerText.

(** *** Patterns *)

(** A character that matches the pattern letter [p] under
    [re.IGNORECASE]: the letter itself, its upper-case form, and for [s],
    [i] and [k] the long s, the dotted capital and the dotless small i,
    and the Kelvin sign. *)
Definition ci_match (p c : N) : bool :=
  ((c =? p)
   || ((97 <=? p) && (p <=? 122) && (c =? p - 32))
   || ((p =? 115) && (c =? 383))
   || ((p =? 105) && ((c =? 304) || (c =? 305)))
   || ((p =? 107) && (c =? 8490)))%N.

(** The character that opens a tag. *)
Definition LT : N := 60.

(** The rest of [s] after a prefix that matches the literal [p], letter
    case ignored. *)
Fixpoint ci_strip_prefix (p s : str) : option str :=
  match p, s with
  | [], _ => Some s
  | a :: p', b :: s' => if ci_match a b then ci_strip_prefix p' s' else None
  | _ :: _, [] => None
  end.

(** The text before the first match of the literal [p] in [s], letter
    case ignored, and the text after it. *)
Fixpoint ci_find (p s : str) : option (str * str) :=
  match ci_strip_prefix p s with
  | Some after => Some ([], after)
  | None =>
      match s with
      | [] => None
      | c :: r =>
          match ci_find p r with
          | Some (before, after) => Some (c :: before, after)
          | None => None
          end
      end
  end.

(** The same with the letter case kept. *)
Fixpoint find (p s : str) : option (str * str) :=
  match strip_prefix p s with
  | Some after => Some ([], after)
  | None =>
      match s with
      | [] => None
      | c :: r =>
          match find p r with
          | Some (before, after) => Some (c :: before, after)
          | None => None
          end
      end
  end.

(** [re.sub(opener + r"[\s\S]*?" + closer, " ", s, flags=re.IGNORECASE)]:
    each block from a match of [opener] to the first match of [closer]
    after it becomes one space; [skip] characters still belong to the
    block before. *)
Fixpoint sub_block (opener closer : str) (skip : nat) (s : str) : str :=
  match s with
  | [] => []
  | c :: r =>
      match skip with
      | S k => sub_block opener closer k r
      | O =>
          match ci_strip_prefix opener s with
          | Some rest =>
              match ci_find closer rest with
              | Some (inner, _) =>
                  SPACE :: sub_block opener closer
                             (length opener + length inner + length closer - 1) r
              | None => c :: sub_block opener closer 0 r
              end
          | None => c :: sub_block opener closer 0 r
          end
      end
  end.

(** The match of [<p[^>]*>([\s\S]*?)</p>] at the head of [s]: its group
    and its length. *)
Definition match_p (s : str) : option (str * nat) :=
  match ci_strip_prefix (py "<p") s with
  | None => None
  | Some r1 =>
      match find_char 62 r1 with
      | None => None
      | Some k =>
          match ci_find (py "</p>") (skipn (S k) r1) with
          | Some (inner, _) => Some (inner, (2 + S k + length inner + 4)%nat)
          | None => None
          end
      end
  end.

(** [re.findall(r"<p[^>]*>([\s\S]*?)</p>", s, flags=re.IGNORECASE)] *)
Fixpoint findall_p (skip : nat) (s : str) : list str :=
  match s with
  | [] => []
  | _ :: r =>
      match skip with
      | S k => findall_p k r
      | O =>
          match match_p s with
          | Some (inner, n) => inner :: findall_p (n - 1) r
          | None => findall_p 0 r
          end
      end
  end.

(** [re.sub(r"<[^>]+>", " ", s)] *)
Definition strip_all_tags (s : str) : str := Crawler.strip_tags (length s) s.

(** [re.sub(r"\s+", " ", s)]: every run of white space becomes one
    space; [in_run] says that the character before was white space. *)
Fixpoint collapse_ws (in_run : bool) (s : str) : str :=
  match s with
  | [] => []
  | c :: r =>
      if is_space c
      then if in_run then collapse_ws true r else SPACE :: collapse_ws true r
      else c :: collapse_ws false r
  end.

(** [_strip_html] *)
Definition _strip_html (html : str) : str :=
  if negb (nonempty html) then []
  else
    let html := sub_block (py "<script") (py "</script>") 0 html in
    let html := sub_block (py "<style") (py "</style>") 0 html in
    let ps := findall_p 0 html in
    let text := join [LF] (map strip_all_tags ps) in
    let text := if nonempty (strip text) then text else strip_all_tags html in
    strip (collapse_ws false text).

(** Two spaces in a row somewhere in [s]. *)
Fixpoint double_space (s : str) : bool :=
  match s with
  | a :: (b :: _) as r => ((a =? SPACE) && (b =? SPACE))%N || double_space r
  | _ => false
  end.

(** *** Keywords *)

(** A character of the class [一-龥A-Za-z0-9]. *)
Definition kw_char (c : N) : bool :=
  ((19968 <=? c) && (c <=? 40869)
   || (65 <=? c) && (c <=? 90)
   || (97 <=? c) && (c <=? 122)
   || (48 <=? c) && (c <=? 57))%N.

(** [re.split(sep + "+", s)] for the separators [negb ∘ keep]: the pieces
    between the runs of separators, empty pieces at both ends included;
    [cur] holds the piece being read, backwards. *)
Fixpoint re_split (keep : N -> bool) (s : str) (cur : str) (in_sep : bool)
    : list str :=
  match s with
  | [] => [rev cur]
  | c :: r =>
      if keep c then re_split keep r (c :: cur) false
      else if in_sep then re_split keep r cur true
      else rev cur :: re_split keep r [] true
  end.

(** The [except] branch of [_generate_keywords]: the pieces of the topic
    that are not empty, eight at most. *)
Definition topic_keywords (topic : str) : list str :=
  slice_to 8 (List.filter nonempty (re_split kw_char topic [] false)).

(** What iterating [data.get('keywords') or []] yields; [None] when the
    value cannot be iterated. *)
Definition iterate (v : value) : option (list value) :=
  if negb (truthy v) then Some []
  else
    match v with
    | JArr l => Some l
    | JStr s => Some (map (fun c => JStr [c]) s)
    | JObj d => Some (map (fun kv => JStr kv.1) d)
    | _ => None
    end.

(** [[s.strip() for s in ... if isinstance(s, str) and s.strip()]] *)
Definition stripped_strings (l : list value) : list str :=
  flat_map (fun v => match v with
                     | JStr s => if nonempty (strip s) then [strip s] else []
                     | _ => []
                     end) l.

(** The JSON value [_generate_keywords] reads from the answer text:
    the text from the first opening brace to the last closing brace when
    there are both in this order, else the whole text; [None] when
    [json.loads] raises. *)
Definition keywords_json (text : str) : option value :=
  let t := Extract.clean text in
  match find_char LBRACE t, rfind_char RBRACE t with
  | Some m, Some n =>
      if (m <? n)%nat then loads (slice m (S n) t) else loads t
  | _, _ => loads t
  end.

(** The [try] block of [_generate_keywords] from [t = text.strip()] on,
    for the content of the answer; [None] when it raises: a content that
    is no string has no [strip], the text may be no JSON, the value no
    dict, its [keywords] not iterable. *)
Definition content_keywords (content : value) : option (list str) :=
  match content with
  | JStr text =>
      match keywords_json text with
      | Some (JObj data) =>
          match iterate (default JNull (dict_get (py "keywords") data)) with
          | Some l => Some (slice_to 12 (stripped_strings l))
          | None => None
          end
      | _ => None
      end
  | _ => None
  end.

(** [_generate_keywords] on what [llm.complete] comes to; [None] when it
    raises.  The statement [import json, re] stands inside the [try],
    after the call of the model and the reading of
    [choices[0].message.content]; it makes [re] a local name of the
    whole function.  When the call or the reading raises, the import has
    not run, and the [re.split] of the [except] branch raises
    [UnboundLocalError], which leaves the method.  An exception raised
    after the import leads to the pieces of the topic. *)
Definition _generate_keywords (topic : str) (r : Doubao.Result) : option (list str) :=
  match App.message_content r with
  | None => None
  | Some content =>
      Some (match content_keywords content with
            | Some kws => kws
            | None => topic_keywords topic
            end)
  end.

(** *** Sitemaps *)

(** The names [_collect_from_sitemap] tries. *)
Definition endpoints : list str :=
  [py "sitemap.xml"; py "sitemap_index.xml"; py "sitemapindex.xml";
   py "sitemap-news.xml"; py "sitemap-news.xml.gz"].

(** The match of [open ([^<]+) close] at the head of [s] for two literal
    tags: its group and its length. *)
Definition match_tag (open close : str) (s : str) : option (str * nat) :=
  match strip_prefix open s with
  | None => None
  | Some r =>
      match LLMSearch.take_while (fun c => negb (c =? 60)%N) r with
      | [] => None
      | body =>
          match strip_prefix close (skipn (length body) r) with
          | Some _ => Some (body, (length open + length body + length close)%nat)
          | None => None
          end
      end
  end.

(** [re.findall(open + "([^<]+)" + close, s)] *)
Fixpoint findall_tag (open close : str) (skip : nat) (s : str) : list str :=
  match s with
  | [] => []
  | _ :: r =>
      match skip with
      | S k => findall_tag open close k r
      | O =>
          match match_tag open close s with
          | Some (body, n) => body :: findall_tag open close (n - 1) r
          | None => findall_tag open close 0 r
          end
      end
  end.

(** What the crawl of sitemaps meets outside the process. *)
Record Web := {
  get_text : str -> option (Z * str);
    (* [client.get(url, follow_redirects=True)]: the status and the text
       of the response; [None] when it raises *)
  recent : str -> bool;
    (* the date test on a [lastmod] value: [false] when it parses as an ISO
       date more than [time_days] days before now, [true] otherwise, a
       value that does not parse included *)
}.

Section WithUrllib.

Variable urljoin : str -> str -> option str.
Variable hostname : str -> option str.

(** The loop over the [loc] entries of one sitemap on the list [items];
    it returns the list as the loop leaves it. *)
Fixpoint scan_locs (self : Crawler.CrawlerService) (web : Web) (kws : list str)
    (domain : str) (lastmods : list str) (idx : nat) (locs : list str)
    (items : list Item) : list Item :=
  match locs with
  | [] => items
  | loc :: rest =>
      let u := strip loc in
      if negb (bool_decide (Crawler._domain hostname u = domain))
      then scan_locs self web kws domain lastmods (S idx) rest items
      else
        let items' :=
          if existsb (fun kw => contains kw u) kws then
            let ok_time := match lastmods !! idx with
                           | Some lm => recent web lm
                           | None => true
                           end in
            if ok_time
            then items ++ [ <["source" := domain]>
                            (<["title" := []]> (<["href" := u]> ∅)) ]
            else items
          else items in
        if Crawler.per_site_limit self <=? Z.of_nat (length items')
        then items'
        else scan_locs self web kws domain lastmods (S idx) rest items'
  end.

(** The loop over the endpoints. *)
Fixpoint scan_endpoints (self : Crawler.CrawlerService) (web : Web) (kws : list str)
    (base_url domain : str) (eps : list str) (items : list Item) : list Item :=
  match eps with
  | [] => items
  | ep :: rest =>
      match get_text web (Crawler._normalize_url urljoin ep base_url) with
      | None => scan_endpoints self web kws base_url domain rest items
      | Some (status, text) =>
          if 400 <=? status
          then scan_endpoints self web kws base_url domain rest items
          else
            let locs := findall_tag (py "<loc>") (py "</loc>") 0 text in
            let lastmods := findall_tag (py "<lastmod>") (py "</lastmod>") 0 text in
            let items' := scan_locs self web kws domain lastmods 0 locs items in
            if Crawler.per_site_limit self <=? Z.of_nat (length items')
            then items'
            else scan_endpoints self web kws base_url domain rest items'
      end
  end.

(** [_collect_from_sitemap] *)
Definition _collect_from_sitemap (self : Crawler.CrawlerService) (web : Web)
    (base_url : str) (keywords : list str) : list Item :=
  scan_endpoints self web keywords base_url (Crawler._domain hostname base_url)
    endpoints [].

(** An item as the sitemap crawl makes them for the site [domain]. *)
Definition sitemap_item_spec (kws : list str) (domain : str) (it : Item) : Prop :=
  exists u, it = <["source" := domain]> (<["title" := []]> (<["href" := u]> ∅))
            /\ strip u = u
            /\ Crawler._domain hostname u = domain
            /\ existsb (fun kw => contains kw u) kws = true.

End WithUrllib.

(** A site with one sitemap, for the examples. *)
Definition example_web : Web :=
  {| get_text := fun url =>
       if decide (url = py "https://auto.example/sitemap.xml")
       then Some (200, py "<urlset><url><loc> https://auto.example/ev/1.html </loc><lastmod>2025-01-01</lastmod></url><url><loc>https://other.example/ev/2.html</loc></url></urlset>")
       else None;
     recent := fun _ => true |}.

(** [urljoin(base, name)] for a base that ends with a slash and a bare
    file name. *)
Definition example_urljoin (base url : str) : option str := Some (base ++ url).

End CrawlerText.

(** ** The domain lists of the configuration *)

Module AppConfig.

(** [s.split(sep)] for a separator of one character; [cur] holds the
    piece under way, last character first. *)
Fixpoint split_on (sep : N) (s : str) (cur : str) : list str :=
  match s with
  | [] => [rev cur]
  | c :: r =>
      if (c =? sep)%N then rev cur :: split_on sep r []
      else split_on sep r (c :: cur)
  end.

(** [[d.strip() for d in csv.split(',') if d.strip()]] *)
Definition csv_list (csv : str) : list str :=
  map strip (List.filter (fun d => nonempty (strip d)) (split_on COMMA csv [])).

(** [trusted] and [blacklist] as the handler reads them. *)
Definition trusted_of (env : App.Env) : list str :=
  csv_list (App.getenv env "TRUSTED_DOMAINS" []).

Definition blacklist_of (env : App.Env) : list str :=
  csv_list (App.getenv env "BLACKLIST_DOMAINS" []).

(** An entry as the lists hold it. *)
Definition entry_spec (d : str) : Prop :=
  nonempty d = true /\ strip d = d /\ COMMA ∉ d.

End AppConfig.

(** ** The log stream *)

Module Logger.

(** [hide_mcp] as [broadcaster] and [log] compute it from the
    environment. *)
Definition hide_mcp (env : App.Env) : bool :=
  negb (bool_decide (lower (App.getenv env "SEARCH_PROVIDER" (py "ddgs")) = py "mcp"))
  || bool_decide (lower (App.getenv env "LOG_HIDE_MCP" (py "false")) = py "true").

(** [hide_mcp and (msg.startswith('[MCP]') or '[MCP]' in msg)] *)
Definition hidden (env : App.Env) (msg : str) : bool :=
  hide_mcp env && (startswith (py "[MCP]") msg || contains (py "[MCP]") msg).

(** A [LogBus]: the messages waiting in [self.queue], oldest first, and
    the queues in [self.clients], each under the identity of its object.
    The queues are unbounded, so that [put] does not raise. *)
Record LogBus := {
  queue : list str;
  clients : gmap nat (list str);
}.

(** [LogBus()] *)
Definition new : LogBus := {| queue := []; clients := ∅ |}.

(** [publish] *)
Definition publish (msg : str) (bus : LogBus) : LogBus :=
  {| queue := queue bus ++ [msg]; clients := clients bus |}.

(** [subscribe]: a new queue object [q] joins the clients. *)
Definition subscribe (q : nat) (bus : LogBus) : LogBus :=
  {| queue := queue bus; clients := <[q := []]> (clients bus) |}.

(** [unsubscribe] *)
Definition unsubscribe (q : nat) (bus : LogBus) : LogBus :=
  {| queue := queue bus; clients := delete q (clients bus) |}.

(** One round of the loop of [broadcaster]; [None] while it waits at
    [self.queue.get()]. *)
Definition broadcaster_step (env : App.Env) (bus : LogBus) : option LogBus :=
  match queue bus with
  | [] => None
  | msg :: rest =>
      Some
        (if hidden env msg
         then {| queue := rest; clients := clients bus |}
         else {| queue := rest; clients := (fun q => q ++ [msg]) <$> clients bus |})
  end.

(** At most [rounds] rounds of it. *)
Fixpoint broadcaster (rounds : nat) (env : App.Env) (bus : LogBus) : LogBus :=
  match rounds with
  | O => bus
  | S n =>
      match broadcaster_step env bus with
      | Some bus' => broadcaster n env bus'
      | None => bus
      end
  end.

(** [log]: the console, first line first, and the bus. *)
Definition log (env : App.Env) (msg : str) (st : list str * LogBus)
    : list str * LogBus :=
  (if hidden env msg then st.1 else st.1 ++ [msg], publish msg st.2).

(** What a client of the stream is due to see of [msgs]. *)
Definition shown (env : App.Env) (msgs : list str) : list str :=
  List.filter (fun msg => negb (hidden env msg)) msgs.

End Logger.

(** ** The fallback report on items of any JSON type

    The providers hand the items over as Python dicts.  The LLM-driven
    search fills [href], [title], [source], [date] and [summary] with
    whatever the JSON of the model holds there, so that a field can be a
    number, a list or a dict.  [build_fallback_markdown] is modelled here
    on such dicts: [None] when it raises. *)

Module ReportAny.

Import LLMSearch.

(** The text of the draft, from its parts. *)
Definition assemble (topic : str) (n : nat) (dom_text : str)
    (issues references : list str) : str :=
  let topic := str_or topic (py "报告") in
  let n := str_of_nat n in
  let lines :=
    [ py "# " ++ topic;
      [];
      py "## 执行摘要";
      py "- 线索覆盖：命中 " ++ n ++ py " 条；来源分布：" ++ dom_text ++ py "。";
      [];
      py "## 舆情概览";
      py "- 命中条数：" ++ n;
      py "- 来源分布：" ++ dom_text;
      [];
      py "## 关键议题分析" ]
    ++ issues
    ++ [ [];
         py "## 风险与影响评估";
         py "- 品牌：结合正文线索评估正负面曝光与情感倾向（待补充）。";
         py "- 政策监管/法律合规：关注监管动向与合规要求（待补充）。";
         py "- 安全与公众感知：识别潜在安全事件与公众敏感点（待补充）。";
         py "- 财务：关注商业化进度、投入产出与成本压力（待补充）。";
         py "- 舆论引爆可能性：监测社交平台传播态势与关键节点（待补充）。";
         [];
         py "## 利益相关方与立场";
         py "- 媒体/KOL/机构/受众的态度与动机将随证据集完善补充。";
         [];
         py "## 结论与建议";
         py "- 根据当前已抓取的正文线索，建议持续跟踪并补充证据；在模型服务可用时生成完整专家版报告。";
         [];
         py "## 参考来源" ]
    ++ references
    ++ [ [] ] in
  join [LF] lines.

Definition is_str (v : value) : bool :=
  match v with JStr _ => true | _ => false end.

(** A value that can be the key of a dict: lists and dicts have no
    hash. *)
Definition hashable (v : value) : bool :=
  match v with JArr _ | JObj _ => false | _ => true end.

(** [it.get('source') or ''] *)
Definition source_of (it : JDict) : value := v_or (jget it "source") (JStr []).

(** [it.get('href') or it.get('url') or ''] *)
Definition href_or_url (it : JDict) : value :=
  v_or (jget it "href") (v_or (jget it "url") (JStr [])).

(** [(it.get('article_text') or '').strip()]; [None] when the value is
    truthy and no string: it has no [strip]. *)
Definition article_text_of (it : JDict) : option str :=
  match v_or (jget it "article_text") (JStr []) with
  | JStr s => Some (strip s)
  | _ => None
  end.

Section WithPython.

(** What the interpreter does with values that are no strings: [str(v)],
    as an f-string writes a value; and [a == b] and [a < b] on two
    numbers (bools, ints and floats), which compare by value. *)
Variable py_str : value -> str.
Variable num_eqb : value -> value -> bool.
Variable num_ltb : value -> value -> bool.

(** [f"{v}"] *)
Definition fmt (v : value) : str :=
  match v with
  | JStr s => s
  | _ => py_str v
  end.

(** Equality of two keys; a string equals no number. *)
Definition key_eqb (a b : value) : bool :=
  match a, b with
  | JStr s, JStr t => bool_decide (s = t)
  | JStr _, _ | _, JStr _ => false
  | _, _ => num_eqb a b
  end.

(** [domains[src] = domains.get(src, 0) + 1] on an insertion-ordered
    dict; the key of an entry that is there stays as it is. *)
Fixpoint bump (src : value) (d : list (value * nat)) : list (value * nat) :=
  match d with
  | [] => [(src, 1%nat)]
  | (k, n) :: r => if key_eqb k src then (k, S n) :: r else (k, n) :: bump src r
  end.

(** The loop that counts the sources; [None] when a truthy source has no
    hash ([TypeError] at [domains.get(src, 0)]). *)
Fixpoint count_sources (items : list JDict) (domains : list (value * nat))
    : option (list (value * nat)) :=
  match items with
  | [] => Some domains
  | it :: rest =>
      let src := source_of it in
      if truthy src then
        if hashable src then count_sources rest (bump src domains) else None
      else count_sources rest domains
  end.

(** The order of the key [(-n, d)] on two entries whose keys compare. *)
Definition before (a b : value * nat) : bool :=
  (b.2 <? a.2)%nat
  || ((a.2 =? b.2)%nat
      && match a.1, b.1 with
         | JStr s, JStr t => str_ltb s t
         | _, _ => num_ltb a.1 b.1
         end).

Fixpoint insert_sorted (x : value * nat) (l : list (value * nat))
    : list (value * nat) :=
  match l with
  | [] => [x]
  | y :: r => if before x y then x :: l else y :: insert_sorted x r
  end.

(** Two entries the sort cannot order: equal counts, one key a string
    and the other a number ([<] between [str] and a number raises
    [TypeError]). *)
Definition mixed (a b : value * nat) : bool :=
  (a.2 =? b.2)%nat && xorb (is_str a.1) (is_str b.1).

Definition mixed_tie (d : list (value * nat)) : bool :=
  existsb (fun a => existsb (mixed a) d) d.

(** [sorted(domains.items(), key=lambda x: (-x[1], x[0]))]; [None] when
    it raises.  Entries with different counts are ordered by the counts
    alone.  Among the entries of one count the keys are compared; when a
    string and a number are among them, no order of them can be reached
    without comparing a string with a number, whatever the sorting
    method, and the call raises.  Otherwise the keys in play are ordered
    by [<] and the result does not depend on the method (but for a NaN
    among the keys, which [<] does not order: the result is then given
    as insertion leaves it). *)
Definition sorted_sources (d : list (value * nat)) : option (list (value * nat)) :=
  if mixed_tie d then None else Some (fold_right insert_sorted [] d).

(** [dom_text] *)
Definition dom_text (domains : list (value * nat)) : option str :=
  match domains with
  | [] => Some (py "无可用来源")
  | _ =>
      (fun l => join (py ", ")
                  (map (fun p => fmt p.1 ++ py "×" ++ str_of_nat p.2) (firstn 8 l)))
      <$> sorted_sources domains
  end.

(** [- [{title}]({href}) — {src}] *)
Definition bullet (title : value) (it : JDict) : str :=
  py "- [" ++ fmt title ++ py "](" ++ fmt (href_or_url it) ++ py ") — "
  ++ fmt (source_of it).

(** The lines of the section on key issues; [None] when an
    [article_text] has no [strip]. *)
Fixpoint issue_lines (items : list JDict) : option (list str) :=
  match items with
  | [] => Some []
  | it :: rest =>
      match article_text_of it with
      | None => None
      | Some article_text =>
          if nonempty article_text then
            let title :=
              v_or (jget it "article_title")
                (v_or (jget it "title")
                   (v_or (jget it "source") (JStr (py "未命名")))) in
            let snippet :=
              Report.ellipsize 180 (replace_char LF SPACE (strip article_text)) in
            (fun lines =>
               if nonempty snippet
               then bullet title it
                    :: (py "  " ++ [LF] ++ py "  摘要（正文摘录）：" ++ snippet)
                    :: lines
               else bullet title it :: lines)
            <$> issue_lines rest
          else issue_lines rest
      end
  end.

(** The lines of the reference list, one per item. *)
Definition reference_lines (items : list JDict) : list str :=
  map (fun it =>
         bullet (v_or (jget it "title")
                   (v_or (jget it "article_title")
                      (v_or (jget it "source") (JStr (py "来源"))))) it) items.

(** [build_fallback_markdown]; [None] when it raises. *)
Definition build_fallback_markdown (topic : str) (items : list JDict) : option str :=
  match count_sources items [] with
  | None => None
  | Some domains =>
      match dom_text domains with
      | None => None
      | Some dt =>
          match issue_lines items with
          | None => None
          | Some issues =>
              Some (assemble topic (length items) dt issues (reference_lines items))
          end
      end
  end.

End WithPython.

(** *** When the draft raises *)

(** An [article_text] that is truthy and no string. *)
Definition bad_text (it : JDict) : bool :=
  match article_text_of it with
  | None => true
  | Some _ => false
  end.

(** A [source] that is truthy and has no hash: a list or a dict that is
    not empty. *)
Definition bad_source (it : JDict) : bool :=
  truthy (source_of it) && negb (hashable (source_of it)).

(** The counts of the sources, when all of them can be counted. *)
Definition source_counts (num_eqb : value -> value -> bool) (items : list JDict)
    : list (value * nat) :=
  default [] (count_sources num_eqb items []).

(** The three ways of the draft to raise: a source without hash, a
    source that is a string and one that is a number counted equally
    often, an [article_text] without [strip]. *)
Definition raises (num_eqb : value -> value -> bool) (items : list JDict) : bool :=
  existsb bad_source items
  || mixed_tie (source_counts num_eqb items)
  || existsb bad_text items.

(** An item whose [source] and [article_text] are strings or falsy. *)
Definition plain_item (it : JDict) : bool :=
  is_str (source_of it) && negb (bad_text it).

(** *** Items whose fields are strings *)

(** The dict of an item of the typed model, with the fields the draft
    reads; a field the item lacks reads as the empty string on both
    sides. *)
Definition of_item (it : Item) : JDict :=
  map (fun k => (py k, JStr (get it k)))
      ["href"; "url"; "source"; "title"; "article_title"; "article_text"].

(** A histogram of the typed model, with its keys as values. *)
Definition lifted (d : list (str * nat)) : list (value * nat) :=
  map (fun p => (JStr p.1, p.2)) d.

(** An item of the LLM-driven search whose [source] the model gave as a
    list. *)
Definition listed_source : JDict :=
  [ (py "url", JStr (py "https://a.example/x"));
    (py "title", JStr (py "t"));
    (py "source", JArr [JStr (py "A"); JStr (py "B")]) ].

(** An item with a number where the text of the article should be. *)
Definition numeric_text : JDict :=
  [ (py "href", JStr (py "https://a.example/x"));
    (py "source", JStr (py "a.example"));
    (py "article_text", JInt 5) ].

(** Two sources counted once each, a string and a number. *)
Definition mixed_sources : list JDict :=
  [ [(py "source", JStr (py "a.example"))];
    [(py "source", JInt 7)] ].

End ReportAny.

(** * Properties *)

(** ** Sanity checks of the string and JSON models *)

Example py_ascii : py "a[" = [97; 91]%N.
Proof. reflexivity. Qed.

Example py_cjk : py "报告" = [25253; 21578]%N.
Proof. reflexivity. Qed.

Example str_of_nat_120 : str_of_nat 120 = py "120".
Proof. reflexivity. Qed.

Example strip_example : strip (py "  a b
") = py "a b".
Proof. reflexivity. Qed.

Example loads_array :
  loads (pyq "[1, {'a': 'x\n'}, null, -2.50e1]")
  = Some (JArr [JInt 1; JObj [(py "a", JStr [120; 10]%N)]; JNull; JFloat (-250) (-1)]).
Proof. vm_compute. reflexivity. Qed.

Example loads_prose : loads (py "no json here") = None.
Proof. vm_compute. reflexivity. Qed.

Example loads_truncated : loads (pyq "[{'a': 1}, {'b': ") = None.
Proof. vm_compute. reflexivity. Qed.

Example loads_extra : loads (py "[1] x") = None.
Proof. vm_compute. reflexivity. Qed.

Example extract_fenced :
  Extract._extract_json_array
    (py "Here you go:" ++ [LF] ++ Extract.fence_open ++ pyq "[{'url': 'u'}]"
     ++ Extract.fence_close ++ [LF] ++ py "Hope this helps.")
  = Some [JObj [(py "url", JStr (py "u"))]].
Proof. vm_compute. reflexivity. Qed.

Example extract_truncated :
  Extract._extract_json_array (pyq "[{'url': 'u'}, {'url': 'v'}, {'url': ")
  = Some [JObj [(py "url", JStr (py "u"))]; JObj [(py "url", JStr (py "v"))]].
Proof. vm_compute. reflexivity. Qed.

Example parse_object_prose : Extract.try_parse_json_object (py "no json here") = [].
Proof. vm_compute. reflexivity. Qed.

Example fallback_empty_head :
  firstn 4 (Report.build_fallback_markdown [] []) = py "# 报告".
Proof. vm_compute. reflexivity. Qed.

Example dom_text_sorted :
  Report.dom_text
    [ <["source" := py "b.com"]> ∅; <["source" := py "a.com"]> ∅;
      <["source" := py "c.com"]> ∅; <["source" := py "c.com"]> ∅ ]
  = py "c.com×2, a.com×1, b.com×1".
Proof. vm_compute. reflexivity. Qed.

(** ** The JSON reader consumes its input from the left *)

Section JsonSuffix.

Lemma lstrip_by_suffix p s : lstrip_by p s `suffix_of` s.
Proof.
  induction s as [|c s IH]; simpl; [done|].
  destruct (p c); [by apply suffix_cons_r|done].
Qed.

Lemma skip_ws_suffix s : skip_ws s `suffix_of` s.
Proof. apply lstrip_by_suffix. Qed.

Lemma strip_prefix_suffix p s r : strip_prefix p s = Some r -> r `suffix_of` s.
Proof.
  revert s. induction p as [|a p IH]; intros [|b s] H; simpl in H;
    simplify_eq; try done.
  destruct (a =? b)%N; [|done]. apply suffix_cons_r. by apply IH.
Qed.

Lemma decode_uXXXX_suffix s n r : decode_uXXXX s = Some (n, r) -> r `suffix_of` s.
Proof.
  unfold decode_uXXXX. intros H. repeat case_match; simplify_eq.
  by do 4 apply suffix_cons_r.
Qed.

Lemma scan_string_suffix fuel s acc v r :
  scan_string fuel s acc = Some (v, r) -> r `suffix_of` s.
Proof.
  revert s acc. induction fuel as [|f IH]; intros s acc H; simpl in H; [done|].
  repeat (case_match; simplify_eq);
    repeat match goal with
      | H : decode_uXXXX _ = Some _ |- _ => apply decode_uXXXX_suffix in H
      | H : scan_string f _ _ = Some _ |- _ => apply IH in H
      end;
    try (by apply suffix_cons_r);
    try (by do 2 apply suffix_cons_r);
    try (apply suffix_cons_r; etrans; [eassumption|]; by apply suffix_cons_r);
    try (do 2 apply suffix_cons_r; etrans; [eassumption|]; done).
  all: do 2 apply suffix_cons_r.
  all: etrans; [eassumption|].
  all: etrans; [|eassumption].
  all: by do 2 apply suffix_cons_r.
Qed.

Lemma scan_digits_suffix s v n v' n' r :
  scan_digits s v n = (v', n', r) -> r `suffix_of` s.
Proof.
  revert v n. induction s as [|c s IH]; intros v n H; simpl in H.
  - by simplify_eq.
  - destruct (is_digit c); [|by simplify_eq].
    apply suffix_cons_r. by eapply IH.
Qed.

Lemma scan_int_part_suffix s v r : scan_int_part s = Some (v, r) -> r `suffix_of` s.
Proof.
  unfold scan_int_part. intros H. repeat (case_match; simplify_eq).
  - by apply suffix_cons_r.
  - by eapply scan_digits_suffix.
Qed.

Lemma scan_fraction_suffix s v n r :
  scan_fraction s = Some (v, n, r) -> r `suffix_of` s.
Proof.
  unfold scan_fraction. intros H. repeat (case_match; simplify_eq).
  apply suffix_cons_r. by eapply scan_digits_suffix.
Qed.

Lemma scan_exponent_suffix s v r : scan_exponent s = Some (v, r) -> r `suffix_of` s.
Proof.
  unfold scan_exponent. intros H. repeat (case_match; simplify_eq);
    match goal with
    | H : scan_digits _ _ _ = _ |- _ => apply scan_digits_suffix in H
    end;
    first [ by apply suffix_cons_r | by do 2 apply suffix_cons_r ].
Qed.

Lemma scan_number_suffix s v r : scan_number s = Some (v, r) -> r `suffix_of` s.
Proof.
  unfold scan_number. intros H.
  repeat (case_match; simplify_eq);
    repeat match goal with
      | H : scan_int_part _ = Some _ |- _ => apply scan_int_part_suffix in H
      | H : scan_fraction _ = Some _ |- _ => apply scan_fraction_suffix in H
      | H : scan_exponent _ = Some _ |- _ => apply scan_exponent_suffix in H
      end;
    first [ solve [repeat first [ eassumption | (etrans; [eassumption|]) ]]
          | solve [apply suffix_cons_r;
                   repeat first [ eassumption | (etrans; [eassumption|]) ]] ].
Qed.

Lemma scan_constant_suffix s v r : scan_constant s = Some (v, r) -> r `suffix_of` s.
Proof.
  unfold scan_constant. intros H.
  repeat match type of H with
    | match strip_prefix ?p ?x with _ => _ end = _ =>
        let E := fresh "E" in
        destruct (strip_prefix p x) eqn:E;
          [apply strip_prefix_suffix in E; by simplify_eq|]
    end.
  done.
Qed.

Lemma eat_split c s r : eat c s = Some r -> s = c :: r.
Proof.
  unfold eat. destruct s as [|x s]; [done|].
  destruct (x =? c)%N eqn:E; [|done]. apply N.eqb_eq in E. by intros [= ->]; subst.
Qed.

Lemma eat_suffix c s r : eat c s = Some r -> r `suffix_of` s.
Proof. intros ->%eat_split. by apply suffix_cons_r. Qed.

Lemma eat_ws_suffix c s r : eat c (skip_ws s) = Some r -> r `suffix_of` s.
Proof. intros H%eat_suffix. etrans; [exact H|apply skip_ws_suffix]. Qed.

Lemma parse_suffix fuel :
  (forall s v r, parse_value fuel s = Some (v, r) -> r `suffix_of` s)
  /\ (forall s acc v r, parse_elems fuel s acc = Some (v, r) -> r `suffix_of` s)
  /\ (forall s acc v r, parse_members fuel s acc = Some (v, r) -> r `suffix_of` s).
Proof.
  induction fuel as [|f (IHv & IHe & IHm)]; [by repeat split|].
  assert (Hws : forall a b : str, a `suffix_of` skip_ws b -> a `suffix_of` b).
  { intros a b H. etrans; [exact H|apply skip_ws_suffix]. }
  split; [|split].
  - intros s v r H. cbn [parse_value] in H. destruct s as [|c s0]; [done|].
    destruct (c =? QUOTE)%N.
    { destruct (scan_string _ s0 []) as [[w r']|] eqn:Hs; [|done].
      apply scan_string_suffix in Hs. simplify_eq. by apply suffix_cons_r. }
    destruct (c =? LBRACE)%N.
    { apply suffix_cons_r.
      destruct (eat RBRACE (skip_ws s0)) as [r'|] eqn:He.
      - apply eat_ws_suffix in He. by simplify_eq.
      - by apply IHm, Hws in H. }
    destruct (c =? LBRACKET)%N.
    { apply suffix_cons_r.
      destruct (eat RBRACKET (skip_ws s0)) as [r'|] eqn:He.
      - apply eat_ws_suffix in He. by simplify_eq.
      - by apply IHe, Hws in H. }
    destruct (scan_constant (c :: s0)) as [[w r']|] eqn:Hc.
    + apply scan_constant_suffix in Hc. by simplify_eq.
    + by apply scan_number_suffix in H.
  - intros s acc v r H. cbn [parse_elems] in H.
    destruct (parse_value f s) as [[v0 r0]|] eqn:Hv; [|done].
    apply IHv in Hv. etrans; [|exact Hv].
    destruct (eat RBRACKET (skip_ws r0)) as [r'|] eqn:He.
    { apply eat_ws_suffix in He. by simplify_eq. }
    destruct (eat COMMA (skip_ws r0)) as [r'|] eqn:He2; [|done].
    apply eat_ws_suffix in He2. apply IHe, Hws in H. by etrans.
  - intros s acc v r H. cbn [parse_members] in H.
    destruct (eat QUOTE s) as [r0|] eqn:Hq; [|done].
    apply eat_suffix in Hq. etrans; [|exact Hq].
    destruct (scan_string _ r0 []) as [[k r1]|] eqn:Hs; [|done].
    apply scan_string_suffix in Hs. etrans; [|exact Hs].
    destruct (eat COLON (skip_ws r1)) as [r2|] eqn:Hc; [|done].
    apply eat_ws_suffix in Hc. etrans; [|exact Hc].
    destruct (parse_value f (skip_ws r2)) as [[v0 r3]|] eqn:Hv; [|done].
    apply IHv, Hws in Hv. etrans; [|exact Hv].
    destruct (eat RBRACE (skip_ws r3)) as [r'|] eqn:He.
    { apply eat_ws_suffix in He. by simplify_eq. }
    destruct (eat COMMA (skip_ws r3)) as [r'|] eqn:He2; [|done].
    apply eat_ws_suffix in He2. apply IHm, Hws in H. by etrans.
Qed.

Lemma elem_of_suffix (x : N) (l1 l2 : str) : x ∈ l1 -> l1 `suffix_of` l2 -> x ∈ l2.
Proof. intros Hx [k ->]. apply elem_of_app. by right. Qed.

(** The elements of an array end at a closing bracket of the input. *)
Lemma parse_elems_bracket fuel s acc v r :
  parse_elems fuel s acc = Some (v, r) -> RBRACKET ∈ s.
Proof.
  revert s acc. induction fuel as [|f IH]; intros s acc H; [done|].
  cbn [parse_elems] in H.
  destruct (parse_value f s) as [[v0 r0]|] eqn:Hv; [|done].
  apply (proj1 (parse_suffix f)) in Hv.
  destruct (eat RBRACKET (skip_ws r0)) as [r'|] eqn:He.
  { apply eat_split in He. eapply elem_of_suffix; [|exact Hv].
    eapply elem_of_suffix; [|apply skip_ws_suffix]. rewrite He.
    apply list_elem_of_here. }
  destruct (eat COMMA (skip_ws r0)) as [r'|] eqn:He2; [|done].
  apply eat_ws_suffix in He2. apply IH in H.
  eapply elem_of_suffix; [exact H|].
  etrans; [apply skip_ws_suffix|]. by etrans.
Qed.

(** Text that opens a bracket and never closes one is not JSON. *)
Lemma loads_unclosed_array (r : str) : RBRACKET ∉ r -> loads (LBRACKET :: r) = None.
Proof.
  intros Hno. unfold loads.
  replace (2 * length (LBRACKET :: r) + 2)%nat
    with (S (2 * length (LBRACKET :: r) + 1)) by lia.
  change (skip_ws (LBRACKET :: r)) with (LBRACKET :: r).
  destruct (parse_value _ _) as [[v r']|] eqn:Hp; [exfalso|reflexivity].
  cbn [parse_value] in Hp.
  change (LBRACKET =? QUOTE)%N with false in Hp.
  change (LBRACKET =? LBRACE)%N with false in Hp.
  change (LBRACKET =? LBRACKET)%N with true in Hp. cbv iota in Hp.
  destruct (eat RBRACKET (skip_ws r)) as [r1|] eqn:He.
  - apply eat_split in He. apply Hno.
    eapply elem_of_suffix; [|apply skip_ws_suffix]. rewrite He.
    apply list_elem_of_here.
  - apply parse_elems_bracket in Hp. apply Hno.
    eapply elem_of_suffix; [exact Hp|apply skip_ws_suffix].
Qed.

End JsonSuffix.

(** ** Slices *)

Lemma slice_to_prefix {A} (n : Z) (l : list A) : slice_to n l `prefix_of` l.
Proof.
  unfold slice_to. destruct (0 <=? n); apply prefix_take.
Qed.

Lemma slice_to_In {A} (n : Z) (l : list A) (x : A) : In x (slice_to n l) -> In x l.
Proof.
  intros H. apply list_elem_of_In. apply list_elem_of_In in H.
  destruct (slice_to_prefix n l) as [k Hk]. rewrite Hk at 1.
  apply elem_of_app. by left.
Qed.

Lemma slice_to_length {A} (n : Z) (l : list A) :
  0 <= n -> (Z.of_nat (length (slice_to n l)) <= n)%Z.
Proof.
  intros Hn. unfold slice_to.
  destruct (0 <=? n) eqn:E; [|lia].
  rewrite length_take. lia.
Qed.

Lemma slice_to_all {A} (n : Z) (l : list A) :
  (Z.of_nat (length l) <= n)%Z -> slice_to n l = l.
Proof.
  intros Hn. unfold slice_to.
  destruct (0 <=? n) eqn:E; [|lia].
  apply take_ge. lia.
Qed.

Lemma filter_sublist_of {A} (p : A -> bool) (l : list A) :
  List.filter p l `sublist_of` l.
Proof.
  induction l as [|x l IH]; simpl; [constructor|].
  destruct (p x); by constructor.
Qed.

(** ** The ranking rule *)

Section RankingFacts.

Import Ranking.
Variable urlparse_netloc : str -> option str.

Local Abbreviation domain_of := (domain_of urlparse_netloc).
Local Abbreviation rank := (rank urlparse_netloc).
Local Abbreviation rank_results := (rank_results urlparse_netloc).
Local Abbreviation ranking_rule := (ranking_rule urlparse_netloc).
Local Abbreviation item_domain := (item_domain urlparse_netloc).
Local Abbreviation trusted_partition := (trusted_partition urlparse_netloc).
Local Abbreviation others_partition := (others_partition urlparse_netloc).

(** The guard [self.trusted_domains and ...] changes nothing: nothing is
    a member of the empty list. *)
Lemma is_trusted_in_set self d : is_trusted self d = in_trusted_set self d.
Proof.
  unfold is_trusted, in_trusted_set. destruct (trusted_domains self); [|done].
  symmetry. apply bool_decide_eq_false. apply not_elem_of_nil.
Qed.

(** The loop appends to each list the items of its partition, in order. *)
Lemma rank_loop self url_of items t o :
  fold_left (rank_step urlparse_netloc self url_of) items (t, o)
  = (t ++ List.filter (fun it => negb (is_blacklisted self (domain_of (url_of it)))
                                 && in_trusted_set self (domain_of (url_of it))) items,
     o ++ List.filter (fun it => negb (is_blacklisted self (domain_of (url_of it)))
                                 && negb (in_trusted_set self (domain_of (url_of it)))) items).
Proof.
  revert t o. induction items as [|it items IH]; intros t o; simpl.
  - by rewrite !app_nil_r.
  - unfold rank_step at 2. rewrite is_trusted_in_set.
    destruct (is_blacklisted self _); simpl; [apply IH|].
    destruct (in_trusted_set self _); simpl; rewrite IH; simpl;
      by rewrite <- ?app_assoc.
Qed.

Lemma rank_results_rule v self items :
  rank_results v self items = ranking_rule v self items.
Proof.
  unfold ranking_rule, trusted_partition, others_partition, item_domain.
  destruct v; unfold Ranking.rank_results, SearchService_rank_results,
    LLMSearchService_rank_results, MCPDDGService_rank, MockSearchService_rank,
    Ranking.rank; rewrite rank_loop; reflexivity.
Qed.

Lemma in_trusted_partition v self items it :
  In it (trusted_partition v self items) ->
  In it items /\ ~ In (item_domain v it) (blacklist_domains self)
  /\ In (item_domain v it) (trusted_domains self).
Proof.
  unfold Ranking.trusted_partition. rewrite filter_In.
  intros [Hin Hp]. apply andb_prop in Hp as [Hb Ht].
  apply negb_true_iff, bool_decide_eq_false in Hb.
  apply bool_decide_eq_true in Ht.
  split; [done|]. split; by rewrite <- list_elem_of_In.
Qed.

Lemma in_others_partition v self items it :
  In it (others_partition v self items) ->
  In it items /\ ~ In (item_domain v it) (blacklist_domains self).
Proof.
  unfold Ranking.others_partition. rewrite filter_In.
  intros [Hin Hp]. apply andb_prop in Hp as [Hb _].
  apply negb_true_iff, bool_decide_eq_false in Hb.
  split; [done|]. by rewrite <- list_elem_of_In.
Qed.

(** On every item list the ranking of each of the four providers returns
    the trusted partition followed by the others, cut to [max_results];
    the others are left out under [only_trusted]; both partitions keep
    the order of the input; no returned item has a blacklisted domain,
    and under [only_trusted] every returned item has a trusted domain. *)
Lemma rank_results_facts v self items :
  rank_results v self items = ranking_rule v self items
  /\ ranking_rule v self items
       `prefix_of` (trusted_partition v self items
                    ++ (if only_trusted self then [] else others_partition v self items))
  /\ trusted_partition v self items `sublist_of` items
  /\ others_partition v self items `sublist_of` items
  /\ (0 <= max_results self ->
      Z.of_nat (length (rank_results v self items)) <= max_results self)
  /\ (forall it, In it (rank_results v self items) ->
        In it items
        /\ ~ In (item_domain v it) (blacklist_domains self)
        /\ (only_trusted self = true ->
            In (item_domain v it) (trusted_domains self))).
Proof.
  split; [apply rank_results_rule|].
  split; [apply slice_to_prefix|].
  split; [apply filter_sublist_of|].
  split; [apply filter_sublist_of|].
  split.
  { intros Hn. rewrite rank_results_rule. by apply slice_to_length. }
  intros it. rewrite rank_results_rule. unfold Ranking.ranking_rule.
  intros Hin. apply slice_to_In, in_app_or in Hin.
  destruct Hin as [Hin|Hin].
  - apply in_trusted_partition in Hin as (? & ? & ?). auto.
  - destruct (only_trusted self); [destruct Hin|].
    apply in_others_partition in Hin as (? & ?).
    split; [done|]. split; [done|]. discriminate.
Qed.

End RankingFacts.

(** ** [gather_readables] (claim C5) *)

Section GatherFacts.

Import Fetch.

Lemma gather_with_map fetch m items :
  gather_with fetch m items
  = map (fun it => enrich it (fetch (it !! "href"))) (slice_to m items).
Proof.
  unfold gather_with. generalize (slice_to m items). intros l.
  induction l as [|it l IH]; simpl; [reflexivity|]. by rewrite IH.
Qed.

Lemma gather_readables_map v net self items :
  gather_readables v net self items
  = map (fun it => enrich it (fetch_readable v net (it !! "href")))
        (slice_to (Ranking.max_fetch_html self) items).
Proof.
  destruct v; simpl; unfold MCPDDGService_gather_readables,
    SearchService_gather_readables, LLMSearchService_gather_readables,
    MockSearchService_gather_readables; apply gather_with_map.
Qed.

Lemma fetch_attempts_all_raised net url attempts :
  (forall k, raised (get_outcome net url k) = true) ->
  (fetch_attempts net url attempts).1 = ([], []).
Proof.
  intros Hall. induction attempts as [|a rest IH]; simpl; [reflexivity|].
  specialize (Hall a). destruct (get_outcome net url a); try discriminate;
    [|reflexivity].
  destruct (fetch_attempts net url rest). simpl in *. exact IH.
Qed.

(** A fetch on which every attempt raises yields the empty pair, for the
    three providers that use the network. *)
Lemma fetch_readable_all_raised v net url :
  v <> Ranking.Mock ->
  (forall k, raised (get_outcome net url k) = true) ->
  fetch_readable v net url = ([], []).
Proof.
  intros Hv Hall. destruct v; simpl; try congruence;
    unfold SearchService_fetch_readable, LLMSearchService_fetch_readable;
    destruct (client_ok net); try reflexivity;
    try (by apply fetch_attempts_all_raised).
  specialize (Hall 0%nat). by destruct (get_outcome net url 0).
Qed.

(** C5 as the claim has it fails: with the default cap of eight fetches,
    nine hits of a direct search come back as eight items; the ninth is
    dropped. *)
Lemma gather_readables_drops_items_beyond_cap :
  length (gather_readables Ranking.DirectSearch good_net default_service
            (map sample_item (seq 0 9))) = 8%nat.
Proof. vm_compute. reflexivity. Qed.

(** C5, amended.  For the four providers that rank, [gather_readables]
    returns, in input order, one item for each of the first
    [max_fetch_html] input items (for all of them when the list is no
    longer than the cap): the input item with [article_title] and
    [article_text] set from its fetch, every other field kept; a fetch
    whose attempts all raise sets both to the empty string.  For the
    crawler, when the client can be built, it returns one item per input
    item in input order: the input item with [article_text] set, with
    [article_title] and [date] set only when the page shows them, every
    other field kept; a failed fetch keeps the item with an empty
    [article_text]. *)
Theorem gather_readables_keeps_order :
  (forall v net self items,
      let out := gather_readables v net self items in
      let selected := slice_to (Ranking.max_fetch_html self) items in
      selected `prefix_of` items
      /\ length out = length selected
      /\ (Z.of_nat (length items) <= Ranking.max_fetch_html self ->
          length out = length items)
      /\ (forall i it, selected !! i = Some it ->
            exists title text,
              fetch_readable v net (it !! "href") = (title, text)
              /\ out !! i = Some (<["article_text" := text]>
                                   (<["article_title" := title]> it))
              /\ (v <> Ranking.Mock ->
                  (forall k, raised (get_outcome net (it !! "href") k) = true) ->
                  text = [])))
  /\ (forall fetch items,
        exists out,
          Crawler.gather_readables true fetch items = Some out
          /\ length out = length items
          /\ (forall i it, items !! i = Some it ->
                exists o,
                  out !! i = Some o
                  /\ is_Some (o !! "article_text")
                  /\ (forall k : string,
                        k <> "article_text" -> k <> "article_title" -> k <> "date" ->
                        o !! k = it !! k)
                  /\ (fetch (get it "href") = Crawler.FetchFailed ->
                      o = <["article_text" := []]> it))).
Proof.
  split.
  - intros v net self items out selected. subst out selected.
    rewrite gather_readables_map.
    split; [apply slice_to_prefix|].
    split; [apply length_map|].
    split; [intros Hle; by rewrite length_map, slice_to_all|].
    intros i it Hi.
    destruct (fetch_readable v net (it !! "href")) as [title text] eqn:Hf.
    exists title, text. split; [reflexivity|]. split.
    + rewrite list_lookup_fmap, Hi. simpl. by rewrite Hf.
    + intros Hv Hall. rewrite (fetch_readable_all_raised v net _ Hv Hall) in Hf.
      congruence.
  - intros fetch items. eexists. split; [reflexivity|].
    split; [apply length_map|].
    intros i it Hi. exists (Crawler.fetch_one fetch it).
    split; [by rewrite list_lookup_fmap, Hi|].
    unfold Crawler.fetch_one.
    destruct (fetch (get it "href")) as [|text title date].
    + split; [rewrite lookup_insert_eq; eauto|].
      split; [|reflexivity].
      intros k Hk _ _. by rewrite lookup_insert_ne.
    + split; [rewrite lookup_insert_eq; eauto|].
      split; [|discriminate].
      intros k Hk1 Hk2 Hk3. rewrite lookup_insert_ne by done.
      destruct date, title; rewrite ?lookup_insert_ne by done; reflexivity.
Qed.

End GatherFacts.

(** ** Domain suppression (claim C2) *)

Section Suppression.

Import Crawler.

Lemma record_failure_lookup self now (d : str) store :
  _record_failure self now d store !! d
  = Some (if suppress_threshold self <=? failure_count store d + 1
          then {| count := failure_count store d + 1;
                  suppress_until := now + suppress_hours self * 3600 |}
          else {| count := failure_count store d + 1;
                  suppress_until :=
                    default 0 (suppress_until <$> store !! d) |}).
Proof.
  unfold _record_failure, failure_count. rewrite lookup_insert_eq.
  destruct (store !! d) as [r|]; simpl; reflexivity.
Qed.

Lemma record_failure_count self now (d : str) store :
  failure_count (_record_failure self now d store) d = failure_count store d + 1.
Proof.
  unfold failure_count at 1. rewrite record_failure_lookup.
  by destruct (_ <=? _).
Qed.

Lemma record_failures_count self (d : str) nows store :
  failure_count (record_failures self d nows store) d
  = failure_count store d + Z.of_nat (length nows).
Proof.
  revert store. induction nows as [|now nows IH]; intros store.
  - simpl. lia.
  - change (record_failures self d (now :: nows) store)
      with (record_failures self d nows (_record_failure self now d store)).
    rewrite IH, record_failure_count, length_cons. lia.
Qed.

Lemma record_success_lookup (d : str) (store : SuppressStore) :
  _record_success d store !! d = None.
Proof. apply lookup_delete_eq. Qed.

(** C2: from a store whose count for the domain is not negative,
    [threshold] failures in a row, the last of them at time [last],
    leave the record [{count, suppress_until = last + hours * 3600}];
    from then on the suppression test holds exactly at the times before
    [suppress_until], and at such a time [_search_one_domain] returns no
    candidate and leaves the store alone, whatever the network would
    answer.  One [record_success] removes the record whatever it holds:
    the test fails at every time and the next failure counts from one. *)
Theorem suppression_after_threshold_failures
    (self : CrawlerService) (d : str) (nows : list Z) (last : Z)
    (store : SuppressStore) :
  1 <= suppress_threshold self ->
  Z.of_nat (length (nows ++ [last])) = suppress_threshold self ->
  0 <= failure_count store d ->
  let store' := record_failures self d (nows ++ [last]) store in
  let until := last + suppress_hours self * 3600 in
  store' !! d = Some {| count := failure_count store d + suppress_threshold self;
                        suppress_until := until |}
  /\ (forall t, is_suppressed store' t d = (t <? until))
  /\ (forall urljoin hostname w kws base,
        now_at_check w d < until ->
        _search_one_domain urljoin hostname self w kws d base store' = (Some [], store'))
  /\ (forall s : SuppressStore,
        _record_success d s !! d = None
        /\ (forall t, is_suppressed (_record_success d s) t d = false)
        /\ (forall now, failure_count (_record_failure self now d (_record_success d s)) d = 1)).
Proof.
  intros Hth Hlen Hc0 store' until.
  assert (Hlook : store' !! d
                  = Some {| count := failure_count store d + suppress_threshold self;
                            suppress_until := until |}).
  { subst store'. unfold record_failures. rewrite fold_left_app. simpl.
    rewrite record_failure_lookup.
    fold (record_failures self d nows store). rewrite record_failures_count.
    rewrite length_app in Hlen. simpl in Hlen.
    destruct (_ <=? _) eqn:E; [|lia].
    subst until. f_equal. f_equal. lia. }
  assert (Hsup : forall t, is_suppressed store' t d = (t <? until)).
  { intros t. unfold is_suppressed. by rewrite Hlook. }
  split; [exact Hlook|]. split; [exact Hsup|]. split.
  - intros urljoin hostname w kws base Hnow. unfold _search_one_domain.
    destruct (bool_decide _); [reflexivity|].
    rewrite Hsup. destruct (_ <? _) eqn:E; [reflexivity|lia].
  - intros s. split; [apply record_success_lookup|]. split.
    + intros t. unfold is_suppressed. by rewrite record_success_lookup.
    + intros now. rewrite record_failure_count. unfold failure_count.
      by rewrite record_success_lookup.
Qed.

Lemma suppression_after_threshold_failures_witness :
  let store' := record_failures default_crawler (py "people.com.cn") [100; 200; 300] ∅ in
  store' !! py "people.com.cn" = Some {| count := 3; suppress_until := 300 + 86400 |}
  /\ is_suppressed store' 86699 (py "people.com.cn") = true
  /\ is_suppressed store' 86700 (py "people.com.cn") = false.
Proof.
  pose proof (suppression_after_threshold_failures default_crawler
                (py "people.com.cn") [100; 200] 300 ∅) as H.
  simpl in H.
  destruct H as (Hl & Hs & _); [unfold default_suppress_threshold; lia
                               |reflexivity|reflexivity|].
  split; [exact Hl|]. split; rewrite Hs; reflexivity.
Defined.

End Suppression.

(** ** The search of the crawler *)

Lemma seed_fold_spec (ds acc : list str) :
  NoDup acc ->
  NoDup (fold_left (fun acc d => if bool_decide (d ∈ acc) then acc else acc ++ [d]) ds acc)
  /\ forall d, d ∈ fold_left (fun acc d => if bool_decide (d ∈ acc) then acc
                                           else acc ++ [d]) ds acc
               <-> d ∈ acc \/ d ∈ ds.
Proof.
  revert acc. induction ds as [|x ds IH]; intros acc Hacc; simpl.
  - split; [exact Hacc|]. intros d. rewrite elem_of_nil. tauto.
  - destruct (bool_decide (x ∈ acc)) eqn:E.
    + apply bool_decide_eq_true_1 in E.
      destruct (IH acc Hacc) as [Hnd Hel]. split; [exact Hnd|].
      intros d. rewrite Hel, elem_of_cons.
      split; [tauto|]. intros [?|[->|?]]; tauto.
    + apply bool_decide_eq_false_1 in E.
      assert (Hacc' : NoDup (acc ++ [x])).
      { apply NoDup_app. split; [exact Hacc|]. split.
        - intros y Hy ->%list_elem_of_singleton. contradiction.
        - apply NoDup_singleton. }
      destruct (IH _ Hacc') as [Hnd Hel]. split; [exact Hnd|].
      intros d. rewrite Hel, elem_of_app, list_elem_of_singleton, elem_of_cons. tauto.
Qed.

Lemma seed_domains_spec (ds : list str) :
  NoDup (Crawler.seed_domains ds)
  /\ forall d, d ∈ Crawler.seed_domains ds <-> d ∈ ds.
Proof.
  destruct (seed_fold_spec ds [] (NoDup_nil_2 : NoDup (@nil str))) as [Hnd Hel].
  split; [exact Hnd|]. intros d. unfold Crawler.seed_domains.
  rewrite Hel, elem_of_nil. tauto.
Qed.

Section CrawlFacts.

Import Crawler.

Variable urljoin : str -> str -> option str.
Variable hostname : str -> option str.

Local Abbreviation _search_one_domain := (_search_one_domain urljoin hostname).
Local Abbreviation domain_task := (domain_task urljoin hostname).
Local Abbreviation run_domains := (run_domains urljoin hostname).
Local Abbreviation site_candidates := (site_candidates urljoin hostname).
Local Abbreviation search := (search urljoin hostname).

(** A domain task writes the record of its own domain only. *)
Lemma search_one_domain_frame (self : CrawlerService) (w : World) (kws : list str)
    (d base d' : str) (store : SuppressStore) :
  d' <> d ->
  (_search_one_domain self w kws d base store).2 !! d' = store !! d'.
Proof.
  intros Hne. unfold Crawler._search_one_domain.
  destruct (bool_decide (d ∈ blacklist_domains self)); [reflexivity|].
  destruct (is_suppressed store _ d); [reflexivity|].
  destruct (collect_candidates _ _ _ _ _ _ _) as [items|]; cbn [snd].
  - destruct (0 <? _); [|reflexivity].
    unfold _record_success. by rewrite lookup_delete_ne.
  - unfold _record_failure. by rewrite lookup_insert_ne.
Qed.

Lemma domain_task_frame (self : CrawlerService) (w : World) (kws : list str)
    (d d' : str) (store : SuppressStore) :
  d' <> d -> (domain_task self w kws d store).2 !! d' = store !! d'.
Proof.
  intros Hne. unfold Crawler.domain_task.
  destruct (waits self w d store && timed_out w d); [reflexivity|].
  by apply search_one_domain_frame.
Qed.

(** It reads the record of its own domain only. *)
Lemma domain_task_local (self : CrawlerService) (w : World) (kws : list str)
    (d : str) (store1 store : SuppressStore) :
  store1 !! d = store !! d ->
  (domain_task self w kws d store1).1 = (domain_task self w kws d store).1.
Proof.
  intros H.
  assert (Hsup : is_suppressed store1 (now_at_check w d) d
                 = is_suppressed store (now_at_check w d) d)
    by (unfold is_suppressed; by rewrite H).
  unfold Crawler.domain_task, waits, Crawler._search_one_domain. rewrite Hsup.
  destruct (bool_decide (d ∈ blacklist_domains self)); cbn [negb andb]; [reflexivity|].
  destruct (is_suppressed store _ d); cbn [negb andb]; [reflexivity|].
  destruct (timed_out w d); [reflexivity|].
  by destruct (collect_candidates _ _ _ _ _ _ _).
Qed.

Lemma run_domains_spec (self : CrawlerService) (w : World) (kws : list str) (ds : list str) :
  forall store,
    length (run_domains self w kws ds store).1 = length ds
    /\ forall d', d' ∉ ds ->
         (run_domains self w kws ds store).2 !! d' = store !! d'.
Proof.
  induction ds as [|d ds IH]; intros store; [by split|].
  cbn [Crawler.run_domains].
  pose proof (fun d' => domain_task_frame self w kws d d' store) as Hone.
  destruct (domain_task self w kws d store) as [r store1].
  specialize (IH store1).
  destruct (run_domains self w kws ds store1) as [rs store2]. cbn [fst snd] in *.
  destruct IH as [Hlen Hframe]. split; [by rewrite length_cons, Hlen|].
  intros d' [Hd Hds]%not_elem_of_cons.
  rewrite Hframe by done. exact (Hone d' Hd).
Qed.

(** The tasks of distinct domains do not see each other: what they
    return together is what each returns on the store as it was. *)
Lemma run_domains_concat (self : CrawlerService) (w : World) (kws : list str)
    (store : SuppressStore) (ds : list str) :
  NoDup ds ->
  forall store1,
    (forall d, d ∈ ds -> store1 !! d = store !! d) ->
    collect_results (run_domains self w kws ds store1).1
    = concat (map (site_candidates self w kws store) ds).
Proof.
  induction 1 as [|d ds Hd Hnd IH]; intros store1 Hagree; [reflexivity|].
  cbn [Crawler.run_domains map concat].
  pose proof (domain_task_local self w kws d store1 store
                (Hagree d (list_elem_of_here _ _))) as Hloc.
  pose proof (fun d' => domain_task_frame self w kws d d' store1) as Hframe.
  unfold Crawler.site_candidates at 1.
  destruct (domain_task self w kws d store1) as [r store2]. cbn [fst snd] in *.
  specialize (IH store2).
  destruct (run_domains self w kws ds store2) as [rs store3]. cbn [fst] in *.
  unfold collect_results in *. cbn [map concat]. rewrite <- Hloc. f_equal.
  apply IH. intros d' Hd'. rewrite Hframe.
  - apply Hagree. by apply list_elem_of_further.
  - intros ->. contradiction.
Qed.

(** What a search returns: the candidates of the seeds, seed after seed,
    cut to [max_total_limit]. *)
Lemma search_concat (self : CrawlerService) (w : World) (store store' : SuppressStore)
    (items : list Item) :
  search self w store = (Some items, store') ->
  exists kws,
    keywords w = Some kws
    /\ client_ok w = true
    /\ items = slice_to (max_total_limit self)
                 (concat (map (site_candidates self w kws store)
                            (seed_domains (trusted_domains self)))).
Proof.
  unfold Crawler.search. destruct (keywords w) as [kws|]; [|done].
  destruct (client_ok w); [|done].
  pose proof (run_domains_concat self w kws store (seed_domains (trusted_domains self))
                (proj1 (seed_domains_spec _)) store (fun _ _ => eq_refl)) as Hcat.
  destruct (run_domains self w kws _ store) as [rs store2]. cbn [fst] in Hcat.
  intros [= <- _]. exists kws. by rewrite Hcat.
Qed.

(** A blacklisted seed and a seed under suppression give nothing. *)
Lemma site_candidates_skipped (self : CrawlerService) (w : World) (kws : list str)
    (store : SuppressStore) (d : str) :
  d ∈ blacklist_domains self \/ is_suppressed store (now_at_check w d) d = true ->
  site_candidates self w kws store d = [].
Proof.
  intros H. unfold Crawler.site_candidates, Crawler.domain_task, waits,
    Crawler._search_one_domain.
  destruct (bool_decide (d ∈ blacklist_domains self)) eqn:Eb; cbn [negb andb];
    [reflexivity|].
  destruct (is_suppressed store _ d) eqn:Es; cbn [negb andb]; [reflexivity|].
  apply bool_decide_eq_false_1 in Eb. by destruct H.
Qed.

(** No seed gives more than [per_site_limit] candidates. *)
Lemma site_candidates_length (self : CrawlerService) (w : World) (kws : list str)
    (store : SuppressStore) (d : str) :
  0 <= per_site_limit self ->
  Z.of_nat (length (site_candidates self w kws store d)) <= per_site_limit self.
Proof.
  intros Hlim. unfold Crawler.site_candidates, Crawler.domain_task,
    Crawler._search_one_domain.
  destruct (waits self w d store && timed_out w d); [cbn; lia|].
  destruct (bool_decide (d ∈ blacklist_domains self)); [cbn; lia|].
  destruct (is_suppressed store _ d); [cbn; lia|].
  destruct (collect_candidates _ _ _ _ _ _ _) as [found|]; cbn [fst default];
    [|cbn; lia].
  change (id (slice_to (per_site_limit self) found))
    with (slice_to (per_site_limit self) found).
  by apply slice_to_length.
Qed.

End CrawlFacts.

Example is_same_site_alias :
  Crawler._is_same_site (py "news.cn") (py "xinhuanet.com") Crawler.domain_aliases = true.
Proof. vm_compute. reflexivity. Qed.



(** ** What the cleaning of model output removes *)

Section Cleaning.

Import Extract.

Lemma lstrip_by_split p s :
  exists k, s = k ++ lstrip_by p s /\ Forall (fun c => p c = true) k.
Proof.
  induction s as [|c s (k & Hk & Hall)]; simpl.
  - by exists [].
  - destruct (p c) eqn:E.
    + exists (c :: k). split; [by rewrite <- app_comm_cons, <- Hk|by constructor].
    + by exists [].
Qed.

Ltac solve_plain :=
  repeat (constructor;
          [unfold plain, LBRACKET, RBRACKET, LBRACE, RBRACE; repeat split; discriminate|]);
  constructor.

Lemma space_plain c : is_space c = true -> plain c.
Proof.
  unfold plain, LBRACKET, RBRACKET, LBRACE, RBRACE. intros H.
  repeat split; intros ->; discriminate H.
Qed.

(** A prefix of plain characters removed from [lead ++ c :: rest], with
    [c] not plain, comes off [lead]. *)
Lemma cut_prefix (k t lead : str) (c : N) (rest : str) :
  lead ++ c :: rest = k ++ t -> Forall plain k -> ~ plain c ->
  exists lead', lead = k ++ lead' /\ t = lead' ++ c :: rest.
Proof.
  revert lead. induction k as [|x k IH]; intros lead Heq Hall Hc.
  - exists lead. by rewrite Heq.
  - inversion Hall as [|? ? Hx Hk]; subst.
    destruct lead as [|y lead]; simpl in Heq.
    + injection Heq as -> _. contradiction.
    + injection Heq as -> Heq.
      destruct (IH lead Heq Hk Hc) as (lead' & -> & ->). by exists lead'.
Qed.

(** The same at the other end. *)
Lemma cut_suffix (x q pre : str) (c : N) (trail : str) :
  pre ++ c :: trail = x ++ q -> Forall plain q -> ~ plain c ->
  exists trail', trail = trail' ++ q /\ x = pre ++ c :: trail'.
Proof.
  intros Heq Hall Hc.
  destruct (cut_prefix (rev q) (rev x) (rev trail) c (rev pre)) as (l & Hl1 & Hl2).
  - rewrite <- rev_app_distr, <- Heq, rev_app_distr. simpl.
    by rewrite <- app_assoc.
  - by apply Forall_rev.
  - done.
  - exists (rev l). split.
    + apply (f_equal (@rev N)) in Hl1. rewrite rev_app_distr, !rev_involutive in Hl1.
      done.
    + apply (f_equal (@rev N)) in Hl2.
      rewrite rev_app_distr, rev_involutive in Hl2. simpl in Hl2.
      rewrite rev_involutive, <- app_assoc in Hl2. done.
Qed.

Lemma strip_prefix_split p s r : strip_prefix p s = Some r -> s = p ++ r.
Proof.
  revert s. induction p as [|a p IH]; intros [|b s] H; simpl in H; simplify_eq;
    try done.
  destruct (a =? b)%N eqn:E; [|done]. apply N.eqb_eq in E as ->.
  simpl. f_equal. by apply IH.
Qed.

Lemma after_newline_split r r' :
  after_newline r = Some r' -> exists k, r = k ++ r' /\ Forall plain k.
Proof.
  unfold after_newline. intros H. repeat (case_match; simplify_eq).
  - exists [13%N; 10%N]. split; [done|]. solve_plain.
  - exists [10%N]. split; [done|]. solve_plain.
Qed.

Lemma py_fence_plain : Forall plain (py "```").
Proof. vm_compute. solve_plain. Qed.

Lemma py_json_plain : Forall plain (py "json").
Proof. vm_compute. solve_plain. Qed.

Lemma strip_open_fence_split t :
  exists k, t = k ++ strip_open_fence t /\ Forall plain k.
Proof.
  unfold strip_open_fence.
  destruct (strip_prefix (py "```") t) as [r|] eqn:H1; [|by exists []].
  apply strip_prefix_split in H1.
  assert (Hplain : exists k, t = k ++ default t (after_newline r) /\ Forall plain k).
  { destruct (after_newline r) as [r'|] eqn:H2; simpl; [|by exists []].
    apply after_newline_split in H2 as (k & -> & Hk).
    exists (py "```" ++ k). split; [by rewrite <- app_assoc|].
    apply Forall_app. split; [apply py_fence_plain|done]. }
  destruct (strip_prefix (py "json") r) as [r1|] eqn:H3; [|exact Hplain].
  destruct (after_newline r1) as [r2|] eqn:H4; simpl; [|exact Hplain].
  apply strip_prefix_split in H3. apply after_newline_split in H4 as (k & -> & Hk).
  exists (py "```" ++ py "json" ++ k). split; [by rewrite H1, H3, <- !app_assoc|].
  repeat (apply Forall_app; split); [apply py_fence_plain|apply py_json_plain|done].
Qed.

Lemma strip_suffix_split p s x : strip_suffix p s = Some x -> s = x ++ p.
Proof.
  unfold strip_suffix. intros H.
  destruct (strip_prefix (rev p) (rev s)) as [r|] eqn:E; [|done].
  injection H as <-. apply strip_prefix_split in E.
  apply (f_equal (@rev N)) in E. by rewrite rev_app_distr, !rev_involutive in E.
Qed.

Lemma strip_close_fence_split t :
  exists x q q', t = x ++ q /\ strip_close_fence t = x ++ q'
                 /\ Forall plain q /\ Forall plain q'.
Proof.
  unfold strip_close_fence.
  destruct (strip_suffix (close_crlf ++ [LF]) t) as [x|] eqn:E1.
  { apply strip_suffix_split in E1. exists x, (close_crlf ++ [LF]), [LF].
    repeat split; [done|vm_compute; solve_plain|solve_plain]. }
  destruct (strip_suffix close_crlf t) as [x|] eqn:E2.
  { apply strip_suffix_split in E2. exists x, close_crlf, [].
    repeat split; [done|by rewrite app_nil_r|vm_compute; solve_plain|solve_plain]. }
  destruct (strip_suffix (close_lf ++ [LF]) t) as [x|] eqn:E3.
  { apply strip_suffix_split in E3. exists x, (close_lf ++ [LF]), [LF].
    repeat split; [done|vm_compute; solve_plain|solve_plain]. }
  destruct (strip_suffix close_lf t) as [x|] eqn:E4.
  { apply strip_suffix_split in E4. exists x, close_lf, [].
    repeat split; [done|by rewrite app_nil_r|vm_compute; solve_plain|solve_plain]. }
  exists t, [], []. rewrite app_nil_r. repeat split; solve_plain.
Qed.

Lemma rstrip_by_split p s :
  exists q, s = rstrip_by p s ++ q /\ Forall (fun c => p c = true) q.
Proof.
  unfold rstrip_by. destruct (lstrip_by_split p (rev s)) as (k & Hk & Hall).
  exists (rev k). split; [|by apply Forall_rev].
  rewrite <- rev_app_distr, <- Hk. by rewrite rev_involutive.
Qed.

Lemma spaces_plain k : Forall (fun c => is_space c = true) k -> Forall plain k.
Proof.
  intros H. eapply Forall_impl; [exact H|]. intros c. apply space_plain.
Qed.

Lemma assoc_core (lead : str) a (mid : str) b (trail : str) :
  lead ++ a :: mid ++ b :: trail = (lead ++ a :: mid) ++ b :: trail.
Proof. by rewrite <- app_assoc. Qed.

(** Cleaning leaves alone whatever lies between a first and a last
    character that are brackets or braces: it only shortens the text
    before and changes the text after, and brings no bracket or brace
    in. *)
Lemma clean_core (lead mid trail : str) (a b : N) :
  ~ plain a -> ~ plain b ->
  exists lead' trail',
    clean (lead ++ a :: mid ++ b :: trail) = lead' ++ a :: mid ++ b :: trail'
    /\ lead' `suffix_of` lead
    /\ (forall c, ~ plain c -> c ∈ trail' -> c ∈ trail).
Proof.
  intros Ha Hb. unfold clean, strip.
  (* leading white space *)
  destruct (lstrip_by_split is_space (lead ++ a :: mid ++ b :: trail))
    as (k1 & Hk1 & Hs1).
  apply spaces_plain in Hs1.
  destruct (cut_prefix _ _ _ _ _ Hk1 Hs1 Ha) as (lead1 & Hlead1 & ->).
  (* trailing white space *)
  destruct (rstrip_by_split is_space (lead1 ++ a :: mid ++ b :: trail))
    as (q1 & Hq1 & Hs2).
  apply spaces_plain in Hs2. rewrite assoc_core in Hq1 at 1.
  destruct (cut_suffix _ _ _ _ _ Hq1 Hs2 Hb) as (trail1 & Htrail1 & ->).
  rewrite <- assoc_core.
  (* opening fence *)
  destruct (strip_open_fence_split (lead1 ++ a :: mid ++ b :: trail1))
    as (k2 & Hk2 & Hs3).
  destruct (cut_prefix _ _ _ _ _ Hk2 Hs3 Ha) as (lead2 & Hlead2 & ->).
  (* closing fence *)
  destruct (strip_close_fence_split (lead2 ++ a :: mid ++ b :: trail1))
    as (x & q2 & q2' & Hx & -> & Hs4 & Hs5).
  rewrite assoc_core in Hx.
  destruct (cut_suffix _ _ _ _ _ Hx Hs4 Hb) as (trail2 & Htrail2 & ->).
  exists lead2, (trail2 ++ q2'). split; [|split].
  - rewrite <- !app_assoc. simpl. by rewrite <- ?app_assoc.
  - subst lead lead1. exists (k1 ++ k2). by rewrite <- app_assoc.
  - intros c Hc Hin. apply elem_of_app in Hin as [Hin|Hin].
    + subst trail trail1. rewrite !elem_of_app. auto.
    + exfalso. apply Hc. rewrite Forall_forall in Hs5. by apply Hs5.
Qed.

End Cleaning.

(** ** The text between the first and the last bracket *)

Section Snippet.

Lemma find_char_app (c : N) (lead rest : str) :
  c ∉ lead -> find_char c (lead ++ c :: rest) = Some (length lead).
Proof.
  induction lead as [|x lead IH]; intros Hc; simpl.
  - by rewrite N.eqb_refl.
  - apply not_elem_of_cons in Hc as [Hx Hc].
    destruct (x =? c)%N eqn:E; [apply N.eqb_eq in E; congruence|].
    by rewrite IH.
Qed.

Lemma rfind_char_none (c : N) (s : str) : c ∉ s -> rfind_char c s = None.
Proof.
  induction s as [|x s IH]; intros Hc; simpl; [done|].
  apply not_elem_of_cons in Hc as [Hx Hc]. rewrite IH by done.
  destruct (x =? c)%N eqn:E; [apply N.eqb_eq in E; congruence|done].
Qed.

Lemma rfind_char_app (c : N) (pre trail : str) :
  c ∉ trail -> rfind_char c (pre ++ c :: trail) = Some (length pre).
Proof.
  intros Hc. induction pre as [|x pre IH]; simpl.
  - by rewrite rfind_char_none, N.eqb_refl.
  - by rewrite IH.
Qed.

Lemma slice_core (lead : str) a (mid : str) b (trail : str) :
  slice (length lead) (S (length (lead ++ a :: mid))) (lead ++ a :: mid ++ b :: trail)
  = a :: mid ++ [b].
Proof.
  unfold slice. rewrite drop_app_length.
  replace (S (length (lead ++ a :: mid)) - length lead)%nat
    with (length (a :: mid ++ [b])).
  - change (a :: mid ++ b :: trail) with ((a :: mid) ++ [b] ++ trail).
    rewrite app_assoc. rewrite take_app_length. by rewrite <- app_comm_cons.
  - rewrite length_app. simpl. rewrite length_app. simpl. lia.
Qed.

Lemma slice_to_end (lead rest : str) :
  slice (length lead) (length (lead ++ rest)) (lead ++ rest) = rest.
Proof.
  unfold slice. rewrite drop_app_length, length_app.
  replace (length lead + length rest - length lead)%nat with (length rest) by lia.
  apply firstn_all.
Qed.

End Snippet.

(** ** The salvage loop *)

Section SalvageFacts.

Import Extract.

Lemma nonempty_snoc (b : str) (c : N) : nonempty (b ++ [c]) = true.
Proof. by destruct b. Qed.

(** Text without braces leaves the idle loop idle. *)
Lemma salvage_sep sep found :
  brace_free sep -> fold_left salvage_step sep (idle found) = idle found.
Proof.
  intros [Hl Hr]. induction sep as [|c sep IH]; simpl; [done|].
  apply not_elem_of_cons in Hl as [Hl1 Hl2].
  apply not_elem_of_cons in Hr as [Hr1 Hr2].
  unfold salvage_step at 2. simpl.
  destruct (c =? LBRACE)%N eqn:E1; [apply N.eqb_eq in E1; congruence|].
  destruct (c =? RBRACE)%N eqn:E2; [apply N.eqb_eq in E2; congruence|].
  by apply IH.
Qed.

(** Inside an object the loop collects characters until the brace that
    brings the depth back to zero, and then parses what it collected. *)
Lemma salvage_inside r : forall d b found,
  closes_at_end (S d) r = true ->
  fold_left salvage_step r
    {| objs := found; buf := b; depth := Z.of_nat (S d); started := true |}
  = idle (match loads (b ++ r) with
          | Some (JObj kvs) => found ++ [JObj kvs]
          | _ => found
          end).
Proof.
  induction r as [|c r IH]; intros d b found H; simpl in H; [done|].
  simpl. unfold salvage_step at 2. simpl buf. simpl depth. simpl started.
  simpl objs.
  destruct (c =? LBRACE)%N eqn:E1.
  - apply N.eqb_eq in E1 as ->. simpl.
    replace (Z.of_nat (S d) + 1) with (Z.of_nat (S (S d))) by lia.
    rewrite IH by done. by rewrite <- app_assoc.
  - destruct (c =? RBRACE)%N eqn:E2.
    + destruct d as [|d]; simpl in H.
      * destruct r; [|done]. simpl.
        by rewrite nonempty_snoc.
      * replace (Z.max 0 (Z.of_nat (S (S d)) - 1)) with (Z.of_nat (S d)) by lia.
        replace (Z.of_nat (S d) =? 0) with false by (symmetry; apply Z.eqb_neq; lia).
        simpl. rewrite IH by done. by rewrite <- app_assoc.
    + rewrite IH by done. by rewrite <- app_assoc.
Qed.

Lemma salvage_object o kvs found :
  object_text o = true -> loads o = Some (JObj kvs) ->
  fold_left salvage_step o (idle found) = idle (found ++ [JObj kvs]).
Proof.
  intros Ho Hl. destruct o as [|c r]; [done|]. simpl in Ho.
  apply andb_prop in Ho as [Hc Hr]. apply N.eqb_eq in Hc as ->.
  simpl. unfold salvage_step at 2. simpl.
  change (0 + 1) with (Z.of_nat 1). rewrite (salvage_inside r 0 [LBRACE] found Hr).
  simpl. by rewrite Hl.
Qed.

Lemma salvage_run parts found :
  salvageable parts ->
  fold_left salvage_step (object_run parts) (idle found)
  = idle (found ++ parsed_objects parts).
Proof.
  intros Hall. revert found.
  induction Hall as [|[sep o] parts (Hsep & Ho & [kvs Hk]) _ IH]; intros found;
    simpl.
  - by rewrite app_nil_r.
  - rewrite !fold_left_app, salvage_sep by done.
    simpl in *. unfold loads_dict in Hk.
    destruct (loads o) as [[]|] eqn:Hl; simplify_eq.
    rewrite (salvage_object o kvs found Ho Hl), IH.
    unfold loads_dict. rewrite Hl. simpl. by rewrite <- app_assoc.
Qed.

Lemma salvage_step_prefix st c : objs st `prefix_of` objs (salvage_step st c).
Proof.
  unfold salvage_step. repeat case_match; simpl; try done.
  all: by exists [JObj kvs].
Qed.

Lemma salvage_fold_prefix s st :
  objs st `prefix_of` objs (fold_left salvage_step s st).
Proof.
  revert st. induction s as [|c s IH]; intros st; simpl; [done|].
  etrans; [apply salvage_step_prefix|apply IH].
Qed.

(** A run of objects after an opening bracket is found again at the
    head of what the loop salvages, whatever follows the run. *)
Lemma salvage_recovers parts tail :
  salvageable parts ->
  parsed_objects parts `prefix_of` salvage (LBRACKET :: object_run parts ++ tail).
Proof.
  intros Hall. unfold salvage. simpl.
  change (salvage_step salvage_init LBRACKET) with (idle []).
  rewrite fold_left_app, salvage_run by done. simpl.
  apply salvage_fold_prefix.
Qed.

Lemma closes_at_end_last d r :
  closes_at_end (S d) r = true -> exists init, r = init ++ [RBRACE].
Proof.
  revert d. induction r as [|c r IH]; intros d H; simpl in H; [done|].
  destruct (c =? LBRACE)%N eqn:E1.
  - destruct (IH _ H) as [init ->]. by exists (c :: init).
  - destruct (c =? RBRACE)%N eqn:E2.
    + destruct d as [|d]; simpl in H.
      * destruct r; [|done]. apply N.eqb_eq in E2 as ->. by exists [].
      * destruct (IH _ H) as [init ->]. by exists (c :: init).
    + destruct (IH _ H) as [init ->]. by exists (c :: init).
Qed.

Lemma object_text_last o :
  object_text o = true -> exists init, o = LBRACE :: init ++ [RBRACE].
Proof.
  destruct o as [|c r]; [done|]. simpl. intros [Hc Hr]%andb_prop.
  apply N.eqb_eq in Hc as ->. apply closes_at_end_last in Hr as [init ->].
  by exists init.
Qed.

End SalvageFacts.

(** ** The JSON-array extractor (claim C4) *)

Section ExtractFacts.

Import Extract.

Lemma bracket_not_plain : ~ plain LBRACKET.
Proof. intros (H & _). by apply H. Qed.

Lemma close_bracket_not_plain : ~ plain RBRACKET.
Proof. intros (_ & H & _). by apply H. Qed.

Lemma close_brace_not_plain : ~ plain RBRACE.
Proof. intros (_ & _ & _ & H). by apply H. Qed.

Lemma nonempty_middle (lead rest : str) (c : N) : nonempty (lead ++ c :: rest) = true.
Proof. by destruct lead. Qed.

(** The elements of an array are read into a list. *)
Lemma parse_elems_list fuel : forall s acc v r,
  parse_elems fuel s acc = Some (v, r) -> exists xs, v = JArr xs.
Proof.
  induction fuel as [|f IH]; intros s acc v r H; [done|].
  cbn [parse_elems] in H.
  destruct (parse_value f s) as [[v0 r0]|]; [|done].
  destruct (eat RBRACKET (skip_ws r0)) as [r1|].
  { injection H as <- _. by eexists. }
  destruct (eat COMMA (skip_ws r0)) as [r1|]; [|done].
  by apply IH in H.
Qed.

(** Text that opens with a bracket is a list when it is JSON at all. *)
Lemma loads_bracket_list (r : str) v :
  loads (LBRACKET :: r) = Some v -> exists xs, v = JArr xs.
Proof.
  unfold loads.
  replace (2 * length (LBRACKET :: r) + 2)%nat
    with (S (2 * length (LBRACKET :: r) + 1)) by lia.
  change (skip_ws (LBRACKET :: r)) with (LBRACKET :: r).
  destruct (parse_value _ _) as [[v' r']|] eqn:Hp; [|done].
  intros Hv. assert (v' = v) as -> by (destruct (skip_ws r'); congruence).
  clear Hv. cbn [parse_value] in Hp.
  change (LBRACKET =? QUOTE)%N with false in Hp.
  change (LBRACKET =? LBRACE)%N with false in Hp.
  change (LBRACKET =? LBRACKET)%N with true in Hp. cbv iota in Hp.
  destruct (eat RBRACKET (skip_ws r)) as [r1|].
  - injection Hp as <- _. by eexists.
  - by apply parse_elems_list in Hp.
Qed.

(** What the extractor does with a text that holds a closing bracket
    after its first opening bracket: the text from the first opening to
    the last closing bracket is read as JSON, and searched for objects
    when it is none. *)
Lemma extract_cut lead mid trail :
  LBRACKET ∉ lead -> RBRACKET ∉ trail ->
  let text := lead ++ LBRACKET :: mid ++ RBRACKET :: trail in
  let snippet := LBRACKET :: mid ++ [RBRACKET] in
  _extract_json_array text
  = match loads snippet with
    | Some (JArr l) => Some l
    | Some _ => loads_list (clean text)
    | None =>
        match salvage snippet with
        | [] => loads_list (clean text)
        | found => Some found
        end
    end.
Proof.
  intros Hlead Htrail text snippet. subst text snippet.
  unfold _extract_json_array.
  rewrite nonempty_middle. simpl negb. cbv iota.
  destruct (clean_core lead mid trail LBRACKET RBRACKET
              bracket_not_plain close_bracket_not_plain)
    as (lead' & trail' & -> & Hsuf & Hin).
  assert (Hlead' : LBRACKET ∉ lead').
  { intros H. apply Hlead. by eapply elem_of_suffix. }
  assert (Htrail' : RBRACKET ∉ trail').
  { intros H. apply Htrail. by apply Hin; [apply close_bracket_not_plain|]. }
  rewrite find_char_app by done.
  rewrite assoc_core, rfind_char_app by done.
  rewrite <- assoc_core, slice_core. reflexivity.
Qed.

(** A fenced array between prose without brackets is cut out exactly. *)
Lemma extract_fenced_array lead mid trail xs :
  loads (LBRACKET :: mid ++ [RBRACKET]) = Some (JArr xs) ->
  LBRACKET ∉ lead -> RBRACKET ∉ trail ->
  _extract_json_array (lead ++ (LBRACKET :: mid ++ [RBRACKET]) ++ trail) = Some xs.
Proof.
  intros Hl Hlead Htrail.
  replace (lead ++ (LBRACKET :: mid ++ [RBRACKET]) ++ trail)
    with (lead ++ LBRACKET :: mid ++ RBRACKET :: trail)
    by (simpl; by rewrite <- app_assoc).
  rewrite (extract_cut lead mid trail Hlead Htrail). by rewrite Hl.
Qed.

(** Text without a closing brace adds no object to what the loop has
    found. *)
Lemma salvage_no_close (s : str) : forall st,
  RBRACE ∉ s -> objs (fold_left salvage_step s st) = objs st.
Proof.
  induction s as [|c s IH]; intros st Hno; [reflexivity|].
  apply not_elem_of_cons in Hno as [Hc Hs]. cbn [fold_left].
  rewrite IH by exact Hs. unfold salvage_step.
  destruct (c =? RBRACE)%N eqn:E; [apply N.eqb_eq in E; congruence|reflexivity].
Qed.

(** A run of objects followed by text without a closing brace is
    salvaged as it is. *)
Lemma salvage_exact parts tail :
  salvageable parts -> RBRACE ∉ tail ->
  salvage (LBRACKET :: object_run parts ++ tail) = parsed_objects parts.
Proof.
  intros Hall Hno. unfold salvage. simpl.
  change (salvage_step salvage_init LBRACKET) with (idle []).
  rewrite fold_left_app, salvage_run by done.
  by rewrite salvage_no_close.
Qed.

Lemma salvage_found parts tail :
  parts <> [] -> salvageable parts ->
  exists o found, salvage (LBRACKET :: object_run parts ++ tail) = o :: found.
Proof.
  intros Hne Hall. pose proof (salvage_recovers parts tail Hall) as [k Hk].
  rewrite Hk. destruct parts as [|p parts]; [done|]. by eexists _, _.
Qed.

Lemma object_run_last parts :
  parts <> [] -> salvageable parts ->
  exists mid, object_run parts = mid ++ [RBRACE].
Proof.
  intros Hne Hall. induction Hall as [|[sep o] rest (_ & Ho & _) Hrest IH]; [done|].
  simpl. destruct rest as [|p rest].
  - simpl in Ho. apply object_text_last in Ho as [init ->]. simpl.
    rewrite app_nil_r. exists (sep ++ LBRACE :: init). by rewrite <- app_assoc.
  - destruct IH as [mid Hmid]; [done|]. rewrite Hmid.
    exists (sep ++ o ++ mid). by rewrite <- !app_assoc.
Qed.

(** A truncated array without any closing bracket gives back the
    objects that are complete. *)
Lemma extract_truncated_array lead parts tail :
  parts <> [] -> salvageable parts ->
  LBRACKET ∉ lead ->
  RBRACKET ∉ lead ++ object_run parts ++ tail ->
  exists found,
    _extract_json_array (lead ++ LBRACKET :: object_run parts ++ tail) = Some found
    /\ parsed_objects parts `prefix_of` found
    /\ (RBRACE ∉ tail -> found = parsed_objects parts).
Proof.
  intros Hne Hall Hlead Hno. unfold _extract_json_array.
  rewrite nonempty_middle. simpl negb. cbv iota.
  destruct (object_run_last parts Hne Hall) as [mid Hmid].
  rewrite Hmid in Hno |- *. rewrite <- app_assoc. simpl.
  destruct (clean_core lead mid tail LBRACKET RBRACE
              bracket_not_plain close_brace_not_plain)
    as (lead' & tail' & -> & Hsuf & Hin).
  assert (Hlead' : LBRACKET ∉ lead').
  { intros H. apply Hlead. by eapply elem_of_suffix. }
  assert (Hno' : RBRACKET ∉ lead' ++ LBRACKET :: mid ++ RBRACE :: tail').
  { intros H. apply Hno. clear Hno.
    rewrite !elem_of_app. rewrite elem_of_app, elem_of_cons, elem_of_app,
      elem_of_cons in H.
    destruct H as [H|[H|[H|[H|H]]]]; try discriminate H.
    - left. by eapply elem_of_suffix.
    - right. left. by left.
    - right. right. by apply Hin; [apply close_bracket_not_plain|]. }
  rewrite find_char_app by done.
  rewrite rfind_char_none by done.
  rewrite slice_to_end.
  assert (Hrest : RBRACKET ∉ mid ++ RBRACE :: tail').
  { intros H. apply Hno'. apply elem_of_app. right. by apply elem_of_cons; right. }
  rewrite loads_unclosed_array by done.
  pose proof (salvage_recovers parts tail' Hall) as Hpre.
  pose proof (salvage_found parts tail' Hne Hall) as (o & found & Hs).
  pose proof (salvage_exact parts tail' Hall) as Hex.
  rewrite Hmid, <- app_assoc in Hpre, Hs, Hex. simpl in Hpre, Hs, Hex.
  rewrite Hs. eexists. split; [reflexivity|]. rewrite <- Hs.
  split; [exact Hpre|]. intros Htail. apply Hex.
  intros H. apply Htail. by apply Hin; [apply close_brace_not_plain|].
Qed.

(** An array cut after a closing bracket, or objects in prose that
    holds brackets: the objects that end before the last closing bracket
    are given back, unless the text up to that bracket is JSON itself
    and is returned as the list it is. *)
Lemma extract_bracketed_run lead parts tail1 tail2 :
  parts <> [] -> salvageable parts ->
  LBRACKET ∉ lead -> RBRACKET ∉ tail2 ->
  exists found,
    _extract_json_array
      (lead ++ LBRACKET :: (object_run parts ++ tail1) ++ RBRACKET :: tail2)
    = Some found
    /\ match loads (LBRACKET :: (object_run parts ++ tail1) ++ [RBRACKET]) with
       | Some v => v = JArr found
       | None =>
           parsed_objects parts `prefix_of` found
           /\ (RBRACE ∉ tail1 -> found = parsed_objects parts)
       end.
Proof.
  intros Hne Hall Hlead Htail.
  rewrite (extract_cut lead (object_run parts ++ tail1) tail2 Hlead Htail).
  destruct (loads (LBRACKET :: (object_run parts ++ tail1) ++ [RBRACKET]))
    as [v|] eqn:Hl.
  - destruct (loads_bracket_list _ _ Hl) as [xs ->]. by exists xs.
  - rewrite <- app_assoc.
    pose proof (salvage_recovers parts (tail1 ++ [RBRACKET]) Hall) as Hpre.
    pose proof (salvage_found parts (tail1 ++ [RBRACKET]) Hne Hall)
      as (o & found & Hs).
    rewrite Hs. eexists. split; [reflexivity|]. rewrite <- Hs.
    split; [exact Hpre|]. intros Hno. apply salvage_exact; [exact Hall|].
    intros H. apply elem_of_app in H as [H|H]; [by apply Hno|].
    apply list_elem_of_singleton in H. discriminate H.
Qed.

(** C4 as the claim has it fails.  A valid array in a fence is lost
    when the prose before it holds a bracket and the array holds no
    object.  A complete object of a truncated array is lost when the
    last closing bracket of the text lies inside it, here the one of a
    nested list; when a string of it holds a brace; and when the only
    closing bracket of the text stands before the first opening one. *)
Lemma extract_json_array_loses_bracketed_text :
  (loads (py "[1, 2]") = Some (JArr [JInt 1; JInt 2])
   /\ _extract_json_array
        (py "See [1] below:" ++ [LF] ++ fence_open ++ py "[1, 2]" ++ fence_close)
      = None)
  /\ (object_text (pyq "{'title': 'a', 'tags': ['x']}") = true
      /\ is_Some (loads_dict (pyq "{'title': 'a', 'tags': ['x']}"))
      /\ _extract_json_array (pyq "[{'title': 'a', 'tags': ['x']}, {'title': 'b")
         = None)
  /\ (is_Some (loads_dict (pyq "{'title': 'a}b'}"))
      /\ _extract_json_array (pyq "[{'title': 'a}b'}, {'title': 'c") = None)
  /\ (is_Some (loads_dict (pyq "{'title': 'a'}"))
      /\ _extract_json_array (pyq "(see 1] [{'title': 'a'}, {'title': 'b") = None).
Proof.
  split; [split; vm_compute; reflexivity|].
  split; [split; [vm_compute; reflexivity|];
          split; [vm_compute; eexists; reflexivity|vm_compute; reflexivity]|].
  split; (split; [vm_compute; eexists; reflexivity|vm_compute; reflexivity]).
Qed.

(** C4, amended.  The extractor reads the text from its first opening
    square bracket to its last closing one (to its end when no closing
    bracket follows), after the fence lines are cut off.
    (1) When the model output is a valid JSON array, opening with its
    bracket and ending with its bracket, between a text before it (prose
    and the opening fence line) that holds no opening bracket and a text
    after it (the closing fence line and prose) that holds no closing
    bracket, the extractor returns exactly that array.
    (2) When the first opening bracket of the output is followed by one
    or more complete objects, each closed by its last brace (braces
    counted without regard to strings), each valid JSON, with only
    brace-free text before each of them, and a closing bracket follows
    somewhere after the last of them, then the extractor returns a list:
    the text up to the last closing bracket as JSON reads it, when it is
    valid JSON; otherwise a list that begins with these objects in
    order, and that is exactly these objects when no closing brace
    stands between the last of them and the last closing bracket.  This
    holds whatever stands before the first opening bracket, as long as
    it is no opening bracket, so also for prose that holds closing
    brackets.
    (3) When the output holds no closing bracket at all, its first
    opening bracket followed by such objects, the extractor returns a
    list that begins with these objects in order, whatever follows the
    last of them, and that is exactly these objects when no closing
    brace follows them. *)
Theorem extract_json_array_recovers :
  (forall lead mid trail xs,
      loads (LBRACKET :: mid ++ [RBRACKET]) = Some (JArr xs) ->
      LBRACKET ∉ lead -> RBRACKET ∉ trail ->
      _extract_json_array (lead ++ (LBRACKET :: mid ++ [RBRACKET]) ++ trail)
      = Some xs)
  /\ (forall lead parts tail1 tail2,
        parts <> [] -> salvageable parts ->
        LBRACKET ∉ lead -> RBRACKET ∉ tail2 ->
        exists found,
          _extract_json_array
            (lead ++ LBRACKET :: (object_run parts ++ tail1) ++ RBRACKET :: tail2)
          = Some found
          /\ match loads (LBRACKET :: (object_run parts ++ tail1) ++ [RBRACKET]) with
             | Some v => v = JArr found
             | None =>
                 parsed_objects parts `prefix_of` found
                 /\ (RBRACE ∉ tail1 -> found = parsed_objects parts)
             end)
  /\ (forall lead parts tail,
        parts <> [] -> salvageable parts ->
        LBRACKET ∉ lead ->
        RBRACKET ∉ lead ++ object_run parts ++ tail ->
        exists found,
          _extract_json_array (lead ++ LBRACKET :: object_run parts ++ tail)
          = Some found
          /\ parsed_objects parts `prefix_of` found
          /\ (RBRACE ∉ tail -> found = parsed_objects parts)).
Proof.
  split; [|split].
  - apply extract_fenced_array.
  - apply extract_bracketed_run.
  - apply extract_truncated_array.
Qed.

Ltac absent :=
  match goal with
  | |- ?x ∉ ?l => apply (bool_decide_eq_false_1 (x ∈ l)); vm_compute; reflexivity
  end.

Ltac run_ok :=
  repeat constructor;
    try absent;
    try (vm_compute; reflexivity);
    vm_compute; eexists; reflexivity.

Ltac no_json H :=
  match type of H with
  | match ?l with _ => _ end =>
      let E := fresh in
      assert (E : l = None) by (vm_compute; reflexivity); rewrite E in H; clear E
  end.

Lemma extract_json_array_recovers_witness :
  let lead := py "Here you go:" ++ [LF] ++ fence_open in
  let mid := pyq "{'url': 'u'}" in
  let trail := fence_close ++ [LF] ++ py "Hope this helps." in
  let parts := [([], pyq "{'url': 'u'}"); (py ", ", pyq "{'url': 'v'}")] in
  _extract_json_array (lead ++ (LBRACKET :: mid ++ [RBRACKET]) ++ trail)
  = Some [JObj [(py "url", JStr (py "u"))]]
  /\ _extract_json_array (pyq "See [1] below: [{'a': 1}]")
     = Some [JObj [(py "a", JInt 1)]]
  /\ _extract_json_array (pyq "[{'t': ['x']}, {'b': ['y'], 'c")
     = Some [JObj [(py "t", JArr [JStr (py "x")])]]
  /\ _extract_json_array (pyq "[{'url': 'u'}, {'url': 'v'}, {'url': ")
     = Some [JObj [(py "url", JStr (py "u"))]; JObj [(py "url", JStr (py "v"))]].
Proof.
  intros lead mid trail parts.
  destruct extract_json_array_recovers as (Hfenced & Hbracketed & Htruncated).
  split; [|split; [|split]].
  - apply Hfenced.
    + vm_compute. reflexivity.
    + absent.
    + absent.
  - destruct (Hbracketed (py "See ") [(py "1] below: [", pyq "{'a': 1}")] [] [])
      as (found & Hfound & Hwhat).
    + discriminate.
    + run_ok.
    + absent.
    + absent.
    + no_json Hwhat. destruct Hwhat as [_ Hexact].
      rewrite (Hexact ltac:(absent)) in Hfound.
      etrans; [|exact Hfound]. vm_compute. reflexivity.
  - destruct (Hbracketed [] [([], pyq "{'t': ['x']}")] (pyq ", {'b': ['y'")
                (pyq ", 'c"))
      as (found & Hfound & Hwhat).
    + discriminate.
    + run_ok.
    + absent.
    + absent.
    + no_json Hwhat. destruct Hwhat as [_ Hexact].
      rewrite (Hexact ltac:(absent)) in Hfound.
      etrans; [|exact Hfound]. vm_compute. reflexivity.
  - destruct (Htruncated [] parts (pyq ", {'url': "))
      as (found & Hfound & _ & Hexact).
    + discriminate.
    + run_ok.
    + absent.
    + absent.
    + rewrite (Hexact ltac:(absent)) in Hfound.
      etrans; [|exact Hfound]. vm_compute. reflexivity.
Defined.

End ExtractFacts.

(** ** The fallback report on items whose fields are strings *)

Section ReportFacts.

Import Report.

Lemma strip_prefix_app (p b : str) : strip_prefix p (p ++ b) = Some b.
Proof. induction p as [|a p IH]; simpl; [done|]. by rewrite N.eqb_refl. Qed.

Lemma startswith_app (p b : str) : startswith p (p ++ b) = true.
Proof. unfold startswith. by rewrite strip_prefix_app. Qed.

Lemma contains_nil (s : str) : contains [] s = true.
Proof. by destruct s. Qed.

Lemma contains_app_r (p a s : str) : contains p s = true -> contains p (a ++ s) = true.
Proof.
  intros H. induction a as [|c a IH]; simpl; [done|].
  rewrite IH. apply orb_true_r.
Qed.

Lemma contains_middle (p a b : str) : contains p (a ++ p ++ b) = true.
Proof.
  apply contains_app_r. destruct (p ++ b) eqn:E; simpl.
  - destruct p; [done|discriminate E].
  - rewrite <- E, startswith_app. reflexivity.
Qed.

(** The report opens with its title line: a line break follows the
    heading, whatever the items are. *)
Lemma fallback_markdown_head topic items :
  exists rest,
    build_fallback_markdown topic items
    = py "# " ++ str_or topic (py "报告") ++ [LF] ++ rest.
Proof.
  unfold build_fallback_markdown. cbn [app join].
  eexists. rewrite <- !app_assoc. reflexivity.
Qed.

(** On items whose fields are strings the fallback builder is total; its
    text is not empty, it opens with the heading line of the topic, taken
    as [报告] when the topic is empty, and so it contains the topic. *)
Lemma fallback_markdown_nonempty_with_topic (topic : str) (items : list Item) :
  let md := build_fallback_markdown topic items in
  nonempty md = true
  /\ startswith (py "# " ++ str_or topic (py "报告")) md = true
  /\ contains (str_or topic (py "报告")) md = true
  /\ contains topic md = true.
Proof.
  intros md. subst md.
  destruct (fallback_markdown_head topic items) as [rest ->].
  split; [reflexivity|]. split; [|split].
  - rewrite app_assoc. apply startswith_app.
  - apply contains_middle.
  - destruct topic as [|c topic]; [apply contains_nil|].
    apply contains_middle.
Qed.

End ReportFacts.

(** ** Retrying (claim C8) *)

Section RetryFacts.

(** The LLM client retries after every kind of failure. *)
Lemma complete_retries_every_failure (post : nat -> Doubao.PostOutcome) :
  exists n, (n <= 3)%nat
    /\ (forall a, (a < n)%nat -> Doubao.answered (post a) = false)
    /\ (Doubao.complete true post).2
       = Doubao.failed_rounds n ++ (if (n <? 3)%nat then [Doubao.EvPost n] else [])
    /\ (if (n <? 3)%nat
        then exists body, post n = Doubao.Answered body
                          /\ (Doubao.complete true post).1 = Doubao.Returned body
        else (Doubao.complete true post).1 = Doubao.Raised (Doubao.exc_of (post 2%nat))).
Proof.
  unfold Doubao.complete. simpl.
  assert (Hlt : forall (n : nat) (P : nat -> Prop),
             (forall a, (a < n)%nat -> (a < 3)%nat -> P a) ->
             (n <= 3)%nat -> forall a, (a < n)%nat -> P a).
  { intros n P H Hn a Ha. apply H; lia. }
  destruct (post 0%nat) as [b0| | | |] eqn:H0.
  { exists 0%nat. simpl. split; [lia|]. split; [intros; lia|].
    split; [reflexivity|]. by exists b0. }
  all: destruct (post 1%nat) as [b1| | | |] eqn:H1.
  all: try (exists 1%nat; simpl; split; [lia|]; split;
            [intros [|a] Ha; [by rewrite H0|lia]|];
            split; [reflexivity|]; by exists b1).
  all: destruct (post 2%nat) as [b2| | | |] eqn:H2.
  all: try (exists 2%nat; simpl; split; [lia|]; split;
            [intros [|[|a]] Ha; [by rewrite H0|by rewrite H1|lia]|];
            split; [reflexivity|]; by exists b2).
  all: exists 3%nat; simpl; split; [lia|]; split;
    [intros [|[|[|a]]] Ha; [by rewrite H0|by rewrite H1|by rewrite H2|lia]|];
    split; reflexivity.
Qed.

(** The page fetch retries after a transport error only. *)
Lemma fetch_retries_transport_errors_only (net : Fetch.Net) (url : option str) :
  Fetch.client_ok net = true ->
  exists n, (n <= 3)%nat
    /\ (forall a, (a < n)%nat -> Fetch.get_outcome net url a = Fetch.TransportError)
    /\ (Fetch.SearchService_fetch_readable net url).2
       = Fetch.failed_rounds url n ++ (if (n <? 3)%nat then [Fetch.EvGet url n] else [])
    /\ (if (n <? 3)%nat
        then Fetch.get_outcome net url n <> Fetch.TransportError
             /\ (Fetch.SearchService_fetch_readable net url).1
                = match Fetch.get_outcome net url n with
                  | Fetch.GotHtml _ title text => (title, text)
                  | _ => ([], [])
                  end
        else (Fetch.SearchService_fetch_readable net url).1 = ([], [])).
Proof.
  intros Hok. unfold Fetch.SearchService_fetch_readable. rewrite Hok. simpl.
  destruct (Fetch.get_outcome net url 0) eqn:H0.
  all: try (exists 0%nat; simpl; rewrite H0; split; [lia|]; split; [intros; lia|];
            split; [reflexivity|]; split; [discriminate|reflexivity]).
  destruct (Fetch.get_outcome net url 1) eqn:H1.
  all: try (exists 1%nat; simpl; rewrite H1; split; [lia|]; split;
            [intros [|a] Ha; [done|lia]|];
            split; [reflexivity|]; split; [discriminate|reflexivity]).
  destruct (Fetch.get_outcome net url 2) eqn:H2.
  all: try (exists 2%nat; simpl; rewrite H2; split; [lia|]; split;
            [intros [|[|a]] Ha; [done|done|lia]|];
            split; [reflexivity|]; split; [discriminate|reflexivity]).
  exists 3%nat; simpl. split; [lia|]. split;
    [intros [|[|[|a]]] Ha; [done|done|done|lia]|].
  split; reflexivity.
Qed.

(** C8 as the claim has it fails for the LLM client: against an endpoint
    that answers 500 every time it posts three times, sleeping 1, 2 and 4
    seconds, and then raises the status error instead of returning the
    response. *)
Lemma complete_retries_http_status_errors :
  Doubao.complete true Doubao.always_500
  = (Doubao.Raised (Doubao.HTTPStatusError 500),
     [Doubao.EvPost 0; Doubao.EvSleep 1; Doubao.EvPost 1; Doubao.EvSleep 2;
      Doubao.EvPost 2; Doubao.EvSleep 4]).
Proof. reflexivity. Qed.

(** C8, amended.  The LLM client makes at most three attempts and retries
    after every failure, an HTTP error status included: it stops at the
    first answer and returns it, sleeps [1 * 2^attempt] seconds after each
    failed attempt, and after three failures raises the exception of the
    third.  The page fetch makes at most three attempts and retries, with
    the same sleeps, after transport errors only: the first attempt that
    is not a transport error ends it, so a response is never followed by
    another request, whatever its status; after three transport errors it
    returns the empty pair. *)
Theorem retry_policy :
  (forall post : nat -> Doubao.PostOutcome,
      exists n, (n <= 3)%nat
        /\ (forall a, (a < n)%nat -> Doubao.answered (post a) = false)
        /\ (Doubao.complete true post).2
           = Doubao.failed_rounds n
             ++ (if (n <? 3)%nat then [Doubao.EvPost n] else [])
        /\ (if (n <? 3)%nat
            then exists body, post n = Doubao.Answered body
                              /\ (Doubao.complete true post).1 = Doubao.Returned body
            else (Doubao.complete true post).1
                 = Doubao.Raised (Doubao.exc_of (post 2%nat))))
  /\ (forall (net : Fetch.Net) (url : option str),
        Fetch.client_ok net = true ->
        exists n, (n <= 3)%nat
          /\ (forall a, (a < n)%nat ->
                Fetch.get_outcome net url a = Fetch.TransportError)
          /\ (Fetch.SearchService_fetch_readable net url).2
             = Fetch.failed_rounds url n
               ++ (if (n <? 3)%nat then [Fetch.EvGet url n] else [])
          /\ (if (n <? 3)%nat
              then Fetch.get_outcome net url n <> Fetch.TransportError
                   /\ (Fetch.SearchService_fetch_readable net url).1
                      = match Fetch.get_outcome net url n with
                        | Fetch.GotHtml _ title text => (title, text)
                        | _ => ([], [])
                        end
              else (Fetch.SearchService_fetch_readable net url).1 = ([], []))).
Proof.
  split.
  - apply complete_retries_every_failure.
  - apply fetch_retries_transport_errors_only.
Qed.

(** A page that answers 503 with an HTML body is fetched once and its
    text is returned. *)
Lemma retry_policy_witness :
  Fetch.SearchService_fetch_readable Fetch.unavailable_net (Some (py "https://example.com/"))
  = ((py "Service Unavailable", py "try later"),
     [Fetch.EvGet (Some (py "https://example.com/")) 0]).
Proof.
  destruct (proj2 retry_policy Fetch.unavailable_net (Some (py "https://example.com/")))
    as (n & Hn & Hfail & Htr & Hres); [reflexivity|].
  destruct n as [|n].
  - destruct Hres as [_ Hres].
    apply injective_projections; [exact Hres|exact Htr].
  - specialize (Hfail 0%nat ltac:(lia)). discriminate Hfail.
Defined.

End RetryFacts.

(** ** The fallback between providers (claim C1) *)

Section FallbackFacts.

Import App.

Variable urlparse_netloc : str -> option str.

(** A secondary provider is configured for the providers [llm], [mcp] and
    [crawler] only. *)
Lemma make_services_fallback cfg ss0 fb :
  make_services urlparse_netloc cfg = Some (ss0, Some fb) ->
  lower (search_provider cfg) = py "llm"
  \/ lower (search_provider cfg) = py "mcp"
  \/ lower (search_provider cfg) = py "crawler".
Proof.
  unfold make_services. intros H.
  destruct (decide (lower (search_provider cfg) = py "llm")); [by left|].
  destruct (decide (lower (search_provider cfg) = py "mcp")); [by right; left|].
  destruct (decide (lower (search_provider cfg) = py "mock")).
  { destruct (ranked _ _ _ _ _); simpl in H; discriminate H. }
  destruct (decide (lower (search_provider cfg) = py "crawler")); [by right; right|].
  destruct (ranked _ _ _ _ _); simpl in H; discriminate H.
Qed.

Lemma fallback_if_other W topic provider name fb st :
  provider <> name -> fallback_if W topic provider name (Some fb) st = st.
Proof.
  intros Hne. unfold fallback_if. destruct st as [items ss tr|ss tr]; [|reflexivity].
  by rewrite bool_decide_eq_false_2.
Qed.

Lemma fallback_if_same W topic name fb items ss tr :
  fallback_if W topic name name (Some fb) (Found items ss tr)
  = if (length items =? 0)%nat then
      match search_outcome W fb topic with
      | Some items' => Found items' fb (tr ++ [Searched fb])
      | None => Failed ss (tr ++ [Searched fb])
      end
    else Found items ss tr.
Proof. unfold fallback_if. by rewrite bool_decide_eq_true_2. Qed.

Lemma provider_names_distinct :
  py "llm" <> py "mcp" /\ py "llm" <> py "crawler" /\ py "mcp" <> py "crawler".
Proof. repeat split; intros H; vm_compute in H; discriminate H. Qed.

(** With one of these three names, the three tests come to one. *)
Lemma fallback_tests_once W topic provider fb st :
  provider = py "llm" \/ provider = py "mcp" \/ provider = py "crawler" ->
  fallback_if W topic provider (py "llm") (Some fb)
    (fallback_if W topic provider (py "mcp") (Some fb)
       (fallback_if W topic provider (py "crawler") (Some fb) st))
  = match st with
    | Failed _ _ => st
    | Found items ss tr =>
        if (length items =? 0)%nat then
          match search_outcome W fb topic with
          | Some items' => Found items' fb (tr ++ [Searched fb])
          | None => Failed ss (tr ++ [Searched fb])
          end
        else st
    end.
Proof.
  destruct provider_names_distinct as (H1 & H2 & H3).
  intros Hp. destruct st as [items ss tr|ss tr]; [|reflexivity].
  destruct Hp as [-> | [-> | ->]].
  - rewrite (fallback_if_other _ _ _ (py "crawler")) by done.
    rewrite (fallback_if_other _ _ _ (py "mcp")) by done.
    apply fallback_if_same.
  - rewrite (fallback_if_other _ _ _ (py "crawler")) by done.
    rewrite fallback_if_same.
    apply fallback_if_other. congruence.
  - rewrite fallback_if_same.
    rewrite !fallback_if_other by congruence. reflexivity.
Qed.

Lemma search_phase_with_fallback W topic cfg ss0 fb :
  make_services urlparse_netloc cfg = Some (ss0, Some fb) ->
  search_phase W topic (lower (search_provider cfg)) ss0 (Some fb)
  = match search_outcome W ss0 topic with
    | None => ([], ss0, [Searched ss0; SearchFailed])
    | Some [] =>
        match search_outcome W fb topic with
        | Some items' => (items', fb, [Searched ss0; Searched fb])
        | None => ([], ss0, [Searched ss0; Searched fb; SearchFailed])
        end
    | Some items => (items, ss0, [Searched ss0])
    end.
Proof.
  intros Hm. apply make_services_fallback in Hm.
  unfold search_phase. rewrite fallback_tests_once by done.
  destruct (search_outcome W ss0 topic) as [[|it items]|]; simpl; try reflexivity.
  destruct (search_outcome W fb topic); reflexivity.
Qed.

(** After the search, the handler gathers through the active provider. *)
Lemma analyze_gathers_through cfg W env topic ss0 fb items ss tr1 :
  nonempty topic = true ->
  make_services urlparse_netloc cfg = Some (ss0, fb) ->
  search_phase W topic (lower (search_provider cfg)) ss0 fb = (items, ss, tr1) ->
  exists tr, (analyze urlparse_netloc W cfg env (Some topic)).2
             = tr1 ++ [Gathered ss] ++ tr.
Proof.
  intros Ht Hm Hs. unfold analyze. simpl. rewrite Ht, Hm. simpl. rewrite Hs.
  destruct (gather W ss items) as [items_readable|]; simpl.
  - unfold finish.
    destruct (synthesize _ _ _ _) as [[c|] tr3]; simpl;
      unfold gather_events; destruct (_ =? _)%nat; simpl; eexists; reflexivity.
  - exists []. reflexivity.
Qed.

(** C1, amended.  When a secondary provider is configured and the search
    of the primary returns the empty list, the search of the secondary is
    awaited; what it returns becomes the item set and the secondary
    becomes the active provider, through which [gather_readables] is then
    called.  When the search of the primary raises, the exception is
    caught and logged, the item set is empty, the secondary is not tried
    and the primary stays the active provider; the same holds, after the
    secondary was tried, when its search raises. *)
Theorem fallback_on_empty_search cfg W env topic ss0 fb :
  nonempty topic = true ->
  make_services urlparse_netloc cfg = Some (ss0, Some fb) ->
  let provider := lower (search_provider cfg) in
  (forall items',
      search_outcome W ss0 topic = Some [] ->
      search_outcome W fb topic = Some items' ->
      search_phase W topic provider ss0 (Some fb)
      = (items', fb, [Searched ss0; Searched fb])
      /\ exists tr, (analyze urlparse_netloc W cfg env (Some topic)).2
                    = [Searched ss0; Searched fb; Gathered fb] ++ tr)
  /\ (search_outcome W ss0 topic = None ->
      search_phase W topic provider ss0 (Some fb)
      = ([], ss0, [Searched ss0; SearchFailed]))
  /\ (search_outcome W ss0 topic = Some [] ->
      search_outcome W fb topic = None ->
      search_phase W topic provider ss0 (Some fb)
      = ([], ss0, [Searched ss0; Searched fb; SearchFailed])).
Proof.
  intros Ht Hm provider. subst provider.
  pose proof (search_phase_with_fallback W topic cfg ss0 fb Hm) as Hs.
  split; [|split].
  - intros items' H0 H1. rewrite H0, H1 in Hs. split; [exact Hs|].
    destruct (analyze_gathers_through cfg W env topic ss0 (Some fb) _ _ _ Ht Hm Hs)
      as [tr Htr].
    exists tr. rewrite Htr. reflexivity.
  - intros H0. by rewrite H0 in Hs.
  - intros H0 H1. by rewrite H0, H1 in Hs.
Qed.

End FallbackFacts.

(** C1 as the claim has it fails when the search of the primary raises:
    with the crawler as primary and the direct search configured as its
    secondary, a crawl that raises ends the search with no item; the
    secondary, which would have two hits, is never searched, and the
    gathering goes through the crawler. *)
Lemma fallback_skipped_when_search_raises :
  let cfg := AppExample.settings (py "crawler") in
  let W := AppExample.world None in
  App.make_services AppExample.bare_netloc cfg
  = Some (AppExample.crawler_obj, Some AppExample.crawler_ddgs_obj)
  /\ App.search_outcome W AppExample.crawler_obj (py "X") = None
  /\ App.search_outcome W AppExample.crawler_ddgs_obj (py "X")
     = Some AppExample.two_hits
  /\ (App.analyze AppExample.bare_netloc W cfg ∅ (Some (py "X"))).2
     = [App.Searched AppExample.crawler_obj; App.SearchFailed;
        App.Gathered AppExample.crawler_obj;
        App.SetEnv "EXPERT_MODE" (py "false"); App.FellBack].
Proof.
  intros cfg W.
  split; [vm_compute; reflexivity|].
  split; [reflexivity|]. split; [reflexivity|].
  vm_compute. reflexivity.
Qed.

(** The protocol-tool search finds nothing, the LLM-driven search
    configured behind it has two hits: they are the items, and the
    gathering goes through the LLM-driven provider. *)
Lemma fallback_on_empty_search_witness :
  let cfg := AppExample.settings (py "mcp") in
  let W := AppExample.world None in
  App.make_services AppExample.bare_netloc cfg
  = Some (AppExample.mcp_obj, Some AppExample.llm_obj)
  /\ App.search_phase W (py "X") (lower (py "mcp")) AppExample.mcp_obj
       (Some AppExample.llm_obj)
     = (AppExample.two_hits, AppExample.llm_obj,
        [App.Searched AppExample.mcp_obj; App.Searched AppExample.llm_obj])
  /\ exists tr,
       (App.analyze AppExample.bare_netloc W cfg ∅ (Some (py "X"))).2
       = [App.Searched AppExample.mcp_obj; App.Searched AppExample.llm_obj;
          App.Gathered AppExample.llm_obj] ++ tr.
Proof.
  intros cfg W.
  assert (Hm : App.make_services AppExample.bare_netloc cfg
               = Some (AppExample.mcp_obj, Some AppExample.llm_obj))
    by (vm_compute; reflexivity).
  split; [exact Hm|].
  destruct (fallback_on_empty_search AppExample.bare_netloc cfg W ∅ (py "X")
              AppExample.mcp_obj AppExample.llm_obj eq_refl Hm) as (Hfound & _ & _).
  exact (Hfound AppExample.two_hits eq_refl eq_refl).
Defined.

(** ** The synthesis stage and the mode (claims C6, C9, C10) *)

Section SynthesisFacts.

Import App.

Lemma expert_enabled_false (env : Env) :
  env !! "EXPERT_MODE" = Some (py "false") -> expert_enabled env = false.
Proof.
  intros H. unfold expert_enabled, getenv. rewrite H.
  apply bool_decide_eq_false_2. intros E. vm_compute in E. discriminate E.
Qed.

Lemma env_after_gather_none (env : Env) items :
  got_text items = 0%nat ->
  env_after_gather env items = <["EXPERT_MODE" := py "false"]> env.
Proof. intros H. unfold env_after_gather. by rewrite H. Qed.

Lemma env_after_gather_keeps (env : Env) items :
  env !! "EXPERT_MODE" = Some (py "false") ->
  env_after_gather env items !! "EXPERT_MODE" = Some (py "false").
Proof.
  intros H. unfold env_after_gather.
  destruct (_ =? _)%nat; [apply lookup_insert_eq|exact H].
Qed.

Lemma expert_needs_text (env : Env) items :
  expert_enabled (env_after_gather env items) = true -> got_text items <> 0%nat.
Proof.
  intros H Hz. rewrite env_after_gather_none in H by done.
  rewrite expert_enabled_false in H; [discriminate H|apply lookup_insert_eq].
Qed.

Lemma has_evidence_of_text items : got_text items <> 0%nat -> has_evidence items = true.
Proof.
  unfold got_text, has_evidence. induction items as [|it items IH]; simpl; [done|].
  destruct (has_text it); [done|]. exact IH.
Qed.

(** With evidence, the classic block builds the single-stage prompt and
    asks the model. *)
Lemma classic_stage_asks W topic items :
  has_evidence items = true ->
  exists tr, (classic_stage W topic items).2
             = Asked Classic (Report.build_prompt topic items) :: tr.
Proof.
  intros H. unfold classic_stage. rewrite H. cbn [negb].
  destruct (ask W Classic) as [c|];
    repeat case_match; cbn [snd app]; eexists; reflexivity.
Qed.

(** When the model answers the classic prompt with a string, or not at
    all, the classic block ends with a string. *)
Lemma classic_stage_string W topic items :
  ask W Classic = None \/ (exists s, ask W Classic = Some (JStr s)) ->
  exists md, (classic_stage W topic items).1 = Some (JStr md).
Proof.
  intros H. unfold classic_stage.
  destruct (negb (has_evidence items)).
  - repeat case_match; simplify_eq; cbn [fst]; eexists; reflexivity.
  - destruct H as [->|[s ->]];
      repeat case_match; simplify_eq; cbn [fst]; eexists; reflexivity.
Qed.

Lemma classic_stage_quiet W topic items : quiet (classic_stage W topic items).2.
Proof.
  unfold classic_stage, quiet.
  repeat case_match; simplify_eq; cbn [snd];
    repeat (apply Forall_app; split); repeat constructor.
Qed.

Lemma synthesize_classic W topic items :
  synthesize W false topic items = classic_stage W topic items.
Proof. unfold synthesize. by destruct (classic_stage W topic items). Qed.

Lemma expert_stage_demotes W topic items json_text data :
  ask W Stage1 = Some json_text ->
  parse_structured json_text = Some data ->
  lacks_references data = true ->
  expert_stage W topic items
  = (false, JStr [],
     [Asked Stage1 (Report.build_expert_structure_messages topic items); Demoted]).
Proof. intros H1 H2 H3. unfold expert_stage. by rewrite H1, H2, H3. Qed.

(** C6: when the expert mode is on at the synthesis, stage 1 is answered
    and the answer either does not parse to an object or parses to one
    without a non-empty [references] field, the mode is switched off for
    the request and the classic block runs: as the mode can only be on
    when some article text was extracted, the single-stage prompt is built
    and sent; and when the model answers it with a string or not at all,
    the synthesis ends with a Markdown string.  The text [no json here]
    parses to the empty object, which has no [references]. *)
Theorem demotion_to_classic :
  (forall W (env : Env) topic items_readable json_text data,
      let expert_mode := expert_enabled (env_after_gather env items_readable) in
      expert_mode = true ->
      ask W Stage1 = Some json_text ->
      parse_structured json_text = Some data ->
      lacks_references data = true ->
      synthesize W expert_mode topic items_readable
      = ((classic_stage W topic items_readable).1,
         [Asked Stage1 (Report.build_expert_structure_messages topic items_readable);
          Demoted] ++ (classic_stage W topic items_readable).2)
      /\ (exists tr, (classic_stage W topic items_readable).2
                     = Asked Classic (Report.build_prompt topic items_readable) :: tr)
      /\ (ask W Classic = None \/ (exists s, ask W Classic = Some (JStr s)) ->
          exists md, (synthesize W expert_mode topic items_readable).1
                     = Some (JStr md)))
  /\ (parse_structured (JStr (py "no json here")) = Some []
      /\ dict_get (py "references") [] = None
      /\ lacks_references [] = true).
Proof.
  split.
  - intros W env topic items json_text data expert_mode Hmode H1 H2 H3.
    assert (Hsyn : synthesize W expert_mode topic items
                   = ((classic_stage W topic items).1,
                      [Asked Stage1 (Report.build_expert_structure_messages topic items);
                       Demoted] ++ (classic_stage W topic items).2)).
    { rewrite Hmode. unfold synthesize.
      rewrite (expert_stage_demotes W topic items json_text data H1 H2 H3).
      by destruct (classic_stage W topic items). }
    split; [exact Hsyn|]. split.
    + apply classic_stage_asks, has_evidence_of_text.
      by apply (expert_needs_text env).
    + intros Hc. rewrite Hsyn. cbn [fst]. by apply classic_stage_string.
  - split; [vm_compute; reflexivity|]. split; reflexivity.
Qed.

(** The mock provider gathers three articles; the model answers stage 1
    with [no json here]: the request goes on with the single-stage
    prompt. *)
Lemma demotion_to_classic_witness :
  let W := AppExample.world None in
  let items := AppExample.mock_readables in
  synthesize W (expert_enabled (env_after_gather ∅ items)) (py "X") items
  = ((classic_stage W (py "X") items).1,
     [Asked Stage1 (Report.build_expert_structure_messages (py "X") items);
      Demoted] ++ (classic_stage W (py "X") items).2)
  /\ exists tr, (classic_stage W (py "X") items).2
                = Asked Classic (Report.build_prompt (py "X") items) :: tr.
Proof.
  intros W items.
  destruct (proj1 demotion_to_classic W ∅ (py "X") items
              (JStr (py "no json here")) []) as (Hsyn & Hasks & _).
  - vm_compute. reflexivity.
  - vm_compute. reflexivity.
  - vm_compute. reflexivity.
  - reflexivity.
  - split; [exact Hsyn|exact Hasks].
Defined.

(** *** The mode after the gather block *)

Lemma respond_mode W cfg (env : Env) c se got total r :
  respond W cfg env c se got total = Ok200 r ->
  mode r = if expert_enabled env then py "expert" else py "classic".
Proof.
  unfold respond. intros H.
  destruct (negb (fs_ok W)); [discriminate H|].
  destruct c; try discriminate H.
  destruct (md_to_html W s); [|discriminate H].
  injection H as <-. reflexivity.
Qed.

Lemma finish_env W cfg (env : Env) topic ss se items :
  (finish W cfg env topic ss se items).1.2 = env_after_gather env items.
Proof.
  unfold finish. destruct (synthesize _ _ _ _) as [[c|] tr]; reflexivity.
Qed.

Lemma finish_mode W cfg (env : Env) topic ss se items r :
  (finish W cfg env topic ss se items).1.1 = Ok200 r ->
  mode r = if expert_enabled (env_after_gather env items)
           then py "expert" else py "classic".
Proof.
  unfold finish. destruct (synthesize _ _ _ _) as [[c|] tr]; cbn [fst].
  - apply respond_mode.
  - discriminate.
Qed.

Lemma gather_events_quiet ss items : quiet (gather_events ss items).
Proof. unfold gather_events, quiet. destruct (_ =? _)%nat; repeat constructor. Qed.

Lemma gather_events_set ss items :
  got_text items = 0%nat ->
  In (SetEnv "EXPERT_MODE" (py "false")) (gather_events ss items).
Proof. intros H. unfold gather_events. rewrite H. right. by left. Qed.

Lemma finish_quiet W cfg (env : Env) topic ss se items :
  expert_enabled (env_after_gather env items) = false ->
  quiet (finish W cfg env topic ss se items).2.
Proof.
  intros H. unfold finish. rewrite H, synthesize_classic.
  pose proof (classic_stage_quiet W topic items) as Hq.
  destruct (classic_stage W topic items) as [[c|] tr]; cbn [snd] in *;
    (apply Forall_app; split; [apply gather_events_quiet|exact Hq]).
Qed.

Lemma finish_trace_set W cfg (env : Env) topic ss se items :
  got_text items = 0%nat ->
  In (SetEnv "EXPERT_MODE" (py "false")) (finish W cfg env topic ss se items).2.
Proof.
  intros H. unfold finish.
  destruct (synthesize _ _ _ _) as [[c|] tr]; cbn [snd];
    apply in_or_app; left; by apply gather_events_set.
Qed.

Lemma fallback_if_quiet W topic provider name fb st :
  match st with Found _ _ tr | Failed _ tr => quiet tr end ->
  match fallback_if W topic provider name fb st with
  | Found _ _ tr | Failed _ tr => quiet tr
  end.
Proof.
  intros H. unfold fallback_if. destruct st as [items ss tr|ss tr]; [|exact H].
  destruct fb as [fb|]; [|exact H].
  destruct (_ && _); [|exact H].
  destruct (search_outcome W fb topic);
    (apply Forall_app; split; [exact H|repeat constructor]).
Qed.

Lemma search_phase_quiet W topic provider ss0 fb :
  quiet (search_phase W topic provider ss0 fb).2.
Proof.
  unfold search_phase.
  set (st0 := match search_outcome W ss0 topic with
              | Some items => Found items ss0 [Searched ss0]
              | None => Failed ss0 [Searched ss0]
              end).
  assert (H0 : match st0 with Found _ _ tr | Failed _ tr => quiet tr end).
  { subst st0. destruct (search_outcome W ss0 topic); repeat constructor. }
  apply (fallback_if_quiet W topic provider (py "crawler") fb) in H0.
  apply (fallback_if_quiet W topic provider (py "mcp") fb) in H0.
  apply (fallback_if_quiet W topic provider (py "llm") fb) in H0.
  destruct (fallback_if _ _ _ (py "llm") _ _) as [items ss tr|ss tr]; cbn [snd].
  - exact H0.
  - apply Forall_app. split; [exact H0|repeat constructor].
Qed.

End SynthesisFacts.

(** ** The mode across requests (claims C9 and C10) *)

Section ModeFacts.

Import App.

Variable urlparse_netloc : str -> option str.

Lemma analyze_unfold W cfg (env : Env) topic ss0 fb items ss tr1 items_readable :
  nonempty topic = true ->
  make_services urlparse_netloc cfg = Some (ss0, fb) ->
  search_phase W topic (lower (search_provider cfg)) ss0 fb = (items, ss, tr1) ->
  gather W ss items = Some items_readable ->
  analyze urlparse_netloc W cfg env (Some topic)
  = ((finish W cfg env topic ss (length items =? 0)%nat items_readable).1.1,
     (finish W cfg env topic ss (length items =? 0)%nat items_readable).1.2,
     tr1 ++ (finish W cfg env topic ss (length items =? 0)%nat items_readable).2).
Proof.
  intros Ht Hm Hs Hg. unfold analyze.
  change (default [] (Some topic)) with topic. rewrite Ht, Hm. cbn [negb].
  rewrite Hs, Hg. by destruct (finish _ _ _ _ _ _ _) as [[r e] tr].
Qed.

(** The mode reported is the one the environment gives when the answer
    is built. *)
Lemma analyze_mode W cfg (env : Env) topic r :
  (analyze urlparse_netloc W cfg env topic).1.1 = Ok200 r ->
  mode r = if expert_enabled (analyze urlparse_netloc W cfg env topic).1.2
           then py "expert" else py "classic".
Proof.
  unfold analyze.
  destruct (negb (nonempty (default [] topic))); [discriminate|].
  destruct (make_services urlparse_netloc cfg) as [[ss0 fb]|]; [|discriminate].
  destruct (search_phase _ _ _ _ _) as [[items ss] tr1].
  destruct (gather W ss items) as [items_readable|]; [|discriminate].
  pose proof (finish_mode W cfg env (default [] topic) ss
                (length items =? 0)%nat items_readable r) as Hmode.
  pose proof (finish_env W cfg env (default [] topic) ss
                (length items =? 0)%nat items_readable) as Henv.
  destruct (finish _ _ _ _ _ _ _) as [[r' e] tr]. cbn [fst snd] in *.
  intros H. rewrite Henv. by apply Hmode.
Qed.

(** Once [EXPERT_MODE] is ['false'], a request leaves it so, runs no part
    of the two-stage synthesis and reports the classic mode. *)
Lemma analyze_under_false W cfg (env : Env) topic :
  env !! "EXPERT_MODE" = Some (py "false") ->
  (analyze urlparse_netloc W cfg env topic).1.2 !! "EXPERT_MODE" = Some (py "false")
  /\ quiet (analyze urlparse_netloc W cfg env topic).2
  /\ (forall r, (analyze urlparse_netloc W cfg env topic).1.1 = Ok200 r ->
                mode r = py "classic").
Proof.
  intros Henv.
  split; [|split].
  - unfold analyze.
    destruct (negb (nonempty (default [] topic))); [exact Henv|].
    destruct (make_services urlparse_netloc cfg) as [[ss0 fb]|]; [|exact Henv].
    destruct (search_phase _ _ _ _ _) as [[items ss] tr1].
    destruct (gather W ss items) as [items_readable|]; [|exact Henv].
    pose proof (finish_env W cfg env (default [] topic) ss
                  (length items =? 0)%nat items_readable) as Hf.
    destruct (finish _ _ _ _ _ _ _) as [[r' e] tr]. cbn [fst snd] in *.
    rewrite Hf. by apply env_after_gather_keeps.
  - unfold analyze.
    destruct (negb (nonempty (default [] topic))); [constructor|].
    destruct (make_services urlparse_netloc cfg) as [[ss0 fb]|]; [|constructor].
    pose proof (search_phase_quiet W (default [] topic)
                  (lower (search_provider cfg)) ss0 fb) as Hq.
    destruct (search_phase _ _ _ _ _) as [[items ss] tr1]. cbn [snd] in Hq.
    destruct (gather W ss items) as [items_readable|].
    + pose proof (finish_quiet W cfg env (default [] topic) ss
                    (length items =? 0)%nat items_readable) as Hf.
      destruct (finish _ _ _ _ _ _ _) as [[r' e] tr]. cbn [fst snd] in *.
      apply Forall_app. split; [exact Hq|]. apply Hf.
      apply expert_enabled_false. by apply env_after_gather_keeps.
    + cbn [snd]. apply Forall_app. split; [exact Hq|repeat constructor].
  - intros r Hr. rewrite (analyze_mode W cfg env topic r Hr).
    rewrite expert_enabled_false; [reflexivity|].
    unfold analyze in *.
    destruct (negb (nonempty (default [] topic))); [discriminate Hr|].
    destruct (make_services urlparse_netloc cfg) as [[ss0 fb]|]; [|discriminate Hr].
    destruct (search_phase _ _ _ _ _) as [[items ss] tr1].
    destruct (gather W ss items) as [items_readable|]; [|discriminate Hr].
    pose proof (finish_env W cfg env (default [] topic) ss
                  (length items =? 0)%nat items_readable) as Hf.
    destruct (finish _ _ _ _ _ _ _) as [[r' e] tr]. cbn [fst snd] in *.
    rewrite Hf. by apply env_after_gather_keeps.
Qed.

(** The same for every request served afterwards. *)
Lemma serve_under_false requests : forall env : Env,
  env !! "EXPERT_MODE" = Some (py "false") ->
  (serve urlparse_netloc requests env).2 !! "EXPERT_MODE" = Some (py "false")
  /\ Forall (fun a : Response * list Event =>
               quiet a.2 /\ forall r, a.1 = Ok200 r -> mode r = py "classic")
            (serve urlparse_netloc requests env).1.
Proof.
  induction requests as [|[[W cfg] topic] rest IH]; intros env Henv.
  - split; [exact Henv|constructor].
  - cbn [serve].
    destruct (analyze_under_false W cfg env topic Henv) as (He & Hq & Hm).
    destruct (analyze urlparse_netloc W cfg env topic) as [[r env1] tr].
    cbn [fst snd] in *.
    destruct (IH env1 He) as [IH1 IH2].
    destruct (serve urlparse_netloc rest env1) as [rs env2]. cbn [fst snd] in *.
    split; [exact IH1|]. constructor; [|exact IH2]. by split.
Qed.

(** C9: when a request reaches the gather block and no gathered item has
    article text, the handler sets [EXPERT_MODE] to ['false'] in the
    environment of the process.  The request itself then runs no part of
    the two-stage synthesis and reports the classic mode; and so does
    every request the process serves afterwards, whatever it asks for and
    whatever it finds, since no request ever sets the variable back. *)
Theorem expert_mode_disabled_process_wide
    W cfg (env : Env) topic ss0 fb items ss tr1 items_readable :
  nonempty topic = true ->
  make_services urlparse_netloc cfg = Some (ss0, fb) ->
  search_phase W topic (lower (search_provider cfg)) ss0 fb = (items, ss, tr1) ->
  gather W ss items = Some items_readable ->
  got_text items_readable = 0%nat ->
  (analyze urlparse_netloc W cfg env (Some topic)).1.2
  = <["EXPERT_MODE" := py "false"]> env
  /\ In (SetEnv "EXPERT_MODE" (py "false"))
        (analyze urlparse_netloc W cfg env (Some topic)).2
  /\ quiet (analyze urlparse_netloc W cfg env (Some topic)).2
  /\ (forall r, (analyze urlparse_netloc W cfg env (Some topic)).1.1 = Ok200 r ->
                mode r = py "classic")
  /\ (forall requests,
        let later := serve urlparse_netloc requests
                       (analyze urlparse_netloc W cfg env (Some topic)).1.2 in
        later.2 !! "EXPERT_MODE" = Some (py "false")
        /\ Forall (fun a : Response * list Event =>
                     quiet a.2 /\ forall r, a.1 = Ok200 r -> mode r = py "classic")
                  later.1).
Proof.
  intros Ht Hm Hs Hg Hz.
  assert (Henv : (analyze urlparse_netloc W cfg env (Some topic)).1.2
                 = <["EXPERT_MODE" := py "false"]> env).
  { rewrite (analyze_unfold W cfg env topic ss0 fb items ss tr1 items_readable)
      by done.
    cbn [fst snd]. rewrite finish_env. by apply env_after_gather_none. }
  assert (Hoff : expert_enabled (env_after_gather env items_readable) = false).
  { rewrite env_after_gather_none by done.
    apply expert_enabled_false, lookup_insert_eq. }
  split; [exact Henv|]. split; [|split; [|split]].
  - rewrite (analyze_unfold W cfg env topic ss0 fb items ss tr1 items_readable)
      by done.
    cbn [snd]. apply in_or_app. right. by apply finish_trace_set.
  - rewrite (analyze_unfold W cfg env topic ss0 fb items ss tr1 items_readable)
      by done.
    cbn [snd]. apply Forall_app. split.
    + pose proof (search_phase_quiet W topic (lower (search_provider cfg)) ss0 fb)
        as Hq. by rewrite Hs in Hq.
    + by apply finish_quiet.
  - intros r Hr. rewrite (analyze_mode W cfg env (Some topic) r Hr), Henv.
    rewrite expert_enabled_false; [reflexivity|apply lookup_insert_eq].
  - intros requests later. subst later. rewrite Henv.
    apply serve_under_false, lookup_insert_eq.
Qed.

(** [expert_enabled] spelled out: the variable is unset, or its value is
    [true] up to the case of its letters. *)
Lemma expert_enabled_spec (env : Env) :
  expert_enabled env = true
  <-> env !! "EXPERT_MODE" = None
      \/ exists v, env !! "EXPERT_MODE" = Some v /\ lower v = py "true".
Proof.
  unfold expert_enabled, getenv. rewrite bool_decide_eq_true.
  destruct (env !! "EXPERT_MODE") as [v|];
    [change (default (py "true") (Some v)) with v
    |change (default (py "true") (@None str)) with (py "true")].
  - split; [intros H; right; by exists v|].
    intros [H|(v' & [= <-] & H)]; [discriminate H|exact H].
  - split; [by left|]. intros _. vm_compute. reflexivity.
Qed.

End ModeFacts.

(** A crawl that raises leaves no item and no text: the variable is set,
    and a request served afterwards by the mock provider, which gathers
    three articles, reports the classic mode. *)
Lemma expert_mode_disabled_process_wide_witness :
  let first := App.analyze AppExample.bare_netloc (AppExample.world None)
                 (AppExample.settings (py "crawler")) ∅ (Some (py "X")) in
  first.1.2 = <["EXPERT_MODE" := py "false"]> ∅
  /\ Forall (fun a : App.Response * list App.Event =>
               App.quiet a.2
               /\ forall r, a.1 = App.Ok200 r -> App.mode r = py "classic")
            (App.serve AppExample.bare_netloc
               [(AppExample.world None, AppExample.settings (py "mock"),
                 Some (py "X"))] first.1.2).1.
Proof.
  intros first.
  destruct (expert_mode_disabled_process_wide AppExample.bare_netloc
              (AppExample.world None) (AppExample.settings (py "crawler")) ∅
              (py "X") AppExample.crawler_obj (Some AppExample.crawler_ddgs_obj)
              [] AppExample.crawler_obj
              [App.Searched AppExample.crawler_obj; App.SearchFailed] [])
    as (Henv & _ & _ & _ & Hlater).
  - reflexivity.
  - vm_compute. reflexivity.
  - vm_compute. reflexivity.
  - reflexivity.
  - reflexivity.
  - split; [exact Henv|].
    exact (proj2 (Hlater [(AppExample.world None, AppExample.settings (py "mock"),
                           Some (py "X"))])).
Defined.

(** C10: the [mode] field of a [200] answer is [expert] when the
    environment the handler leaves, which is the one it reads when it
    builds the answer, enables the expert mode ([EXPERT_MODE] unset, or
    [true] up to the case of its letters), and [classic] otherwise; the
    path that produced the report plays no part.  So for the request
    served by the mock provider whose stage 1 is answered with prose: it
    is demoted, the report comes from the single-stage prompt, and the
    answer says [expert]. *)
Theorem mode_field_follows_environment :
  (forall urlparse_netloc W cfg (env : App.Env) topic r,
      (App.analyze urlparse_netloc W cfg env topic).1.1 = App.Ok200 r ->
      App.mode r
      = if App.expert_enabled (App.analyze urlparse_netloc W cfg env topic).1.2
        then py "expert" else py "classic")
  /\ (forall env : App.Env,
        App.expert_enabled env = true
        <-> env !! "EXPERT_MODE" = None
            \/ exists v, env !! "EXPERT_MODE" = Some v /\ lower v = py "true")
  /\ (App.analyze AppExample.bare_netloc (AppExample.world None)
         (AppExample.settings (py "mock")) ∅ (Some (py "X"))
       = (App.Ok200 AppExample.demoted_report, ∅,
          [App.Searched AppExample.mock_obj; App.Gathered AppExample.mock_obj;
           App.Asked App.Stage1
             (Report.build_expert_structure_messages (py "X")
                AppExample.mock_readables);
           App.Demoted;
           App.Asked App.Classic
             (Report.build_prompt (py "X") AppExample.mock_readables)])
       /\ App.mode AppExample.demoted_report = py "expert").
Proof.
  split; [|split].
  - intros urlparse_netloc W cfg env topic r. apply analyze_mode.
  - apply expert_enabled_spec.
  - split; [vm_compute; reflexivity|reflexivity].
Qed.

Lemma mode_field_follows_environment_witness :
  App.mode AppExample.demoted_report
  = if App.expert_enabled (∅ : App.Env) then py "expert" else py "classic".
Proof.
  destruct mode_field_follows_environment as (Hmode & _ & Hrun & _).
  pose proof (Hmode AppExample.bare_netloc (AppExample.world None)
                (AppExample.settings (py "mock")) ∅ (Some (py "X"))
                AppExample.demoted_report) as H.
  rewrite Hrun in H. exact (H eq_refl).
Defined.


(** ** What the prompts are built from (report_service.py) *)

Section PromptFacts.

Import Report.

Lemma evidence_lines_filter (items : list Item) :
  evidence_lines (List.filter App.has_text items) = evidence_lines items.
Proof.
  induction items as [|it items IH]; [reflexivity|].
  cbn [List.filter evidence_lines].
  destruct (App.has_text it) eqn:E; unfold App.has_text in E;
    cbn [evidence_lines]; rewrite E; [by rewrite IH|exact IH].
Qed.

Lemma evidence_entries_filter (items : list Item) : forall idx,
  evidence_entries idx (List.filter App.has_text items) = evidence_entries idx items.
Proof.
  induction items as [|it items IH]; intros idx; [reflexivity|].
  cbn [List.filter evidence_entries].
  destruct (App.has_text it) eqn:E; unfold App.has_text in E;
    cbn [evidence_entries]; rewrite E; [by rewrite IH|apply IH].
Qed.

Lemma evidence_lines_length (items : list Item) :
  length (evidence_lines items) = App.got_text items.
Proof.
  unfold App.got_text. induction items as [|it items IH]; [reflexivity|].
  cbn [evidence_lines List.filter]. change (nonempty (article_text_of it)) with (App.has_text it).
  destruct (App.has_text it); cbn [length]; by rewrite IH.
Qed.

Lemma evidence_entries_length (items : list Item) : forall idx,
  length (evidence_entries idx items) = App.got_text items.
Proof.
  unfold App.got_text. induction items as [|it items IH]; intros idx; [reflexivity|].
  cbn [evidence_entries List.filter]. change (nonempty (article_text_of it)) with (App.has_text it).
  destruct (App.has_text it); cbn [length]; by rewrite IH.
Qed.

Lemma startswith_app3 (a b c r : str) :
  startswith (a ++ b ++ c) (a ++ b ++ c ++ r) = true.
Proof. rewrite (app_assoc b c r), (app_assoc a (b ++ c) r). apply startswith_app. Qed.

Lemma evidence_entries_skip idx (it : Item) items :
  nonempty (article_text_of it) = false ->
  evidence_entries idx (it :: items) = evidence_entries idx items.
Proof. intros E. cbn [evidence_entries]. by rewrite E. Qed.

Lemma evidence_entries_keep idx (it : Item) items :
  nonempty (article_text_of it) = true ->
  exists body,
    evidence_entries idx (it :: items)
    = (py "[" ++ str_of_nat (S idx) ++ py "] 标题：" ++ body)
        :: evidence_entries (S idx) items.
Proof. intros E. cbn [evidence_entries]. rewrite E. eexists. reflexivity. Qed.

(** The entry at place [k] of a block numbered from [idx + 1] carries the
    number [idx + k + 1]. *)
Lemma evidence_entries_numbered (items : list Item) : forall idx k e,
  evidence_entries idx items !! k = Some e ->
  startswith (py "[" ++ str_of_nat (idx + k + 1) ++ py "] 标题：") e = true.
Proof.
  induction items as [|it items IH]; intros idx k e H; [done|].
  destruct (nonempty (article_text_of it)) eqn:E.
  - destruct (evidence_entries_keep idx it items E) as [body Hb].
    rewrite Hb in H. destruct k as [|k].
    + apply (inj Some) in H. subst e.
      replace (idx + 0 + 1)%nat with (S idx) by lia. apply startswith_app3.
    + apply (IH (S idx) k e) in H.
      by replace (idx + S k + 1)%nat with (S idx + k + 1)%nat by lia.
  - rewrite evidence_entries_skip in H by done. by apply IH.
Qed.

(** X1: both prompts are built from the items with article text alone:
    dropping every item whose stripped [article_text] is empty changes
    neither the single-stage prompt nor the stage-1 messages.  Each prompt
    holds one piece of evidence per item with text, and the entries of the
    evidence block are numbered 1, 2, 3, ... in the order of these items,
    without a gap where an item was skipped. *)
Theorem prompts_use_items_with_text_only (topic : str) (items : list Item) :
  build_prompt topic (List.filter App.has_text items) = build_prompt topic items
  /\ build_expert_structure_messages topic (List.filter App.has_text items)
     = build_expert_structure_messages topic items
  /\ length (evidence_lines items) = App.got_text items
  /\ length (evidence_entries 0 items) = App.got_text items
  /\ (forall k e, evidence_entries 0 items !! k = Some e ->
        startswith (py "[" ++ str_of_nat (k + 1) ++ py "] 标题：") e = true).
Proof.
  split; [|split; [|split; [|split]]].
  - unfold build_prompt. by rewrite evidence_lines_filter.
  - unfold build_expert_structure_messages, _evidence_block.
    by rewrite evidence_entries_filter.
  - apply evidence_lines_length.
  - apply evidence_entries_length.
  - intros k e H. exact (evidence_entries_numbered items 0 k e H).
Qed.

End PromptFacts.

(** ** [try_parse_json_object] (report_service.py) *)

Section ParseObjectFacts.

Import Extract.

Lemma open_brace_not_plain : ~ plain LBRACE.
Proof. intros (_ & _ & H & _). by apply H. Qed.

(** Cleaning brings in no bracket and no brace. *)
Lemma clean_keeps_specials (c : N) (t : str) : ~ plain c -> c ∈ clean t -> c ∈ t.
Proof.
  intros Hc Hin. unfold clean, strip in Hin.
  set (t1 := lstrip_by is_space t) in *.
  set (t2 := rstrip_by is_space t1) in *.
  set (t3 := strip_open_fence t2) in *.
  destruct (strip_close_fence_split t3) as (x & q & q' & Ht3 & Hscf & _ & Hq').
  rewrite Hscf in Hin. apply elem_of_app in Hin as [Hin|Hin];
    [|exfalso; apply Hc; rewrite Forall_forall in Hq'; by apply Hq'].
  assert (H3 : c ∈ t3) by (rewrite Ht3, elem_of_app; by left).
  destruct (strip_open_fence_split t2) as (k2 & Ht2 & _).
  assert (H2 : c ∈ t2) by (rewrite Ht2, elem_of_app; by right).
  destruct (rstrip_by_split is_space t1) as (q1 & Ht1 & _).
  assert (H1 : c ∈ t1) by (rewrite Ht1, elem_of_app; by left).
  destruct (lstrip_by_split is_space t) as (k1 & Ht & _).
  rewrite Ht, elem_of_app. by right.
Qed.

Lemma find_char_none (c : N) (s : str) : c ∉ s -> find_char c s = None.
Proof.
  induction s as [|x s IH]; intros Hc; simpl; [done|].
  apply not_elem_of_cons in Hc as [Hx Hc].
  destruct (x =? c)%N eqn:E; [apply N.eqb_eq in E; congruence|].
  by rewrite IH.
Qed.

Lemma scan_constant_kind s v r : scan_constant s = Some (v, r) -> is_dict v = false.
Proof.
  unfold scan_constant. intros H.
  repeat match type of H with
    | match strip_prefix ?p ?x with _ => _ end = _ =>
        destruct (strip_prefix p x); [by simplify_eq|]
    end.
  done.
Qed.

Lemma scan_number_kind s v r : scan_number s = Some (v, r) -> is_dict v = false.
Proof. unfold scan_number. intros H. by repeat (case_match; simplify_eq). Qed.

(** Only text that opens with a brace parses to an object. *)
Lemma parse_kinds fuel :
  (forall s v r, parse_value fuel s = Some (v, r) -> is_dict v = true ->
                 exists r', s = LBRACE :: r')
  /\ (forall s acc v r, parse_elems fuel s acc = Some (v, r) -> is_dict v = false).
Proof.
  induction fuel as [|f (IHv & IHe)]; [by split|].
  split.
  - intros s v r H Hd. cbn [parse_value] in H. destruct s as [|c s0]; [done|].
    destruct (c =? QUOTE)%N.
    { destruct (scan_string _ s0 []) as [[w r']|]; by simplify_eq. }
    destruct (c =? LBRACE)%N eqn:Eb.
    { apply N.eqb_eq in Eb as ->. by exists s0. }
    destruct (c =? LBRACKET)%N.
    { destruct (eat RBRACKET (skip_ws s0)) as [r'|]; [by simplify_eq|].
      apply IHe in H. congruence. }
    destruct (scan_constant (c :: s0)) as [[w r']|] eqn:Hc.
    + apply scan_constant_kind in Hc. simplify_eq. congruence.
    + apply scan_number_kind in H. congruence.
  - intros s acc v r H. cbn [parse_elems] in H.
    destruct (parse_value f s) as [[v0 r0]|]; [|done].
    destruct (eat RBRACKET (skip_ws r0)) as [r'|]; [by simplify_eq|].
    destruct (eat COMMA (skip_ws r0)) as [r'|]; [|done].
    by apply IHe in H.
Qed.

Lemma loads_dict_brace (t : str) d : loads_dict t = Some d -> LBRACE ∈ t.
Proof.
  unfold loads_dict, loads. intros H.
  destruct (parse_value _ (skip_ws t)) as [[v r]|] eqn:Hp; [|done].
  destruct (skip_ws r); [|done]. destruct v; try done.
  apply (proj1 (parse_kinds _)) in Hp as [r' Hr']; [|done].
  eapply elem_of_suffix; [|apply skip_ws_suffix]. rewrite Hr'.
  apply list_elem_of_here.
Qed.

(** X2: [try_parse_json_object] recovers an object from model output:
    when the text holds a valid JSON object, the text before it holds no
    opening brace and the text after it no closing brace (prose, a code
    fence, white space), the result is exactly that object; and a text
    without any opening brace, the empty text included, gives the empty
    dict, whatever else it holds. *)
Theorem try_parse_json_object_recovers :
  (forall lead mid trail d,
      loads (LBRACE :: mid ++ [RBRACE]) = Some (JObj d) ->
      LBRACE ∉ lead -> RBRACE ∉ trail ->
      try_parse_json_object (lead ++ (LBRACE :: mid ++ [RBRACE]) ++ trail) = d)
  /\ (forall text, LBRACE ∉ text -> try_parse_json_object text = []).
Proof.
  split.
  - intros lead mid trail d Hl Hlead Htrail. unfold try_parse_json_object.
    replace (lead ++ (LBRACE :: mid ++ [RBRACE]) ++ trail)
      with (lead ++ LBRACE :: mid ++ RBRACE :: trail)
      by (simpl; by rewrite <- app_assoc).
    rewrite nonempty_middle. simpl negb. cbv iota.
    destruct (clean_core lead mid trail LBRACE RBRACE
                open_brace_not_plain close_brace_not_plain)
      as (lead' & trail' & -> & Hsuf & Hin).
    assert (Hlead' : LBRACE ∉ lead').
    { intros H. apply Hlead. by eapply elem_of_suffix. }
    assert (Htrail' : RBRACE ∉ trail').
    { intros H. apply Htrail. by apply Hin; [apply close_brace_not_plain|]. }
    rewrite find_char_app by done.
    rewrite assoc_core, rfind_char_app by done.
    assert (Hlt : (length lead' <? length (lead' ++ LBRACE :: mid))%nat = true).
    { apply Nat.ltb_lt. rewrite length_app. simpl. lia. }
    rewrite Hlt. rewrite <- assoc_core, slice_core.
    unfold loads_dict at 1. by rewrite Hl.
  - intros text Hno. unfold try_parse_json_object.
    destruct (negb (nonempty text)); [reflexivity|].
    assert (Hc : LBRACE ∉ clean text).
    { intros H. apply Hno. by apply clean_keeps_specials; [apply open_brace_not_plain|]. }
    rewrite find_char_none by done.
    destruct (loads_dict (clean text)) as [d|] eqn:Hd; [|reflexivity].
    apply loads_dict_brace in Hd. contradiction.
Qed.

End ParseObjectFacts.

(** ** The handler when the search is empty or the model is out of reach *)

Section HandlerMore.

Import App.

Variable urlparse_netloc : str -> option str.

Lemma gather_nil W ss r : gather W ss [] = Some r -> r = [].
Proof.
  destruct ss as [v self|self]; simpl.
  - rewrite gather_readables_map. intros [= <-].
    unfold slice_to. by destruct (0 <=? _); rewrite firstn_nil.
  - unfold Crawler.gather_readables. destruct (crawl_client_ok W); [|done].
    by intros [= <-].
Qed.

Lemma draft_truthy topic (items : list Item) :
  truthy (JStr (Report.build_fallback_markdown topic items)) = true.
Proof. destruct (fallback_markdown_head topic items) as [rest ->]. reflexivity. Qed.

(** Without evidence the classic block asks nothing: the draft is the
    content. *)
Lemma classic_stage_no_evidence W topic (items : list Item) :
  has_evidence items = false ->
  exists tr, classic_stage W topic items
             = (Some (JStr (Report.build_fallback_markdown topic items)), tr)
             /\ (tr = [FellBack] \/ tr = [FellBack; FellBack]).
Proof.
  intros H. unfold classic_stage. rewrite H. cbn [negb].
  rewrite draft_truthy. cbn [negb py_in].
  destruct (contains no_evidence_marker_1 _).
  { eexists. split; [reflexivity|by right]. }
  destruct (contains no_evidence_marker_2 _).
  { eexists. split; [reflexivity|by right]. }
  eexists. split; [reflexivity|by left].
Qed.

(** X3: when the search ends with no item (nothing found, or the search
    raised), the gathering does not raise, the report file can be written
    and the draft renders to HTML, the handler asks the model nothing: it
    switches [EXPERT_MODE] to ['false'], takes the draft built from the
    topic alone as the report, and answers 200 in the classic mode with
    the empty-search text in [fallback]; the empty-search text is in
    [notice] too when the two settings of the fetch-rate rule can be
    read, and [notice] is empty when they cannot. *)
Theorem empty_search_answers_with_draft
    W cfg (env : Env) topic ss0 fb ss tr1 body :
  nonempty topic = true ->
  make_services urlparse_netloc cfg = Some (ss0, fb) ->
  search_phase W topic (lower (search_provider cfg)) ss0 fb = ([], ss, tr1) ->
  is_Some (gather W ss []) ->
  fs_ok W = true ->
  md_to_html W (Report.build_fallback_markdown topic []) = Some body ->
  exists tr2,
    analyze urlparse_netloc W cfg env (Some topic)
    = (Ok200 (AppCases.empty_search_report W cfg topic body),
       <["EXPERT_MODE" := py "false"]> env,
       tr1 ++ [Gathered ss; SetEnv "EXPERT_MODE" (py "false")] ++ tr2)
    /\ (tr2 = [FellBack] \/ tr2 = [FellBack; FellBack]).
Proof.
  intros Ht Hm Hs [r Hg] Hfs Hmd.
  pose proof (gather_nil _ _ _ Hg) as ->.
  rewrite (analyze_unfold urlparse_netloc W cfg env topic ss0 fb [] ss tr1 []
             Ht Hm Hs Hg).
  change (length (@nil Item) =? 0)%nat with true.
  unfold finish.
  change (got_text []) with 0%nat. change (length (@nil Item)) with 0%nat.
  rewrite env_after_gather_none by reflexivity.
  rewrite expert_enabled_false by apply lookup_insert_eq.
  rewrite synthesize_classic.
  destruct (classic_stage_no_evidence W topic [] eq_refl) as (tr2 & -> & Htr).
  exists tr2. split; [|exact Htr].
  cbn [fst snd]. unfold respond. rewrite Hfs. cbn [negb]. rewrite Hmd.
  unfold gather_events. change (got_text []) with 0%nat. cbn [Nat.eqb].
  rewrite expert_enabled_false by apply lookup_insert_eq.
  unfold AppCases.empty_search_report.
  by destruct (low_fetch_settings_ok W).
Qed.

(** When every call of the model fails, the synthesis ends with the
    draft. *)
Lemma synthesize_model_down W expert_mode topic (items : list Item) :
  (forall call, ask W call = None) ->
  exists tr, synthesize W expert_mode topic items
             = (Some (JStr (Report.build_fallback_markdown topic items)), tr).
Proof.
  intros Hask. unfold synthesize. destruct expert_mode.
  - unfold expert_stage. rewrite Hask. eexists. reflexivity.
  - unfold classic_stage. rewrite Hask.
    destruct (negb (has_evidence items)); rewrite draft_truthy; cbn [negb py_in];
      repeat (destruct (contains _ _)); eexists; reflexivity.
Qed.

(** X4: for items of a provider whose items hold strings (the direct
    search, the mock, the crawler): when every call of the model fails
    (its client cannot be built, three attempts fail, or the answer holds
    no message), the gathering does not raise, the report file can be
    written and the draft renders to HTML, the handler still answers 200:
    the report is the draft built from the gathered items, whichever mode
    was on.  The items of the LLM-driven search and of the protocol-tool
    search are left out: on a field of theirs that is no string the
    draft can raise. *)
Theorem model_outage_answers_with_draft
    W cfg (env : Env) topic ss0 fb items ss tr1 items_readable body :
  nonempty topic = true ->
  make_services urlparse_netloc cfg = Some (ss0, fb) ->
  search_phase W topic (lower (search_provider cfg)) ss0 fb = (items, ss, tr1) ->
  AppCases.string_items ss = true ->
  gather W ss items = Some items_readable ->
  (forall call, ask W call = None) ->
  fs_ok W = true ->
  md_to_html W (Report.build_fallback_markdown topic items_readable) = Some body ->
  exists r,
    (analyze urlparse_netloc W cfg env (Some topic)).1.1 = Ok200 r
    /\ markdown r = Report.build_fallback_markdown topic items_readable
    /\ html r = body.
Proof.
  intros Ht Hm Hs _ Hg Hask Hfs Hmd.
  rewrite (analyze_unfold urlparse_netloc W cfg env topic ss0 fb items ss tr1
             items_readable Ht Hm Hs Hg).
  cbn [fst]. unfold finish.
  destruct (synthesize_model_down W
              (expert_enabled (env_after_gather env items_readable))
              topic items_readable Hask) as [tr ->].
  cbn [fst]. unfold respond. rewrite Hfs. cbn [negb]. rewrite Hmd.
  eexists. split; [reflexivity|]. split; reflexivity.
Qed.

End HandlerMore.

(** A crawl that raises, with the crawler as only active provider:
    the draft for the topic alone is the answer. *)
Lemma empty_search_answers_with_draft_witness :
  let W := AppExample.world None in
  let cfg := AppExample.settings (py "crawler") in
  exists tr2,
    App.analyze AppExample.bare_netloc W cfg ∅ (Some (py "X"))
    = (App.Ok200 (AppCases.empty_search_report W cfg (py "X")
                    (Report.build_fallback_markdown (py "X") [])),
       <["EXPERT_MODE" := py "false"]> ∅,
       [App.Searched AppExample.crawler_obj; App.SearchFailed]
       ++ [App.Gathered AppExample.crawler_obj;
           App.SetEnv "EXPERT_MODE" (py "false")] ++ tr2)
    /\ (tr2 = [App.FellBack] \/ tr2 = [App.FellBack; App.FellBack]).
Proof.
  intros W cfg.
  apply (empty_search_answers_with_draft AppExample.bare_netloc W cfg ∅ (py "X")
           AppExample.crawler_obj (Some AppExample.crawler_ddgs_obj)
           AppExample.crawler_obj
           [App.Searched AppExample.crawler_obj; App.SearchFailed]).
  - reflexivity.
  - vm_compute. reflexivity.
  - vm_compute. reflexivity.
  - eexists. reflexivity.
  - reflexivity.
  - reflexivity.
Defined.

(** The mock provider gathers three articles; with the model out of
    reach the answer is the draft built from them. *)
Lemma model_outage_answers_with_draft_witness :
  exists r,
    (App.analyze AppExample.bare_netloc (AppCases.model_down (AppExample.world None))
       (AppExample.settings (py "mock")) ∅ (Some (py "X"))).1.1 = App.Ok200 r
    /\ App.markdown r
       = Report.build_fallback_markdown (py "X") AppExample.mock_readables
    /\ App.html r
       = Report.build_fallback_markdown (py "X") AppExample.mock_readables.
Proof.
  apply (model_outage_answers_with_draft AppExample.bare_netloc
           (AppCases.model_down (AppExample.world None))
           (AppExample.settings (py "mock")) ∅ (py "X")
           AppExample.mock_obj None
           (Ranking.MockSearchService_rank AppExample.bare_netloc
              Fetch.default_service AppExample.mock_samples)
           AppExample.mock_obj [App.Searched AppExample.mock_obj]
           AppExample.mock_readables).
  - reflexivity.
  - vm_compute. reflexivity.
  - exact eq_refl.
  - reflexivity.
  - exact eq_refl.
  - intros call. reflexivity.
  - reflexivity.
  - reflexivity.
Defined.

(** ** The draft and the marker of a model outage *)

Section DraftAlphabet.

Import Report.

(** A character [c] of the outage marker that the literals of the draft
    do not hold. *)
Variable c : N.
Hypothesis Hrare : c ∈ AppCases.outage_marker_rare.

Lemma literal_lacks (lit : str) :
  forallb (fun x => negb (bool_decide (x ∈ AppCases.outage_marker_rare))) lit = true ->
  c ∉ lit.
Proof using Hrare.
  intros H Hin. rewrite forallb_forall in H.
  specialize (H c (proj1 (list_elem_of_In _ _) Hin)).
  by rewrite bool_decide_eq_true_2 in H.
Qed.

Ltac lit := apply literal_lacks; vm_compute; reflexivity.

Lemma rare_not_digit : is_digit c = false.
Proof using Hrare.
  destruct (is_digit c) eqn:E; [|reflexivity]. exfalso.
  unfold is_digit in E. apply andb_true_iff in E as [E1 E2].
  apply N.leb_le in E1, E2.
  assert (Hbig : forallb (fun x => (57 <? x)%N) AppCases.outage_marker_rare = true)
    by (vm_compute; reflexivity).
  rewrite forallb_forall in Hbig.
  specialize (Hbig c (proj1 (list_elem_of_In _ _) Hrare)).
  apply N.ltb_lt in Hbig. lia.
Qed.

Lemma dec_digits_digits fuel : forall n acc,
  Forall (fun x => is_digit x = true) acc ->
  Forall (fun x => is_digit x = true) (dec_digits fuel n acc).
Proof.
  induction fuel as [|f IH]; intros n acc Hacc; simpl; [exact Hacc|].
  assert (Hd : is_digit (48 + n mod 10)%N = true).
  { unfold is_digit. apply andb_true_iff.
    assert (n mod 10 < 10)%N as Hm by (apply N.mod_upper_bound; lia).
    revert Hm. generalize (n mod 10)%N. intros m Hm.
    split; apply N.leb_le; lia. }
  destruct (n <? 10)%N; [by constructor|]. apply IH. by constructor.
Qed.

Lemma str_of_nat_lacks n : c ∉ str_of_nat n.
Proof using Hrare.
  intros Hin. unfold str_of_nat, str_of_N in Hin.
  pose proof (dec_digits_digits (S (N.to_nat (N.log2 (N.of_nat n)))) (N.of_nat n) []
                (List.Forall_nil _)) as H.
  rewrite Forall_forall in H. specialize (H c Hin).
  by rewrite rare_not_digit in H.
Qed.

Lemma join_lacks (sep : str) (parts : list str) :
  c ∉ sep -> Forall (fun p => c ∉ p) parts -> c ∉ join sep parts.
Proof.
  intros Hsep Hall. induction Hall as [|p parts Hp Hparts IH]; simpl.
  - apply not_elem_of_nil.
  - destruct parts as [|q parts]; [exact Hp|].
    rewrite !not_elem_of_app. by repeat split.
Qed.

Lemma str_or_lacks (a b : str) : c ∉ a -> c ∉ b -> c ∉ str_or a b.
Proof. intros Ha Hb. unfold str_or. by destruct (nonempty a). Qed.

Lemma lstrip_by_lacks p (s : str) : c ∉ s -> c ∉ lstrip_by p s.
Proof.
  intros Hs Hin. apply Hs.
  destruct (lstrip_by_split p s) as (k & Hk & _). rewrite Hk, elem_of_app. by right.
Qed.

Lemma strip_lacks (s : str) : c ∉ s -> c ∉ strip s.
Proof.
  intros Hs Hin. apply (lstrip_by_lacks is_space s Hs).
  destruct (rstrip_by_split is_space (lstrip_by is_space s)) as (q & Hq & _).
  rewrite Hq, elem_of_app. by left.
Qed.

Lemma firstn_lacks n (s : str) : c ∉ s -> c ∉ firstn n s.
Proof.
  intros Hs Hin. apply Hs. rewrite <- (firstn_skipn n s), elem_of_app. by left.
Qed.

Lemma replace_char_lacks a b (s : str) : c <> b -> c ∉ s -> c ∉ replace_char a b s.
Proof.
  intros Hb Hs Hin. unfold replace_char in Hin.
  apply list_elem_of_fmap in Hin as (x & Hx & Hin).
  destruct (x =? a)%N; [congruence|]. apply Hs. by rewrite Hx.
Qed.

Lemma ellipsize_lacks n (s : str) : c ∉ s -> c ∉ ellipsize n s.
Proof using Hrare.
  intros Hs. unfold ellipsize. destruct (n <? length s)%nat; [|exact Hs].
  apply not_elem_of_app. split; [by apply firstn_lacks|lit].
Qed.

Lemma rare_not_space : c <> SPACE.
Proof using Hrare.
  intros ->. revert Hrare. apply (bool_decide_eq_false_1 (SPACE ∈ _)).
  vm_compute. reflexivity.
Qed.

(** *** The sources counted *)

Lemma bump_keys src (d : list (str * nat)) p :
  p ∈ bump src d -> p.1 = src \/ exists q, q ∈ d /\ q.1 = p.1.
Proof.
  induction d as [|[k n] d IH]; simpl.
  - intros ->%list_elem_of_singleton. by left.
  - destruct (decide (k = src)) as [->|Hne].
    + intros [->|Hin]%elem_of_cons; [by left|].
      right. exists p. split; [by apply list_elem_of_further|done].
    + intros [->|Hin]%elem_of_cons.
      * right. exists (k, n). split; [apply list_elem_of_here|done].
      * destruct (IH Hin) as [?|(q & Hq & Hk)]; [by left|].
        right. exists q. split; [by apply list_elem_of_further|done].
Qed.

Lemma count_sources_keys (items : list Item) p :
  p ∈ count_sources items -> exists it, it ∈ items /\ p.1 = get it "source".
Proof.
  unfold count_sources.
  assert (Hgen : forall acc,
             p ∈ fold_left (fun d it =>
                              let src := get it "source" in
                              if nonempty src then bump src d else d) items acc ->
             (exists q, q ∈ acc /\ q.1 = p.1)
             \/ exists it, it ∈ items /\ p.1 = get it "source").
  { induction items as [|it items IH]; intros acc H; simpl in H.
    - left. by exists p.
    - apply IH in H as [(q & Hq & Hk)|(it' & Hit & Hk)].
      + destruct (nonempty (get it "source")).
        * apply bump_keys in Hq as [Hsrc|(q' & Hq' & Hk')].
          -- right. exists it. split; [apply list_elem_of_here|congruence].
          -- left. exists q'. split; [done|congruence].
        * left. by exists q.
      + right. exists it'. split; [by apply list_elem_of_further|done]. }
  intros H. destruct (Hgen [] H) as [(q & Hq & _)|?]; [|done].
  by apply not_elem_of_nil in Hq.
Qed.

Lemma insert_sorted_elem x (l : list (str * nat)) p :
  p ∈ insert_sorted x l -> p = x \/ p ∈ l.
Proof.
  induction l as [|y l IH]; simpl.
  - intros ->%list_elem_of_singleton. by left.
  - destruct (before x y).
    + intros [->|Hin]%elem_of_cons; [by left|by right].
    + intros [->|Hin]%elem_of_cons; [right; apply list_elem_of_here|].
      destruct (IH Hin) as [->|?]; [by left|right; by apply list_elem_of_further].
Qed.

Lemma sorted_sources_elem (d : list (str * nat)) p : p ∈ sorted_sources d -> p ∈ d.
Proof.
  unfold sorted_sources. induction d as [|x d IH]; simpl; [done|].
  intros [->|Hin]%insert_sorted_elem; [apply list_elem_of_here|].
  apply list_elem_of_further. by apply IH.
Qed.

Variable items : list Item.
Hypothesis Hfields :
  Forall (fun it : Item => Forall (fun k => c ∉ get it k) AppCases.draft_fields) items.

Lemma field_lacks (it : Item) k :
  it ∈ items -> k ∈ AppCases.draft_fields -> c ∉ get it k.
Proof using Hfields.
  intros Hit Hk. rewrite Forall_forall in Hfields.
  specialize (Hfields it Hit). rewrite Forall_forall in Hfields. by apply Hfields.
Qed.

Ltac field :=
  apply field_lacks; [assumption|];
  unfold AppCases.draft_fields;
  repeat first [apply list_elem_of_here | apply list_elem_of_further].

Lemma dom_text_lacks : c ∉ dom_text items.
Proof using Hrare Hfields.
  unfold dom_text. destruct (count_sources items) as [|p0 d] eqn:E; [lit|].
  apply join_lacks; [lit|]. apply Forall_forall. intros s Hs.
  apply list_elem_of_fmap in Hs as (p & -> & Hp).
  assert (Hp' : p ∈ count_sources items).
  { rewrite E. apply sorted_sources_elem.
    rewrite <- (firstn_skipn 8 (sorted_sources (p0 :: d))), elem_of_app. by left. }
  apply count_sources_keys in Hp' as (it & Hit & Hk).
  rewrite !not_elem_of_app. split; [|split].
  - rewrite Hk. field.
  - lit.
  - apply str_of_nat_lacks.
Qed.

Lemma first_of_lacks (it : Item) a b k (d : str) :
  it ∈ items ->
  a ∈ AppCases.draft_fields -> b ∈ AppCases.draft_fields ->
  k ∈ AppCases.draft_fields -> c ∉ d ->
  c ∉ first_of it a b k d.
Proof using Hfields.
  intros Hit Ha Hb Hk Hd. unfold first_of.
  repeat apply str_or_lacks; try done; by apply field_lacks.
Qed.

Ltac first_of :=
  apply first_of_lacks; [assumption| | | |lit];
  unfold AppCases.draft_fields;
  repeat first [apply list_elem_of_here | apply list_elem_of_further].

Lemma issue_lines_cons (it : Item) (l : list Item) :
  issue_lines (it :: l)
  = if nonempty (article_text_of it) then
      let bullet :=
        py "- [" ++ first_of it "article_title" "title" "source" (py "未命名")
        ++ py "](" ++ str_or (get it "href") (get it "url")
        ++ py ") — " ++ get it "source" in
      let snippet :=
        ellipsize 180 (replace_char LF SPACE (strip (article_text_of it))) in
      if nonempty snippet
      then bullet :: (py "  " ++ [LF] ++ py "  摘要（正文摘录）：" ++ snippet)
                  :: issue_lines l
      else bullet :: issue_lines l
    else issue_lines l.
Proof. reflexivity. Qed.

Lemma issue_lines_lack (l : list Item) :
  l ⊆ items -> Forall (fun s => c ∉ s) (issue_lines l).
Proof using Hrare Hfields.
  induction l as [|it l IH]; intros Hsub; [constructor|].
  rewrite issue_lines_cons. cbv zeta.
  assert (Hit : it ∈ items) by (apply Hsub, list_elem_of_here).
  assert (Hl : l ⊆ items) by (intros x Hx; by apply Hsub, list_elem_of_further).
  assert (Hbullet :
            c ∉ py "- [" ++ first_of it "article_title" "title" "source" (py "未命名")
                ++ py "](" ++ str_or (get it "href") (get it "url")
                ++ py ") — " ++ get it "source").
  { rewrite !not_elem_of_app. repeat split;
      [lit|first_of|lit|apply str_or_lacks; field|lit|field]. }
  assert (Hsnip :
            c ∉ ellipsize 180 (replace_char LF SPACE (strip (article_text_of it)))).
  { apply ellipsize_lacks, replace_char_lacks; [apply rare_not_space|].
    unfold article_text_of. do 2 apply strip_lacks. field. }
  destruct (nonempty (article_text_of it)); [|by apply IH].
  destruct (nonempty (ellipsize _ _)).
  - constructor; [exact Hbullet|]. constructor; [|by apply IH].
    rewrite !not_elem_of_app. repeat split; [lit|lit|lit|exact Hsnip].
  - constructor; [exact Hbullet|by apply IH].
Qed.

Lemma reference_lines_lack (l : list Item) :
  l ⊆ items -> Forall (fun s => c ∉ s) (reference_lines l).
Proof using Hrare Hfields.
  intros Hsub. unfold reference_lines. apply Forall_forall. intros s Hs.
  apply list_elem_of_fmap in Hs as (it & -> & Hit). apply Hsub in Hit.
  rewrite !not_elem_of_app. repeat split;
    [lit|first_of|lit|apply str_or_lacks; field|lit|field].
Qed.

Lemma draft_lacks topic : c ∉ topic -> c ∉ build_fallback_markdown topic items.
Proof using Hrare Hfields.
  intros Htopic. unfold build_fallback_markdown.
  apply join_lacks; [lit|].
  repeat first
    [ apply Forall_app; split
    | apply issue_lines_lack; done
    | apply reference_lines_lack; done
    | apply Forall_nil
    | apply Forall_cons; split ];
    rewrite ?not_elem_of_app;
    repeat split;
    first [ lit | apply not_elem_of_nil | apply str_of_nat_lacks
          | apply dom_text_lacks | apply str_or_lacks; [exact Htopic|lit] ].
Qed.

End DraftAlphabet.

Lemma startswith_elem (p s : str) (x : N) : startswith p s = true -> x ∈ p -> x ∈ s.
Proof.
  unfold startswith. destruct (strip_prefix p s) as [r|] eqn:E; [|done].
  intros _ Hx. apply strip_prefix_split in E as ->. rewrite elem_of_app. by left.
Qed.

Lemma contains_elem (p s : str) (x : N) : contains p s = true -> x ∈ p -> x ∈ s.
Proof.
  induction s as [|y s IH]; simpl.
  - rewrite orb_false_r. apply startswith_elem.
  - intros [H|H]%orb_true_iff Hx; [by eapply startswith_elem|].
    apply list_elem_of_further. by apply IH.
Qed.

Lemma respond_fallback W cfg (env : App.Env) md se got total r :
  App.respond W cfg env (JStr md) se got total = App.Ok200 r ->
  App.fallback r
  = if se then py "检索为空，已返回草稿报告"
    else if contains App.model_down_marker md
         then py "LLM 调用失败，已返回草稿报告"
         else [].
Proof.
  unfold App.respond. intros H.
  destruct (negb (App.fs_ok W)); [discriminate H|].
  destruct (App.md_to_html W md); [|discriminate H].
  injection H as <-. reflexivity.
Qed.

(** X5: the draft never carries the marker by which the handler tells a
    model outage.  For a character [c] among [说 明 由 于 暂 不], which the
    marker holds and no literal of the draft does: when [c] occurs neither
    in the topic nor in a field of an item that the draft reads, the draft
    does not contain the marker; so a 200 answer whose report is the draft,
    after a search that found something, has an empty [fallback] field
    even when the draft stands in for a model that failed. *)
Theorem draft_never_reports_model_outage (c : N) (topic : str) (items : list Item) :
  c ∈ AppCases.outage_marker_rare ->
  c ∉ topic ->
  Forall (fun it : Item => Forall (fun k => c ∉ get it k) AppCases.draft_fields) items ->
  contains App.model_down_marker (Report.build_fallback_markdown topic items) = false
  /\ forall W cfg env got total r,
       App.respond W cfg env (JStr (Report.build_fallback_markdown topic items))
         false got total = App.Ok200 r ->
       App.fallback r = [].
Proof.
  intros Hrare Htopic Hfields.
  assert (Hno : contains App.model_down_marker
                  (Report.build_fallback_markdown topic items) = false).
  { destruct (contains _ _) eqn:E; [exfalso|reflexivity].
    apply (draft_lacks c Hrare items Hfields topic Htopic).
    apply (contains_elem _ _ c E).
    assert (Hsub : forallb (fun x => bool_decide (x ∈ App.model_down_marker))
                     AppCases.outage_marker_rare = true) by (vm_compute; reflexivity).
    rewrite forallb_forall in Hsub.
    specialize (Hsub c (proj1 (list_elem_of_In _ _) Hrare)).
    by apply bool_decide_eq_true_1 in Hsub. }
  split; [exact Hno|].
  intros W cfg env got total r H.
  rewrite (respond_fallback _ _ _ _ _ _ _ _ H). by rewrite Hno.
Qed.

(** The draft for the three articles of the mock provider. *)
Lemma draft_never_reports_model_outage_witness :
  contains App.model_down_marker
    (Report.build_fallback_markdown (py "X") AppExample.mock_readables) = false
  /\ forall W cfg env got total r,
       App.respond W cfg env
         (JStr (Report.build_fallback_markdown (py "X") AppExample.mock_readables))
         false got total = App.Ok200 r ->
       App.fallback r = [].
Proof.
  apply (draft_never_reports_model_outage 26242%N).
  - apply (bool_decide_eq_true_1 (26242%N ∈ AppCases.outage_marker_rare)).
    vm_compute. reflexivity.
  - apply (bool_decide_eq_false_1 (26242%N ∈ py "X")). vm_compute. reflexivity.
  - apply Forall_forall. intros it Hit. apply Forall_forall. intros k Hk.
    revert it Hit k Hk.
    apply (Forall_forall (fun it : Item =>
             forall k, k ∈ AppCases.draft_fields -> 26242%N ∉ get it k)).
    repeat constructor; intros k Hk;
      apply (Forall_forall (fun k => 26242%N ∉ get _ k) AppCases.draft_fields);
      try exact Hk;
      repeat constructor;
      match goal with
      | |- ?x ∉ ?l => apply (bool_decide_eq_false_1 (x ∈ l)); vm_compute; reflexivity
      end.
Defined.

(** ** The searches of the mock and of the direct provider *)

Lemma filter_disjoint_length {A} (p q : A -> bool) (l : list A) :
  (forall x, p x && q x = false) ->
  (length (List.filter p l) + length (List.filter q l) <= length l)%nat.
Proof.
  intros Hpq. induction l as [|x l IH]; [reflexivity|].
  cbn [List.filter]. specialize (Hpq x).
  destruct (p x), (q x); cbn [length] in *; try discriminate; lia.
Qed.

Section SearchFacts.

Variable urlparse_netloc : str -> option str.

(** What the ranking returns was in its input and is not blacklisted. *)
Lemma rank_In self url_of (items : list Item) (it : Item) :
  In it (Ranking.rank urlparse_netloc self url_of items) ->
  In it items
  /\ Ranking.is_blacklisted self (Ranking.domain_of urlparse_netloc (url_of it)) = false.
Proof.
  unfold Ranking.rank. rewrite rank_loop. cbn [app].
  intros H%slice_to_In. apply in_app_or in H as [H|H].
  - apply filter_In in H as [Hin Hp]. apply andb_prop in Hp as [Hb _].
    split; [done|by apply negb_true_iff].
  - destruct (Ranking.only_trusted self); [done|].
    apply filter_In in H as [Hin Hp]. apply andb_prop in Hp as [Hb _].
    split; [done|by apply negb_true_iff].
Qed.

(** The ranking never returns more than it was given. *)
Lemma rank_length self url_of (items : list Item) :
  (length (Ranking.rank urlparse_netloc self url_of items) <= length items)%nat.
Proof.
  unfold Ranking.rank. rewrite rank_loop. cbn [app].
  etrans; [apply prefix_length, slice_to_prefix|].
  destruct (Ranking.only_trusted self).
  - rewrite app_nil_r. apply sublist_length, filter_sublist_of.
  - rewrite length_app. apply filter_disjoint_length.
    intros x. destruct (negb _); [|reflexivity].
    by destruct (Ranking.in_trusted_set _ _).
Qed.

(** The ranking reads an item through its URL alone: a change of the
    items that keeps the URL goes through it. *)
Lemma rank_map self url_of (f : Item -> Item) (items : list Item) :
  (forall it, url_of (f it) = url_of it) ->
  Ranking.rank urlparse_netloc self url_of (map f items)
  = map f (Ranking.rank urlparse_netloc self url_of items).
Proof.
  intros Hf. unfold Ranking.rank. rewrite !rank_loop. cbn [app].
  assert (Hfilter : forall p : str -> bool,
             List.filter (fun it => p (url_of it)) (map f items)
             = map f (List.filter (fun it => p (url_of it)) items)).
  { intros p. induction items as [|it items IH]; [reflexivity|].
    cbn [map List.filter]. rewrite Hf.
    destruct (p (url_of it)); cbn [map]; by rewrite IH. }
  rewrite (Hfilter (fun u =>
             negb (Ranking.is_blacklisted self (Ranking.domain_of urlparse_netloc u))
             && Ranking.in_trusted_set self (Ranking.domain_of urlparse_netloc u))).
  rewrite (Hfilter (fun u =>
             negb (Ranking.is_blacklisted self (Ranking.domain_of urlparse_netloc u))
             && negb (Ranking.in_trusted_set self (Ranking.domain_of urlparse_netloc u)))).
  unfold slice_to.
  destruct (Ranking.only_trusted self); rewrite ?app_nil_r, <- ?map_app;
    destruct (0 <=? _); rewrite ?length_map; by rewrite firstn_map.
Qed.

Lemma normalize_keys_url (r : Item) :
  str_or (get (DirectSearch.normalize_keys r) "href")
         (get (DirectSearch.normalize_keys r) "link")
  = str_or (get r "href") (get r "link").
Proof.
  unfold DirectSearch.normalize_keys, get.
  destruct (r !! "href") as [h|] eqn:Eh; [by rewrite ?Eh|].
  destruct (r !! "link") as [l|] eqn:El; [|by rewrite ?Eh, ?El].
  rewrite ?lookup_insert_eq, ?lookup_insert_ne by done. rewrite ?El.
  unfold str_or, id. cbn [default]. by destruct (nonempty l).
Qed.

(** X6: the direct search ranks what the engine returned and gives each
    hit that came with a [link] and no [href] an [href] of the same value;
    the two steps do not interfere, since the rule reads [href or link].
    Every returned item that has a [link] has an [href], none has a
    blacklisted domain, and there are at most [max_results] of them. *)
Theorem direct_search_normalizes_and_ranks
    (self : Ranking.Service) (ddgs_text : str -> Z -> option (list Item))
    (query : str) :
  DirectSearch.search urlparse_netloc self ddgs_text query
  = (fun results =>
       map DirectSearch.normalize_keys
         (Ranking.SearchService_rank_results urlparse_netloc self results))
    <$> ddgs_text query (Ranking.max_results self * 2)
  /\ forall found,
       DirectSearch.search urlparse_netloc self ddgs_text query = Some found ->
       (0 <= Ranking.max_results self ->
        Z.of_nat (length found) <= Ranking.max_results self)
       /\ forall it, In it found ->
            (is_Some (it !! "link") -> is_Some (it !! "href"))
            /\ Ranking.is_blacklisted self
                 (Ranking.domain_of urlparse_netloc
                    (str_or (get it "href") (get it "link"))) = false.
Proof.
  assert (Heq : DirectSearch.search urlparse_netloc self ddgs_text query
                = (fun results =>
                     map DirectSearch.normalize_keys
                       (Ranking.SearchService_rank_results urlparse_netloc self results))
                  <$> ddgs_text query (Ranking.max_results self * 2)).
  { unfold DirectSearch.search.
    destruct (ddgs_text query _) as [results|]; [|reflexivity]. cbn.
    unfold Ranking.SearchService_rank_results.
    by rewrite (rank_map self _ DirectSearch.normalize_keys results normalize_keys_url). }
  split; [exact Heq|].
  intros found Hfound. rewrite Heq in Hfound.
  destruct (ddgs_text query _) as [results|]; [|discriminate Hfound].
  injection Hfound as <-. split.
  - intros Hmax. rewrite length_map.
    unfold Ranking.SearchService_rank_results, Ranking.rank.
    destruct (fold_left _ _ _). by apply slice_to_length.
  - intros it Hin. apply in_map_iff in Hin as (r & <- & Hr).
    apply rank_In in Hr as [_ Hb]. split.
    + unfold DirectSearch.normalize_keys. intros Hlink.
      destruct (r !! "href") as [h|] eqn:Eh; [by rewrite Eh|].
      destruct (r !! "link") as [l|] eqn:El.
      * rewrite lookup_insert_eq. by eexists.
      * rewrite El in Hlink. by destruct Hlink.
    + by rewrite normalize_keys_url.
Qed.

(** X7: whatever its settings, every item the mock provider gathers from
    the hits of its own search carries the article prepared for it: the
    text is not empty and the article title is the title of the hit.  So
    the count of extracted texts equals the number of gathered items, and
    a request served by the mock provider loses the expert mode only when
    the ranking leaves no hit at all. *)
Theorem mock_provider_gathers_text_for_every_hit
    (self : Ranking.Service) (query : str) :
  let found := MockSearch.search urlparse_netloc self query in
  let read := Fetch.MockSearchService_gather_readables self found in
  Forall (fun it : Item => App.has_text it = true
                           /\ it !! "article_title" = it !! "title") read
  /\ App.got_text read = length read
  /\ (length read <= 3)%nat.
Proof.
  intros found read.
  assert (Hall : Forall (fun it : Item => App.has_text it = true
                           /\ it !! "article_title" = it !! "title") read).
  { subst read. unfold Fetch.MockSearchService_gather_readables.
    rewrite gather_with_map. apply Forall_forall. intros it Hit.
    apply list_elem_of_fmap in Hit as (hit & -> & Hhit).
    apply list_elem_of_In, slice_to_In in Hhit.
    subst found. unfold MockSearch.search, Ranking.MockSearchService_rank in Hhit.
    apply rank_In in Hhit as [Hhit _].
    assert (Hsamples :
              forallb (fun hit : Item =>
                         let it := Fetch.enrich hit
                                     (Fetch.MockSearchService_fetch_readable (hit !! "href")) in
                         App.has_text it
                         && bool_decide (it !! "article_title" = it !! "title"))
                      AppExample.mock_samples = true)
      by (vm_compute; exact eq_refl).
    rewrite forallb_forall in Hsamples. specialize (Hsamples hit Hhit).
    cbv zeta in Hsamples. apply andb_prop in Hsamples as [Ht Heq].
    split; [exact Ht|]. by apply bool_decide_eq_true_1 in Heq. }
  split; [exact Hall|]. split.
  - unfold App.got_text. clear -Hall.
    induction Hall as [|it l [Ht _] _ IH]; [reflexivity|].
    cbn [List.filter]. rewrite Ht. cbn [length]. by rewrite IH.
  - subst read. unfold Fetch.MockSearchService_gather_readables.
    rewrite gather_with_map, length_map.
    etrans; [apply prefix_length, slice_to_prefix|].
    subst found. unfold MockSearch.search, Ranking.MockSearchService_rank.
    etrans; [apply rank_length|]. reflexivity.
Qed.

End SearchFacts.

(** ** The crawl: which domains, which links, how many *)

Lemma concat_length_bound {A} (f : str -> list A) (lim : Z) (ds : list str) :
  (forall d, Z.of_nat (length (f d)) <= lim) ->
  Z.of_nat (length (concat (map f ds))) <= lim * Z.of_nat (length ds).
Proof.
  intros Hf. induction ds as [|d ds IH]; [simpl; lia|].
  cbn [map concat]. rewrite length_app, length_cons.
  rewrite Nat2Z.inj_succ, Z.mul_succ_r, Nat2Z.inj_add.
  specialize (Hf d). lia.
Qed.

Section CrawlFacts2.

Import Crawler.

Variable urljoin : str -> str -> option str.
Variable hostname : str -> option str.

(** X8: a crawl visits each trusted domain once, however often the
    list names it, and touches the suppression record of no other domain:
    the seed list has no repetition and holds exactly the trusted domains,
    one task runs per seed, and after the search the store agrees with the
    store before it on every domain outside the trusted list. *)
Theorem crawl_visits_each_trusted_domain_once
    (self : CrawlerService) (w : World) (store : SuppressStore) :
  let seeds := seed_domains (trusted_domains self) in
  NoDup seeds
  /\ (forall d, d ∈ seeds <-> d ∈ trusted_domains self)
  /\ (forall kws : list str,
        length (run_domains urljoin hostname self w kws seeds store).1 = length seeds)
  /\ (forall d, d ∉ trusted_domains self ->
        (search urljoin hostname self w store).2 !! d = store !! d).
Proof.
  intros seeds.
  destruct (seed_domains_spec (trusted_domains self)) as [Hnd Hseeds].
  fold seeds in Hnd, Hseeds.
  split; [exact Hnd|]. split; [exact Hseeds|]. split.
  { intros kws. apply (run_domains_spec urljoin hostname self w kws seeds store). }
  intros d Hd. unfold search. destruct (keywords w) as [kws|]; [|reflexivity].
  destruct (client_ok w); [|reflexivity].
  fold seeds.
  destruct (run_domains_spec urljoin hostname self w kws seeds store) as [_ Hframe].
  specialize (Hframe d).
  destruct (run_domains _ _ _ _ _ _ _) as [rs store']. cbn [snd] in *.
  apply Hframe. by rewrite Hseeds.
Qed.


(** X10: a page scan that starts below the limit takes, in page order,
    the first anchors that stay on the site (or on an alias of it), match
    a keyword in their text or their URL and carry no video marker, until
    the limit is reached: nothing else is added, and what was collected
    before stays in front. *)
Theorem scan_anchors_selects
    (self : CrawlerService) (kws : list str) (domain base : str)
    (l : list (str * str)) (items : list Item) :
  Z.of_nat (length items) < per_site_limit self ->
  scan_anchors urljoin hostname self kws domain base l items
  = items
    ++ firstn (Z.to_nat (per_site_limit self) - length items)
         (map (CrawlerPages.item_of_anchor urljoin domain base)
            (List.filter (CrawlerPages.takes urljoin hostname kws domain base) l)).
Proof.
  revert items. induction l as [|[href text] l IH]; intros items Hlt.
  - cbn [scan_anchors List.filter map]. by rewrite firstn_nil, app_nil_r.
  - cbn [scan_anchors List.filter]. unfold CrawlerPages.takes at 1. cbn [fst snd].
    destruct (_is_same_site _ domain domain_aliases); cbn [negb andb]; [|by apply IH].
    set (hit := existsb (fun kw => contains kw text) kws
                || existsb (fun kw => contains kw (_normalize_url urljoin href base)) kws).
    destruct hit; cbn [andb].
    + destruct (existsb _ video_markers); cbn [negb]; [by apply IH|].
      cbn [map].
      set (it := <["source" := domain]>
                   (<["title" := anchor_title text]>
                    (<["href" := _normalize_url urljoin href base]> ∅))).
      change (CrawlerPages.item_of_anchor urljoin domain base (href, text)) with it.
      destruct (per_site_limit self <=? Z.of_nat (length (items ++ [it]))) eqn:E.
      * apply Z.leb_le in E. rewrite length_app in E. cbn [length] in E.
        replace (Z.to_nat (per_site_limit self) - length items)%nat with 1%nat by lia.
        cbn [firstn]. by rewrite firstn_O.
      * apply Z.leb_gt in E. rewrite IH by done.
        rewrite length_app in *. cbn [length] in *.
        replace (Z.to_nat (per_site_limit self) - length items)%nat
          with (S (Z.to_nat (per_site_limit self) - (length items + 1)))%nat by lia.
        cbn [firstn]. by rewrite <- app_assoc.
    + assert (E : (per_site_limit self <=? Z.of_nat (length items)) = false)
        by (apply Z.leb_gt; lia).
      rewrite E. by apply IH.
Qed.

End CrawlFacts2.


(** The home page of the example: its one anchor leads to the alias host
    and names the keyword. *)
Lemma scan_anchors_selects_witness :
  Crawler.scan_anchors CrawlExample.urljoin CrawlExample.hostname
    CrawlExample.crawler [py "汽车"] (py "xinhuanet.com") (py "https://xinhuanet.com/")
    [(py "https://news.cn/auto/1.htm", py "新能源<b>汽车</b>销量");
     (py "https://example.org/汽车", py "汽车")] []
  = [] ++ firstn (Z.to_nat 5 - 0)
            (map (CrawlerPages.item_of_anchor CrawlExample.urljoin
                    (py "xinhuanet.com") (py "https://xinhuanet.com/"))
               (List.filter
                  (CrawlerPages.takes CrawlExample.urljoin CrawlExample.hostname
                     [py "汽车"] (py "xinhuanet.com") (py "https://xinhuanet.com/"))
                  [(py "https://news.cn/auto/1.htm", py "新能源<b>汽车</b>销量");
                   (py "https://example.org/汽车", py "汽车")])).
Proof.
  apply (scan_anchors_selects CrawlExample.urljoin CrawlExample.hostname
           CrawlExample.crawler).
  vm_compute. reflexivity.
Defined.

(** ** The LLM-driven search *)

Lemma rstrip_by_snoc p (s : str) (c : N) :
  rstrip_by p (s ++ [c]) = if p c then rstrip_by p s else s ++ [c].
Proof.
  unfold rstrip_by. rewrite rev_app_distr. cbn [rev app lstrip_by].
  destruct (p c); [reflexivity|].
  cbn [rev]. by rewrite rev_involutive.
Qed.

Lemma rstrip_by_app_all p (s q : str) :
  Forall (fun c => p c = true) q -> rstrip_by p (s ++ q) = rstrip_by p s.
Proof.
  induction q as [|c q IH] using rev_ind; intros Hq.
  - by rewrite app_nil_r.
  - apply Forall_app in Hq as [Hq Hc]. apply Forall_inv in Hc.
    rewrite app_assoc, rstrip_by_snoc, Hc. by apply IH.
Qed.

Lemma NoDup_filter_parts {A B} (f : A -> B) (p q : A -> bool) (l : list A) :
  (forall x, p x && q x = false) ->
  NoDup (map f l) -> NoDup (map f (List.filter p l ++ List.filter q l)).
Proof.
  intros Hpq. induction l as [|x l IH]; intros Hnd; [constructor|].
  cbn [map] in Hnd. apply NoDup_cons in Hnd as [Hx Hnd]. specialize (IH Hnd).
  assert (Hsub : forall y, y ∈ map f (List.filter p l ++ List.filter q l) ->
                           y ∈ map f l).
  { intros y Hy. apply list_elem_of_fmap in Hy as (z & -> & Hz).
    apply list_elem_of_fmap. exists z. split; [done|].
    apply elem_of_app in Hz as [Hz|Hz];
      apply list_elem_of_In, filter_In in Hz as [Hz _]; by apply list_elem_of_In. }
  cbn [List.filter]. specialize (Hpq x).
  destruct (p x), (q x); try discriminate Hpq.
  - cbn [app map]. apply NoDup_cons. split; [|exact IH].
    intros Hin. apply Hx. by apply Hsub.
  - rewrite map_app. cbn [map].
    rewrite map_app in IH, Hsub.
    apply NoDup_app in IH as (H1 & H2 & H3).
    apply NoDup_app. split; [exact H1|]. split.
    + intros y Hy [->|Hy']%elem_of_cons.
      * apply Hx, Hsub, elem_of_app. by left.
      * by apply (H2 y).
    + apply NoDup_cons. split; [|exact H3].
      intros Hin. apply Hx, Hsub, elem_of_app. by right.
  - exact IH.
Qed.

Section LLMSearchFacts.

Import LLMSearch.

Variable urlparse_netloc : str -> option str.
Variable is_word : N -> bool.

Local Abbreviation domain_of_value := (domain_of_value urlparse_netloc).
Local Abbreviation item_of := (item_of urlparse_netloc).
Local Abbreviation items_of := (items_of urlparse_netloc).
Local Abbreviation url_item := (url_item urlparse_netloc).
Local Abbreviation _rank_results := (_rank_results urlparse_netloc).
Local Abbreviation rank_step := (rank_step urlparse_netloc).
Local Abbreviation chat_result := (chat_result urlparse_netloc is_word).
Local Abbreviation responses_result := (responses_result urlparse_netloc).
Local Abbreviation read_response := (read_response urlparse_netloc is_word).
Local Abbreviation call := (call urlparse_netloc is_word).
Local Abbreviation search := (search urlparse_netloc is_word).
Local Abbreviation match_url := (match_url is_word).
Local Abbreviation findall_urls := (findall_urls is_word).
Local Abbreviation ranked_items_spec := (ranked_items_spec urlparse_netloc).

(** *** The base of the API *)

Lemma endswith_app (p b : str) : endswith p (b ++ p) = true.
Proof. unfold endswith. rewrite rev_app_distr. apply startswith_app. Qed.

Lemma endswith_split (p s : str) : endswith p s = true -> exists b, s = b ++ p.
Proof.
  unfold endswith, startswith. destruct (strip_prefix (rev p) (rev s)) as [r|] eqn:E; [|done].
  intros _. apply strip_prefix_split in E. exists (rev r).
  apply (f_equal (@rev N)) in E. by rewrite rev_app_distr, !rev_involutive in E.
Qed.

Lemma rstrip_slash_v1 (x : str) : endswith (py "/v1") x = true -> rstrip_slash x = x.
Proof.
  intros [b ->]%endswith_split. unfold rstrip_slash.
  change (py "/v1") with ([47; 118]%N ++ [49%N]). rewrite app_assoc.
  by rewrite rstrip_by_snoc.
Qed.

Lemma base_api_of_raw (x : str) :
  nonempty x = true -> rstrip_slash x = x ->
  base_api (Some x) = if endswith (py "/v1") x then x else x ++ py "/v1".
Proof.
  intros Hne Hx. unfold base_api. change (default [] (Some x)) with x.
  unfold str_or. rewrite Hne. by rewrite Hx.
Qed.

Lemma base_api_ends (base_url : option str) :
  endswith (py "/v1") (base_api base_url) = true.
Proof.
  unfold base_api.
  set (raw := rstrip_slash (str_or (default [] base_url) (py "https://aihubmix.com"))).
  destruct (endswith (py "/v1") raw) eqn:E; [exact E|].
  apply endswith_app.
Qed.

Lemma endswith_nonempty (p s : str) :
  nonempty p = true -> endswith p s = true -> nonempty s = true.
Proof.
  intros Hp [b ->]%endswith_split. destruct b; [exact Hp|reflexivity].
Qed.

(** X11: the base of the API always ends in [/v1], once: trailing
    slashes of the configured base are dropped and [/v1] is added unless
    the base already ends with it, so normalizing twice changes nothing
    and the spellings [base], [base/], [base/v1] and [base/v1/] of one
    base give the same prefix; without a base the default host is used. *)
Theorem base_api_is_normalized :
  (forall base_url,
      endswith (py "/v1") (base_api base_url) = true
      /\ base_api (Some (base_api base_url)) = base_api base_url)
  /\ (forall b slashes : str,
        nonempty b = true -> rstrip_slash b = b ->
        endswith (py "/v1") b = false ->
        Forall (fun c => c = SLASH) slashes ->
        base_api (Some (b ++ slashes)) = b ++ py "/v1"
        /\ base_api (Some (b ++ py "/v1" ++ slashes)) = b ++ py "/v1")
  /\ base_api None = py "https://aihubmix.com/v1"
  /\ base_api (Some []) = py "https://aihubmix.com/v1"
  /\ base_api (Some (py "https://aihubmix.com/v1/")) = py "https://aihubmix.com/v1".
Proof.
  split; [|split; [|split; [|split]]]; try (vm_compute; reflexivity).
  - intros base_url. pose proof (base_api_ends base_url) as Hend.
    split; [exact Hend|].
    rewrite base_api_of_raw.
    + by rewrite Hend.
    + by eapply endswith_nonempty; [|exact Hend].
    + by apply rstrip_slash_v1.
  - intros b slashes Hne Hb Hend Hsl.
    assert (Hsl' : Forall (fun c => (c =? SLASH)%N = true) slashes).
    { eapply Forall_impl; [exact Hsl|]. intros c ->. reflexivity. }
    assert (Hne' : forall t : str, nonempty (b ++ t) = true).
    { intros t. destruct b; [discriminate Hne|reflexivity]. }
    split; unfold base_api;
      match goal with |- context [default [] (Some ?t)] =>
        change (default [] (Some t)) with t end;
      unfold str_or; rewrite Hne'.
    + unfold rstrip_slash. rewrite rstrip_by_app_all by done.
      fold (rstrip_slash b). by rewrite Hb, Hend.
    + rewrite app_assoc. unfold rstrip_slash. rewrite rstrip_by_app_all by done.
      fold (rstrip_slash (b ++ py "/v1")).
      rewrite rstrip_slash_v1 by apply endswith_app.
      by rewrite endswith_app.
Qed.

(** *** The request loop *)

Lemma post_attempts_policy (outcome : nat -> PostOutcome) (e : Endpoint) :
  exists n, (n <= 3)%nat
    /\ (forall a, (a < n)%nat -> retried (outcome a) = true)
    /\ (post_attempts outcome e (seq 0 3)).2
       = failed_rounds e n ++ (if (n <? 3)%nat then [EvPost e n] else [])
    /\ (if (n <? 3)%nat
        then retried (outcome n) = false
             /\ (post_attempts outcome e (seq 0 3)).1
                = match outcome n with
                  | Response status json => Got status json
                  | _ => Escaped
                  end
        else (post_attempts outcome e (seq 0 3)).1 = NoResponse).
Proof.
  cbn [seq post_attempts].
  destruct (outcome 0%nat) eqn:H0.
  1, 4: exists 0%nat; cbn; rewrite H0; split; [lia|]; split; [intros; lia|];
        split; [reflexivity|]; split; reflexivity.
  all: destruct (outcome 1%nat) eqn:H1.
  all: try (exists 1%nat; cbn; rewrite H1; split; [lia|]; split;
            [intros [|a] Ha; [by rewrite H0|lia]|];
            split; [reflexivity|]; split; reflexivity).
  all: destruct (outcome 2%nat) eqn:H2.
  all: try (exists 2%nat; cbn; rewrite H2; split; [lia|]; split;
            [intros [|[|a]] Ha; [by rewrite H0|by rewrite H1|lia]|];
            split; [reflexivity|]; split; reflexivity).
  all: exists 3%nat; cbn; split; [lia|]; split;
    [intros [|[|[|a]]] Ha; [by rewrite H0|by rewrite H1|by rewrite H2|lia]|];
    split; reflexivity.
Qed.

(** X12: each endpoint of the LLM-driven search is posted to at most
    three times.  A timeout or a transport error is followed by a sleep of
    [1 * 2^attempt] seconds and the next attempt; a response of any status
    ends the loop at once, and so does any other exception.  The call
    never raises: it returns [None] after three failed attempts, after
    another exception, and for a response with status 400 or more, which
    is not retried; only a response below 400 is read. *)
Theorem llm_search_request_policy
    (self : Ranking.Service) (net : Net) (e : Endpoint) :
  client_ok net e = true ->
  exists n, (n <= 3)%nat
    /\ (forall a, (a < n)%nat -> retried (post net e a) = true)
    /\ (call self net e).2
       = failed_rounds e n ++ (if (n <? 3)%nat then [EvPost e n] else [])
    /\ (if (n <? 3)%nat
        then retried (post net e n) = false
             /\ (call self net e).1
                = match post net e n with
                  | Response status json =>
                      if 400 <=? status then None
                      else read_response self e (Got status json)
                  | _ => None
                  end
        else (call self net e).1 = None).
Proof.
  intros Hok. unfold LLMSearch.call. rewrite Hok.
  destruct (post_attempts_policy (post net e) e) as (n & Hn & Hretried & Htr & Hres).
  exists n. destruct (post_attempts (post net e) e (seq 0 3)) as [r tr].
  cbn [fst snd] in *. split; [exact Hn|]. split; [exact Hretried|].
  split; [exact Htr|].
  destruct (n <? 3)%nat.
  - destruct Hres as [Hnot ->]. split; [exact Hnot|].
    destruct (post net e n) as [status json| | |]; try reflexivity.
    cbn [LLMSearch.read_response]. by destruct (400 <=? status).
  - by rewrite Hres.
Qed.

(** *** The items *)

Lemma rank_loop_json self (items : list JDict) t o :
  fold_left (rank_step self) items (t, o)
  = (t ++ List.filter
            (fun it => negb (Ranking.is_blacklisted self (domain_of_value (rank_url it)))
                       && Ranking.in_trusted_set self (domain_of_value (rank_url it)))
            items,
     o ++ List.filter
            (fun it => negb (Ranking.is_blacklisted self (domain_of_value (rank_url it)))
                       && negb (Ranking.in_trusted_set self
                                  (domain_of_value (rank_url it))))
            items).
Proof.
  revert t o. induction items as [|it items IH]; intros t o; cbn [fold_left List.filter].
  - by rewrite !app_nil_r.
  - unfold LLMSearch.rank_step at 2. rewrite is_trusted_in_set.
    destruct (Ranking.is_blacklisted self _); cbn [negb andb]; [apply IH|].
    destruct (Ranking.in_trusted_set self _); cbn [negb fst snd];
      rewrite IH; by rewrite <- ?app_assoc.
Qed.

Lemma rank_results_json self (items : list JDict) :
  _rank_results self items
  = slice_to (Ranking.max_results self)
      (List.filter
         (fun it => negb (Ranking.is_blacklisted self (domain_of_value (rank_url it)))
                    && Ranking.in_trusted_set self (domain_of_value (rank_url it)))
         items
       ++ (if Ranking.only_trusted self then []
           else List.filter
                  (fun it =>
                     negb (Ranking.is_blacklisted self (domain_of_value (rank_url it)))
                     && negb (Ranking.in_trusted_set self
                                (domain_of_value (rank_url it))))
                  items)).
Proof. unfold LLMSearch._rank_results. by rewrite rank_loop_json. Qed.

Lemma rank_json_In self (items : list JDict) (it : JDict) :
  In it (_rank_results self items) ->
  In it items
  /\ Ranking.is_blacklisted self (domain_of_value (rank_url it)) = false.
Proof.
  rewrite rank_results_json. intros H%slice_to_In. apply in_app_or in H as [H|H].
  - apply filter_In in H as [Hin Hp]. apply andb_prop in Hp as [Hb _].
    split; [done|by apply negb_true_iff].
  - destruct (Ranking.only_trusted self); [done|].
    apply filter_In in H as [Hin Hp]. apply andb_prop in Hp as [Hb _].
    split; [done|by apply negb_true_iff].
Qed.

Lemma rank_json_length self (items : list JDict) :
  0 <= Ranking.max_results self ->
  Z.of_nat (length (_rank_results self items)) <= Ranking.max_results self.
Proof. intros H. rewrite rank_results_json. by apply slice_to_length. Qed.

Lemma rank_json_NoDup {B} (f : JDict -> B) self (items : list JDict) :
  NoDup (map f items) -> NoDup (map f (_rank_results self items)).
Proof.
  intros Hnd. rewrite rank_results_json.
  assert (Hall : NoDup (map f
            (List.filter
               (fun it => negb (Ranking.is_blacklisted self (domain_of_value (rank_url it)))
                          && Ranking.in_trusted_set self (domain_of_value (rank_url it)))
               items
             ++ (if Ranking.only_trusted self then []
                 else List.filter
                        (fun it =>
                           negb (Ranking.is_blacklisted self
                                   (domain_of_value (rank_url it)))
                           && negb (Ranking.in_trusted_set self
                                      (domain_of_value (rank_url it))))
                        items)))).
  { destruct (Ranking.only_trusted self).
    - pose proof (NoDup_filter_parts f
                    (fun it => negb (Ranking.is_blacklisted self
                                       (domain_of_value (rank_url it)))
                               && Ranking.in_trusted_set self
                                    (domain_of_value (rank_url it)))
                    (fun _ => false) items) as H.
      assert (Hnil : List.filter (fun _ : JDict => false) items = []).
      { clear. induction items as [|x l IH]; [reflexivity|exact IH]. }
      rewrite Hnil in H. apply H; [|exact Hnd].
      intros x. apply andb_false_r.
    - apply NoDup_filter_parts; [|exact Hnd].
      intros x. destruct (negb _); [|reflexivity].
      by destruct (Ranking.in_trusted_set _ _). }
  destruct (slice_to_prefix (Ranking.max_results self)
              (List.filter
                 (fun it => negb (Ranking.is_blacklisted self
                                    (domain_of_value (rank_url it)))
                            && Ranking.in_trusted_set self (domain_of_value (rank_url it)))
                 items
               ++ (if Ranking.only_trusted self then []
                   else List.filter
                          (fun it =>
                             negb (Ranking.is_blacklisted self
                                     (domain_of_value (rank_url it)))
                             && negb (Ranking.in_trusted_set self
                                        (domain_of_value (rank_url it))))
                          items))) as [k Hk].
  rewrite Hk, map_app in Hall. by apply NoDup_app in Hall as [Hall _].
Qed.

Lemma filled_v_or (a : value) (d : str) : filled (v_or a (JStr d)) = true.
Proof.
  unfold v_or. destruct (truthy a) eqn:E.
  - unfold filled. by rewrite E.
  - by destruct d.
Qed.

Lemma item_of_normal (d : JDict) : normalized_item_spec (item_of d).
Proof.
  split; [reflexivity|].
  unfold LLMSearch.item_of. repeat constructor; cbn [snd];
    first [apply filled_v_or | idtac].
  unfold v_or at 1. destruct (truthy (jget d "url")) eqn:E.
  - unfold filled. by rewrite E.
  - apply filled_v_or.
Qed.

Lemma url_item_normal (u : str) : normalized_item_spec (url_item u).
Proof.
  split; [reflexivity|].
  unfold LLMSearch.url_item. repeat constructor; cbn [snd]; try reflexivity.
  - by destruct u.
  - by destruct (Ranking.domain_of urlparse_netloc u).
Qed.

Lemma normal_rank_url (it : JDict) :
  normalized_item_spec it -> rank_url it = href_of it.
Proof.
  intros [Hkeys Hfilled].
  destruct it as [|[k1 v1] [|[k2 v2] [|[k3 v3] [|[k4 v4] [|[k5 v5] [|? ?]]]]]];
    try discriminate Hkeys.
  injection Hkeys as -> -> -> -> ->.
  apply Forall_inv in Hfilled. cbn [snd] in Hfilled.
  assert (Hurl : jget [(HREF, v1); (TITLE, v2); (SOURCE, v3); (DATE, v4); (SUMMARY, v5)]
                   "url" = JNull) by (vm_compute; reflexivity).
  assert (Hhref : jget [(HREF, v1); (TITLE, v2); (SOURCE, v3); (DATE, v4); (SUMMARY, v5)]
                    "href" = v1) by (vm_compute; reflexivity).
  unfold rank_url, href_of. rewrite Hurl, Hhref.
  unfold v_or. cbn [truthy]. destruct (truthy v1) eqn:E; [reflexivity|].
  unfold filled in Hfilled. rewrite E in Hfilled. cbn [orb] in Hfilled.
  destruct v1 as [| | | | | |[|? ?]| |]; try discriminate Hfilled. reflexivity.
Qed.

Lemma items_of_normal (arr : list value) : Forall normalized_item_spec (items_of arr).
Proof.
  unfold LLMSearch.items_of. apply Forall_forall. intros it Hit.
  apply list_elem_of_In, in_flat_map in Hit as (v & _ & Hv).
  destruct v; try done. destruct Hv as [<-|[]]. apply item_of_normal.
Qed.

Lemma rank_of_normal self (items : list JDict) :
  Forall normalized_item_spec items -> ranked_items_spec self (_rank_results self items).
Proof.
  intros Hall. split; [apply rank_json_length|].
  apply Forall_forall. intros it Hit.
  apply list_elem_of_In, rank_json_In in Hit as [Hin Hb].
  rewrite Forall_forall in Hall. specialize (Hall it (proj2 (list_elem_of_In _ _) Hin)).
  split; [exact Hall|]. by rewrite <- (normal_rank_url it Hall).
Qed.

Lemma chat_result_ranked self content items :
  chat_result self content = Some items -> ranked_items_spec self items.
Proof.
  unfold LLMSearch.chat_result.
  destruct (extract content) as [[[|x xs]|]|]; try discriminate.
  2: { intros [= <-]. apply rank_of_normal, (items_of_normal (x :: xs)). }
  all: destruct (map _ _) eqn:E; [discriminate|]; intros [= <-];
    apply rank_of_normal; rewrite <- E; apply Forall_forall; intros it Hit;
    apply list_elem_of_fmap in Hit as (u & -> & _); apply url_item_normal.
Qed.

Lemma responses_result_ranked self content items :
  responses_result self content = Some items -> ranked_items_spec self items.
Proof.
  unfold LLMSearch.responses_result.
  destruct (extract content) as [[[|x xs]|]|]; try discriminate.
  intros [= <-]. apply rank_of_normal, (items_of_normal (x :: xs)).
Qed.

Lemma call_ranked self net e items :
  (call self net e).1 = Some items -> ranked_items_spec self items.
Proof.
  unfold LLMSearch.call. destruct (client_ok net e); [|discriminate].
  destruct (post_attempts _ _ _) as [r tr]. cbn [fst].
  unfold LLMSearch.read_response. destruct r as [status json| |]; try discriminate.
  destruct (400 <=? status); [discriminate|].
  destruct json as [data|]; [|discriminate]. cbn [mbind option_bind].
  destruct e.
  - destruct (chat_content data) as [content|]; [|discriminate].
    apply chat_result_ranked.
  - destruct (responses_content data) as [content|]; [|discriminate].
    apply responses_result_ranked.
Qed.

(** X13: whatever the two endpoints answer, the search returns a list,
    never [None], of normalized items: each has exactly the keys [href],
    [title], [source], [date], [summary], in this order, with values that
    are truthy or the empty string, never [null]; none has an [href] whose
    domain is blacklisted; and with a cap that is not negative there are at
    most [max_results] of them. *)
Theorem llm_search_returns_normalized_items (self : Ranking.Service) (net : Net) :
  let items := (search self net).1 in
  (0 <= Ranking.max_results self ->
   Z.of_nat (length items) <= Ranking.max_results self)
  /\ Forall (fun it => map fst it = item_keys
                       /\ Forall (fun kv : str * value => filled kv.2 = true) it
                       /\ Ranking.is_blacklisted self
                            (domain_of_value (href_of it)) = false) items.
Proof.
  intros items.
  assert (H : ranked_items_spec self items).
  { subst items. unfold LLMSearch.search, _call_chat_completions, _call_responses.
    pose proof (call_ranked self net ChatCompletions) as H1.
    pose proof (call_ranked self net Responses) as H2.
    destruct (LLMSearch.call _ _ self net ChatCompletions) as [r1 tr1].
    destruct (LLMSearch.call _ _ self net Responses) as [r2 tr2].
    cbn [fst snd] in *.
    destruct r1 as [[|x1 l1]|]; cbn [found default];
      try (by apply H1);
      (destruct r2 as [[|x2 l2]|]; cbn [found default fst];
         [| by apply H2 |]; (split; [cbn [length]; lia|constructor])). }
  destruct H as [Hlen Hall]. split; [exact Hlen|].
  eapply Forall_impl; [exact Hall|]. by intros it [[? ?] ?].
Qed.

(** *** URLs found in plain text *)

Lemma take_while_split p (s : str) : exists rest, s = take_while p s ++ rest.
Proof.
  induction s as [|c s [rest IH]]; [by exists []|].
  cbn [take_while]. destruct (p c).
  - exists rest. cbn [app]. by rewrite <- IH.
  - by exists (c :: s).
Qed.

Lemma match_url_spec (s u : str) :
  match_url s = Some u ->
  startswith u s = true
  /\ (startswith (py "http://") u = true \/ startswith (py "https://") u = true).
Proof.
  unfold LLMSearch.match_url.
  destruct (strip_prefix (py "http") s) as [r|] eqn:E1; [|discriminate].
  apply strip_prefix_split in E1 as ->.
  set (sr := match r with
             | 115%N :: r' => (py "https", r')
             | _ => (py "http", r)
             end).
  assert (Hsr : py "http" ++ r = sr.1 ++ sr.2
                /\ (sr.1 = py "http" \/ sr.1 = py "https")).
  { subst sr. destruct r as [|c r']; [split; [reflexivity|by left]|].
    destruct (decide (c = 115%N)) as [->|Hc].
    - split; [reflexivity|by right].
    - assert (Hm : match c :: r' with
                   | 115%N :: r'0 => (py "https", r'0)
                   | _ => (py "http", c :: r')
                   end = (py "http", c :: r')).
      { destruct c as [|p]; [reflexivity|].
        repeat (destruct p as [p|p|]; try reflexivity). congruence. }
      rewrite Hm. split; [reflexivity|by left]. }
  destruct sr as [scheme r1]. cbn [fst snd] in Hsr. destruct Hsr as [Hs Hscheme].
  destruct (strip_prefix (py "://") r1) as [r2|] eqn:E2; [|discriminate].
  apply strip_prefix_split in E2 as ->.
  destruct (take_while_split (url_char is_word) r2) as [rest Hrest].
  destruct (take_while (url_char is_word) r2) as [|b body] eqn:E3; [discriminate|].
  intros Hu. apply (inj Some) in Hu. subst u. split.
  - rewrite Hs, Hrest. apply startswith_app3.
  - destruct Hscheme as [-> | ->].
    + left. apply (startswith_app (py "http://") (b :: body)).
    + right. apply (startswith_app (py "https://") (b :: body)).
Qed.

Lemma contains_of_startswith (p s : str) : startswith p s = true -> contains p s = true.
Proof. intros H. destruct s; simpl; [by rewrite H|by rewrite H]. Qed.

Lemma contains_cons (p : str) (c : N) (s : str) :
  contains p s = true -> contains p (c :: s) = true.
Proof. intros H. exact (contains_app_r p [c] s H). Qed.

Lemma findall_urls_spec (s : str) : forall skip u,
  u ∈ findall_urls skip s ->
  contains u s = true
  /\ (startswith (py "http://") u = true \/ startswith (py "https://") u = true).
Proof.
  induction s as [|c s IH]; intros skip u Hu; [by apply elem_of_nil in Hu|].
  cbn [LLMSearch.findall_urls] in Hu. destruct skip as [|k].
  - destruct (match_url (c :: s)) as [m|] eqn:E.
    + apply elem_of_cons in Hu as [->|Hu].
      * apply match_url_spec in E as [Hs Hscheme].
        split; [by apply contains_of_startswith|exact Hscheme].
      * destruct (IH _ _ Hu) as [Hc Hscheme]. split; [by apply contains_cons|done].
    + destruct (IH _ _ Hu) as [Hc Hscheme]. split; [by apply contains_cons|done].
  - destruct (IH _ _ Hu) as [Hc Hscheme]. split; [by apply contains_cons|done].
Qed.

Lemma href_of_url_item (u : str) : href_of (url_item u) = JStr u.
Proof. vm_compute. reflexivity. Qed.

(** X14: when the answer of chat completions is a string in which no
    JSON array with an element is found, the items come from the URLs of
    the text: each returned item is the item of a URL that occurs in the
    text and starts with [http://] or [https://], with empty title, date
    and summary, and no two returned items have the same [href]. *)
Theorem chat_completions_falls_back_on_urls
    (self : Ranking.Service) (s : str) (items : list JDict) :
  match Extract._extract_json_array s with
  | Some (_ :: _) => False
  | _ => True
  end ->
  chat_result self (JStr s) = Some items ->
  NoDup (map href_of items)
  /\ Forall (fun it => exists u,
               it = url_item u
               /\ contains u s = true
               /\ (startswith (py "http://") u = true
                   \/ startswith (py "https://") u = true)) items.
Proof.
  intros Hno. unfold LLMSearch.chat_result. cbn [extract text_of].
  set (urls := slice_to (Ranking.max_results self) (dict_fromkeys (findall_urls 0 s))).
  assert (Hurls : NoDup urls
                  /\ forall u, u ∈ urls -> u ∈ findall_urls 0 s).
  { destruct (seed_fold_spec (findall_urls 0 s) [] (NoDup_nil_2 : NoDup (@nil str)))
      as [Hnd Hel].
    fold (dict_fromkeys (findall_urls 0 s)) in Hnd, Hel.
    destruct (slice_to_prefix (Ranking.max_results self)
                (dict_fromkeys (findall_urls 0 s))) as [k Hk].
    fold urls in Hk. split.
    - rewrite Hk in Hnd. by apply NoDup_app in Hnd as [Hnd _].
    - intros u Hu. assert (Hin : u ∈ dict_fromkeys (findall_urls 0 s))
        by (rewrite Hk, elem_of_app; by left).
      apply Hel in Hin as [Hin|Hin]; [by apply elem_of_nil in Hin|exact Hin]. }
  destruct Hurls as [Hnd Hsub].
  assert (Hitems : forall found,
             Some (_rank_results self (map url_item urls)) = Some found ->
             NoDup (map href_of found)
             /\ Forall (fun it => exists u,
                          it = url_item u
                          /\ contains u s = true
                          /\ (startswith (py "http://") u = true
                              \/ startswith (py "https://") u = true)) found).
  { intros found [= <-]. split.
    - apply rank_json_NoDup. rewrite map_map.
      erewrite map_ext; [|intros u; apply href_of_url_item].
      assert (Hinj : Inj (=) (=) JStr) by (intros a b [= ->]; reflexivity).
      apply (NoDup_fmap_2 JStr). exact Hnd.
    - apply Forall_forall. intros it Hit.
      apply list_elem_of_In, rank_json_In in Hit as [Hit _].
      apply in_map_iff in Hit as (u & <- & Hu). exists u. split; [reflexivity|].
      apply findall_urls_spec with (skip := 0%nat).
      by apply Hsub, list_elem_of_In. }
  destruct (Extract._extract_json_array s) as [[|x xs]|]; [| done |];
    (destruct (map url_item urls) eqn:E; [discriminate|]; apply Hitems).
Qed.

End LLMSearchFacts.

(** Chat completions answers 503: one request, no retry, no result. *)
Lemma llm_search_request_policy_witness :
  exists n, (n <= 3)%nat
    /\ (forall a, (a < n)%nat ->
          LLMSearch.retried
            (LLMSearch.post LLMSearch.example_net LLMSearch.ChatCompletions a) = true)
    /\ (LLMSearch.call AppExample.bare_netloc (fun _ => true) Fetch.default_service
          LLMSearch.example_net LLMSearch.ChatCompletions).2
       = LLMSearch.failed_rounds LLMSearch.ChatCompletions n
         ++ (if (n <? 3)%nat then [LLMSearch.EvPost LLMSearch.ChatCompletions n] else [])
    /\ (if (n <? 3)%nat
        then LLMSearch.retried
               (LLMSearch.post LLMSearch.example_net LLMSearch.ChatCompletions n) = false
             /\ (LLMSearch.call AppExample.bare_netloc (fun _ => true)
                   Fetch.default_service LLMSearch.example_net
                   LLMSearch.ChatCompletions).1
                = match LLMSearch.post LLMSearch.example_net
                          LLMSearch.ChatCompletions n with
                  | LLMSearch.Response status json =>
                      if 400 <=? status then None
                      else LLMSearch.read_response AppExample.bare_netloc
                             (fun _ => true) Fetch.default_service
                             LLMSearch.ChatCompletions (LLMSearch.Got status json)
                  | _ => None
                  end
        else (LLMSearch.call AppExample.bare_netloc (fun _ => true)
                Fetch.default_service LLMSearch.example_net
                LLMSearch.ChatCompletions).1 = None).
Proof.
  apply (llm_search_request_policy AppExample.bare_netloc (fun _ => true)
           Fetch.default_service LLMSearch.example_net LLMSearch.ChatCompletions).
  reflexivity.
Defined.

(** A reply in prose that names one page twice. *)
Lemma chat_completions_falls_back_on_urls_witness :
  let s := py "See https://a.example/x and again https://a.example/x here" in
  let items := [LLMSearch.url_item AppExample.bare_netloc (py "https://a.example/x")] in
  NoDup (map LLMSearch.href_of items)
  /\ Forall (fun it => exists u,
               it = LLMSearch.url_item AppExample.bare_netloc u
               /\ contains u s = true
               /\ (startswith (py "http://") u = true
                   \/ startswith (py "https://") u = true)) items.
Proof.
  intros s items.
  apply (chat_completions_falls_back_on_urls AppExample.bare_netloc
           (fun c => bool_decide (c ∈ py "aexmpl")) Fetch.default_service s items).
  - vm_compute. exact I.
  - vm_compute. exact eq_refl.
Defined.

(** ** The text work of the crawler *)

(** *** Stripping twice *)

Lemma lstrip_by_head p (s : str) (c : N) (t : str) :
  lstrip_by p s = c :: t -> p c = false.
Proof.
  induction s as [|x s IH]; simpl; [done|].
  destruct (p x) eqn:E; [exact IH|]. by intros [= <- _].
Qed.

Lemma lstrip_by_fixed p (s : str) :
  match s with c :: _ => p c = false | [] => True end -> lstrip_by p s = s.
Proof. destruct s as [|c s]; simpl; [done|]. by intros ->. Qed.

Lemma rstrip_by_idem p (s : str) : rstrip_by p (rstrip_by p s) = rstrip_by p s.
Proof.
  unfold rstrip_by. rewrite rev_involutive. f_equal.
  apply lstrip_by_fixed. destruct (lstrip_by p (rev s)) as [|c t] eqn:E; [done|].
  by apply lstrip_by_head in E.
Qed.

Lemma rstrip_by_keeps_head p (c : N) (t : str) :
  p c = false -> exists t', rstrip_by p (c :: t) = c :: t'.
Proof.
  intros Hc. destruct (rstrip_by_split p (c :: t)) as (q & Hq & Hall).
  destruct (rstrip_by p (c :: t)) as [|c' t'].
  - simpl in Hq. subst q. apply Forall_inv in Hall. congruence.
  - injection Hq as <- _. by exists t'.
Qed.

Lemma strip_idem (s : str) : strip (strip s) = strip s.
Proof.
  unfold strip. destruct (lstrip_by is_space s) as [|c t] eqn:E; [reflexivity|].
  apply lstrip_by_head in E.
  destruct (rstrip_by_keeps_head is_space c t E) as [t' Ht']. rewrite Ht'.
  rewrite lstrip_by_fixed by exact E. rewrite <- Ht'. apply rstrip_by_idem.
Qed.

Section CrawlerTextFacts.

Import CrawlerText.

(** *** Runs of white space *)

Lemma double_space_cons (c : N) (w : str) :
  double_space (c :: w)
  = match w with
    | b :: _ => ((c =? SPACE) && (b =? SPACE))%N
    | [] => false
    end || double_space w.
Proof. by destruct w. Qed.

Lemma double_space_suffix (a b : str) :
  double_space (a ++ b) = false -> double_space b = false.
Proof.
  induction a as [|c a IH]; [done|].
  cbn [app]. rewrite double_space_cons. intros [_ H]%orb_false_iff. by apply IH.
Qed.

Lemma double_space_prefix (a b : str) :
  double_space (a ++ b) = false -> double_space a = false.
Proof.
  induction a as [|c a IH]; [done|].
  cbn [app]. rewrite !double_space_cons. intros [H1 H2]%orb_false_iff.
  rewrite (IH H2), orb_false_r. destruct a as [|d a]; [reflexivity|exact H1].
Qed.

Lemma space_is_space (c : N) : is_space c = false -> (c =? SPACE)%N = false.
Proof.
  intros H. destruct (c =? SPACE)%N eqn:E; [|reflexivity].
  apply N.eqb_eq in E as ->. discriminate H.
Qed.

Lemma collapse_ws_spec (s : str) : forall in_run,
  Forall (fun c => is_space c = true -> c = SPACE) (collapse_ws in_run s)
  /\ double_space (collapse_ws in_run s) = false
  /\ (in_run = true ->
      match collapse_ws in_run s with
      | c :: _ => is_space c = false
      | [] => True
      end).
Proof.
  induction s as [|c s IH]; intros in_run; [by repeat split|].
  cbn [collapse_ws]. destruct (is_space c) eqn:Ec.
  - destruct in_run; [apply IH|].
    destruct (IH true) as (Hall & Hds & Hhead). specialize (Hhead eq_refl).
    split; [by constructor|]. split; [|done].
    rewrite double_space_cons, Hds, orb_false_r.
    destruct (collapse_ws true s) as [|b w]; [reflexivity|].
    by rewrite (space_is_space b Hhead), andb_false_r.
  - destruct (IH false) as (Hall & Hds & _).
    split; [constructor; [congruence|exact Hall]|]. split; [|by intros _].
    rewrite double_space_cons, Hds, orb_false_r.
    destruct (collapse_ws false s) as [|b w]; [reflexivity|].
    by rewrite (space_is_space c Ec).
Qed.

(** *** Text without any tag *)

Lemma ci_match_lt (c : N) : ci_match LT c = (c =? LT)%N.
Proof.
  unfold ci_match, LT. cbn. by rewrite !orb_false_r.
Qed.

Lemma ci_strip_prefix_plain (o s : str) :
  LT ∉ s -> ci_strip_prefix (LT :: o) s = None.
Proof.
  destruct s as [|c s]; [done|]. intros [Hc _]%not_elem_of_cons.
  cbn [ci_strip_prefix]. rewrite ci_match_lt.
  destruct (c =? LT)%N eqn:E; [|reflexivity]. apply N.eqb_eq in E. congruence.
Qed.

Lemma sub_block_plain (o closer s : str) :
  LT ∉ s -> sub_block (LT :: o) closer 0 s = s.
Proof.
  induction s as [|c s IH]; [done|]. intros Hs.
  cbn [sub_block]. rewrite ci_strip_prefix_plain by done.
  apply not_elem_of_cons in Hs as [_ Hs]. by rewrite IH.
Qed.

Lemma findall_p_plain (s : str) : LT ∉ s -> findall_p 0 s = [].
Proof.
  induction s as [|c s IH]; [done|]. intros Hs.
  cbn [findall_p]. unfold match_p.
  change (py "<p") with (LT :: [112%N]). rewrite ci_strip_prefix_plain by done.
  apply not_elem_of_cons in Hs as [_ Hs]. by apply IH.
Qed.

Lemma strip_tags_plain (s : str) : LT ∉ s -> forall fuel, Crawler.strip_tags fuel s = s.
Proof.
  induction s as [|c s IH]; intros Hs [|fuel]; try reflexivity.
  apply not_elem_of_cons in Hs as [Hc Hs]. cbn [Crawler.strip_tags].
  destruct (c =? 60)%N eqn:E; [apply N.eqb_eq in E; by subst|].
  by rewrite IH.
Qed.

(** X15: the page text [_strip_html] returns is in normal form for white
    space, whatever the page holds: every white-space character of it is
    a plain space, no two spaces follow each other, and it neither starts
    nor ends with white space (stripping it again changes nothing).  On a
    page without any [<] nothing but this is done: the result is the page
    with its runs of white space collapsed and its ends stripped; the
    empty page gives the empty text. *)
Theorem strip_html_normalizes_white_space (html : str) :
  let out := _strip_html html in
  Forall (fun c => is_space c = true -> c = SPACE) out
  /\ double_space out = false
  /\ strip out = out
  /\ (LT ∉ html -> out = strip (collapse_ws false html)).
Proof.
  intros out.
  assert (Hform : forall text : str,
             let w := strip (collapse_ws false text) in
             Forall (fun c => is_space c = true -> c = SPACE) w
             /\ double_space w = false
             /\ strip w = w).
  { intros text w.
    destruct (collapse_ws_spec text false) as (Hall & Hds & _).
    subst w. unfold strip at 1 2.
    destruct (lstrip_by_split is_space (collapse_ws false text)) as (k & Hk & _).
    destruct (rstrip_by_split is_space (lstrip_by is_space (collapse_ws false text)))
      as (q & Hq & _).
    rewrite Hk in Hall, Hds. apply Forall_app in Hall as [_ Hall].
    apply double_space_suffix in Hds.
    rewrite Hq in Hall, Hds. apply Forall_app in Hall as [Hall _].
    apply double_space_prefix in Hds.
    split; [exact Hall|]. split; [exact Hds|apply strip_idem]. }
  subst out. unfold _strip_html.
  destruct (negb (nonempty html)) eqn:Ehtml.
  - split; [constructor|]. split; [reflexivity|]. split; [reflexivity|].
    intros _. destruct html; [reflexivity|discriminate Ehtml].
  - match goal with
    | |- context [strip (collapse_ws false ?t)] =>
        destruct (Hform t) as (H1 & H2 & H3)
    end.
    split; [exact H1|]. split; [exact H2|]. split; [exact H3|].
    intros Hplain.
    change (py "<script") with (LT :: py "script").
    change (py "<style") with (LT :: py "style").
    rewrite (sub_block_plain _ _ html Hplain), (sub_block_plain _ _ html Hplain).
    rewrite (findall_p_plain html Hplain).
    cbn [map join]. change (nonempty (strip [])) with false. cbv iota.
    unfold strip_all_tags. by rewrite strip_tags_plain.
Qed.

(** *** Keywords *)

Lemma re_split_pieces keep (s : str) : forall cur in_sep,
  Forall (fun c => keep c = true) cur ->
  Forall (Forall (fun c => keep c = true)) (re_split keep s cur in_sep).
Proof.
  induction s as [|c s IH]; intros cur in_sep Hcur; cbn [re_split].
  - constructor; [by apply Forall_rev|constructor].
  - destruct (keep c) eqn:E; [apply IH; by constructor|].
    destruct in_sep; [by apply IH|].
    constructor; [by apply Forall_rev|]. by apply IH.
Qed.

Lemma stripped_strings_spec (l : list value) :
  Forall (fun k => nonempty k = true /\ strip k = k) (stripped_strings l).
Proof.
  unfold stripped_strings. apply Forall_forall. intros k Hk.
  apply list_elem_of_In, in_flat_map in Hk as (v & _ & Hv).
  destruct v; try done. destruct (nonempty (strip s)) eqn:E; [|done].
  destruct Hv as [<-|[]]. split; [exact E|apply strip_idem].
Qed.

Lemma Forall_slice_to {A} (P : A -> Prop) (n : Z) (l : list A) :
  Forall P l -> Forall P (slice_to n l).
Proof.
  intros H. destruct (slice_to_prefix n l) as [k Hk]. rewrite Hk in H.
  by apply Forall_app in H as [H _].
Qed.

Lemma slice_to_length_nat {A} (n : nat) (l : list A) :
  (length (slice_to (Z.of_nat n) l) <= n)%nat.
Proof.
  pose proof (slice_to_length (Z.of_nat n) l (Nat2Z.is_nonneg n)). lia.
Qed.

(** X16: [_generate_keywords] falls back on the pieces of the topic only
    for a failure after its [import json, re]: it raises exactly when the
    call of the model raises or the answer holds no
    [choices[0].message.content] to read.  When it returns, no keyword is
    empty, so that no keyword matches every link: either the content of
    the answer gives the keywords, at most twelve, each stripped of white
    space at both ends; or the content cannot be read as keywords, and
    the keywords are at most eight pieces of the topic, each made only of
    Chinese characters, ASCII letters and digits. *)
Theorem generated_keywords_are_not_empty (topic : str) (r : Doubao.Result) :
  (_generate_keywords topic r = None <-> App.message_content r = None)
  /\ (forall e, _generate_keywords topic (Doubao.Raised e) = None)
  /\ (forall kws,
        _generate_keywords topic r = Some kws ->
        Forall (fun k => nonempty k = true) kws
        /\ (length kws <= 12)%nat
        /\ exists content,
             App.message_content r = Some content
             /\ match content_keywords content with
                | Some l => kws = l /\ Forall (fun k => strip k = k) kws
                | None =>
                    kws = topic_keywords topic
                    /\ (length kws <= 8)%nat
                    /\ Forall (Forall (fun c => kw_char c = true)) kws
                end).
Proof.
  assert (Htopic : Forall (fun k => nonempty k = true) (topic_keywords topic)
                   /\ (length (topic_keywords topic) <= 8)%nat
                   /\ Forall (Forall (fun c => kw_char c = true)) (topic_keywords topic)).
  { unfold topic_keywords. split; [|split].
    - apply Forall_slice_to, Forall_forall. intros k Hk.
      by apply list_elem_of_In, filter_In in Hk as [_ Hk].
    - apply (slice_to_length_nat 8).
    - apply Forall_slice_to, Forall_forall. intros k Hk.
      apply list_elem_of_In, filter_In in Hk as [Hk _].
      pose proof (re_split_pieces kw_char topic [] false (List.Forall_nil _)) as H.
      rewrite Forall_forall in H. by apply H, list_elem_of_In. }
  assert (Hllm : forall content l, content_keywords content = Some l ->
             Forall (fun k => nonempty k = true /\ strip k = k) l
             /\ (length l <= 12)%nat).
  { unfold content_keywords. intros content l Hl.
    destruct content as [| | | | | |text| |]; try discriminate Hl.
    destruct (keywords_json text) as [[| | | | | | | |data]|]; try discriminate Hl.
    destruct (iterate _) as [vs|]; [|discriminate Hl].
    injection Hl as <-. split.
    - apply Forall_slice_to, stripped_strings_spec.
    - apply (slice_to_length_nat 12). }
  unfold _generate_keywords. split; [|split].
  - destruct (App.message_content r); split; done.
  - reflexivity.
  - intros kws Hk. destruct (App.message_content r) as [content|]; [|done].
    apply (inj Some) in Hk.
    destruct (content_keywords content) as [l|] eqn:E.
    + destruct (Hllm content l E) as [Hall Hlen]. subst kws.
      split; [eapply Forall_impl; [exact Hall|]; by intros k [? _]|].
      split; [exact Hlen|]. exists content. split; [reflexivity|]. rewrite E.
      split; [reflexivity|]. eapply Forall_impl; [exact Hall|]. by intros k [_ ?].
    + destruct Htopic as (H1 & H2 & H3). subst kws.
      split; [exact H1|]. split; [lia|]. exists content. split; [reflexivity|].
      rewrite E. split; [reflexivity|]. split; [exact H2|exact H3].
Qed.

(** *** Sitemaps *)

Variable urljoin : str -> str -> option str.
Variable hostname : str -> option str.

Lemma scan_locs_spec self web kws (domain : str) lastmods (locs : list str) :
  forall idx (items : list Item),
    Forall (sitemap_item_spec hostname kws domain) items ->
    Forall (sitemap_item_spec hostname kws domain)
      (scan_locs hostname self web kws domain lastmods idx locs items)
    /\ (Z.of_nat (length items) < Crawler.per_site_limit self ->
        Z.of_nat (length (scan_locs hostname self web kws domain lastmods idx locs items))
        <= Crawler.per_site_limit self).
Proof.
  induction locs as [|loc locs IH]; intros idx items Hitems; cbn [scan_locs].
  - split; [exact Hitems|lia].
  - destruct (bool_decide (Crawler._domain hostname (strip loc) = domain)) eqn:Ed;
      cbn [negb]; [|by apply IH].
    apply bool_decide_eq_true_1 in Ed.
    set (it := <["source" := domain]> (<["title" := []]> (<["href" := strip loc]> ∅))).
    assert (Hit : existsb (fun kw => contains kw (strip loc)) kws = true ->
                  Forall (sitemap_item_spec hostname kws domain) (items ++ [it])).
    { intros Hkw. apply Forall_app. split; [exact Hitems|].
      constructor; [|constructor]. exists (strip loc).
      split; [reflexivity|]. split; [apply strip_idem|]. by split. }
    destruct (existsb (fun kw => contains kw (strip loc)) kws) eqn:Ek.
    + destruct (match lastmods !! idx with
                | Some lm => recent web lm
                | None => true
                end).
      * destruct (Crawler.per_site_limit self <=? Z.of_nat (length (items ++ [it])))
          eqn:El.
        -- split; [by apply Hit|]. rewrite length_app. cbn [length]. lia.
        -- apply Z.leb_gt in El. destruct (IH (S idx) (items ++ [it]) (Hit eq_refl))
             as [H1 H2].
           split; [exact H1|]. intros _. by apply H2.
      * destruct (Crawler.per_site_limit self <=? Z.of_nat (length items)) eqn:El.
        -- split; [exact Hitems|lia].
        -- by apply IH.
    + destruct (Crawler.per_site_limit self <=? Z.of_nat (length items)) eqn:El.
      * split; [exact Hitems|lia].
      * by apply IH.
Qed.

Lemma scan_endpoints_spec self web kws (base_url domain : str) (eps : list str) :
  forall items : list Item,
    Forall (sitemap_item_spec hostname kws domain) items ->
    Forall (sitemap_item_spec hostname kws domain)
      (scan_endpoints urljoin hostname self web kws base_url domain eps items)
    /\ (Z.of_nat (length items) < Crawler.per_site_limit self ->
        Z.of_nat (length (scan_endpoints urljoin hostname self web kws base_url domain
                            eps items))
        <= Crawler.per_site_limit self).
Proof.
  induction eps as [|ep eps IH]; intros items Hitems; cbn [scan_endpoints].
  - split; [exact Hitems|lia].
  - destruct (get_text web _) as [[status text]|]; [|by apply IH].
    destruct (400 <=? status); [by apply IH|].
    destruct (scan_locs_spec self web kws domain
                (findall_tag (py "<lastmod>") (py "</lastmod>") 0 text)
                (findall_tag (py "<loc>") (py "</loc>") 0 text) 0 items Hitems)
      as [H1 H2].
    destruct (Crawler.per_site_limit self <=? Z.of_nat (length _)) eqn:El.
    + split; [exact H1|exact H2].
    + apply Z.leb_gt in El. destruct (IH _ H1) as [H3 H4].
      split; [exact H3|]. intros _. by apply H4.
Qed.

(** X17: every candidate taken from a sitemap lies on the site itself:
    its [href] is a stripped [loc] entry whose host is the host of the
    base URL (an alias host does not pass here) and in which a keyword
    occurs, its title is empty and its source is that host; and with a
    limit of at least one, no more than [per_site_limit] candidates are
    collected over all the sitemaps of the site. *)
Theorem sitemap_candidates_stay_on_site
    (self : Crawler.CrawlerService) (web : Web) (base_url : str) (kws : list str) :
  let items := _collect_from_sitemap urljoin hostname self web base_url kws in
  Forall (sitemap_item_spec hostname kws (Crawler._domain hostname base_url)) items
  /\ (1 <= Crawler.per_site_limit self ->
      Z.of_nat (length items) <= Crawler.per_site_limit self).
Proof.
  intros items. subst items. unfold _collect_from_sitemap.
  destruct (scan_endpoints_spec self web kws base_url
              (Crawler._domain hostname base_url) endpoints [] (List.Forall_nil _))
    as [H1 H2].
  split; [exact H1|]. intros Hlim. apply H2. cbn [length]. lia.
Qed.

End CrawlerTextFacts.

(** The text of a small page; the keywords of a topic when the model
    answers with prose, when it answers with keywords and when its
    endpoint answers every request with status 500; and the sitemap of
    the example site, off which one of its two entries leads. *)
Example strip_html_page :
  CrawlerText._strip_html
    (py "<html><style>p {}</style><P class=a>新能源  <b>汽车</b>
销量</P><script>x()</script></html>")
  = py "新能源 汽车 销量".
Proof. vm_compute. reflexivity. Qed.

Example keywords_of_topic :
  CrawlerText._generate_keywords (py "新能源汽车, EV 2025!")
    (Doubao.Returned (AppExample.chat_body (py "no json here")))
  = Some [py "新能源汽车"; py "EV"; py "2025"].
Proof. vm_compute. reflexivity. Qed.

Example keywords_of_answer :
  CrawlerText._generate_keywords (py "x")
    (Doubao.Returned
       (AppExample.chat_body (pyq "```json
{'keywords': [' 电池 ', '', 7, '充电']}
```")))
  = Some [py "电池"; py "充电"].
Proof. vm_compute. reflexivity. Qed.

Example keywords_of_failed_call :
  CrawlerText._generate_keywords (py "新能源汽车")
    (Doubao.complete true Doubao.always_500).1
  = None.
Proof. vm_compute. reflexivity. Qed.

Example sitemap_of_example_site :
  CrawlerText._collect_from_sitemap CrawlerText.example_urljoin CrawlExample.hostname
    Crawler.default_crawler CrawlerText.example_web (py "https://auto.example/")
    [py "ev"]
  = [ <["source" := py "auto.example"]>
        (<["title" := []]> (<["href" := py "https://auto.example/ev/1.html"]> ∅)) ].
Proof. vm_compute. reflexivity. Qed.

(** ** The domain lists of the configuration *)

Lemma lstrip_by_all p (s : str) : Forall (fun c => p c = true) s -> lstrip_by p s = [].
Proof.
  induction 1 as [|c s Hc _ IH]; [reflexivity|]. cbn [lstrip_by]. by rewrite Hc.
Qed.

Lemma strip_elem (x : N) (d : str) : x ∈ strip d -> x ∈ d.
Proof.
  unfold strip. intros Hx.
  destruct (lstrip_by_split is_space d) as (k & Hk & _).
  destruct (rstrip_by_split is_space (lstrip_by is_space d)) as (q & Hq & _).
  rewrite Hk, Hq, !elem_of_app. right. by left.
Qed.

Section ConfigFacts.

Import AppConfig.

Lemma split_on_pieces (P : N -> Prop) sep (s : str) :
  (forall c, c ∈ s -> c <> sep -> P c) ->
  forall cur, Forall P cur -> Forall (Forall P) (split_on sep s cur).
Proof.
  induction s as [|c s IH]; intros Hs cur Hcur; cbn [split_on].
  - constructor; [by apply Forall_rev|constructor].
  - assert (Hs' : forall c', c' ∈ s -> c' <> sep -> P c')
      by (intros c' Hc'; apply Hs; by apply list_elem_of_further).
    destruct (c =? sep)%N eqn:E.
    + constructor; [by apply Forall_rev|]. by apply IH.
    + apply IH; [exact Hs'|]. constructor; [|exact Hcur].
      apply Hs; [apply list_elem_of_here|]. by apply N.eqb_neq.
Qed.

Lemma split_on_app sep (k r : str) :
  sep ∉ k -> forall cur, split_on sep (k ++ r) cur = split_on sep r (rev k ++ cur).
Proof.
  induction k as [|c k IH]; intros Hk cur; [reflexivity|].
  apply not_elem_of_cons in Hk as [Hc Hk].
  cbn [app split_on]. destruct (c =? sep)%N eqn:E.
  - apply N.eqb_eq in E. congruence.
  - rewrite IH by exact Hk. cbn [rev]. by rewrite <- app_assoc.
Qed.

Lemma split_on_join sep (l : list str) :
  l <> [] -> Forall (fun d => sep ∉ d) l -> split_on sep (join [sep] l) [] = l.
Proof.
  induction l as [|p l IH]; [done|]. intros _ Hl.
  apply Forall_cons in Hl as [Hp Hl]. destruct l as [|q l].
  - cbn [join]. rewrite <- (app_nil_r p) at 1. rewrite split_on_app by exact Hp.
    cbn [split_on]. by rewrite app_nil_r, rev_involutive.
  - change (join [sep] (p :: q :: l)) with (p ++ sep :: join [sep] (q :: l)).
    rewrite split_on_app by exact Hp. cbn [split_on]. rewrite N.eqb_refl.
    rewrite app_nil_r, rev_involutive. f_equal. by apply IH.
Qed.

(** X18: the lists the handler reads from [TRUSTED_DOMAINS] and
    [BLACKLIST_DOMAINS] hold no empty entry: every entry is non-empty,
    stripped of white space at both ends and free of commas.  A value
    made of commas and white space only gives the empty list (for the
    crawler: its built-in lists), and a list of such entries written
    with commas between them is read back as it is. *)
Theorem domain_lists_hold_clean_entries (csv : str) :
  Forall entry_spec (csv_list csv)
  /\ ((forall c, c ∈ csv -> c = COMMA \/ is_space c = true) -> csv_list csv = [])
  /\ (forall l, Forall entry_spec l -> csv_list (join [COMMA] l) = l).
Proof.
  split; [|split].
  - unfold csv_list. apply Forall_forall. intros e He.
    apply list_elem_of_fmap in He as (d & -> & Hd).
    apply list_elem_of_In, filter_In in Hd as [Hd Hne].
    split; [exact Hne|]. split; [apply strip_idem|].
    intros Hc%strip_elem.
    pose proof (split_on_pieces (fun c => c <> COMMA) COMMA csv
                  (fun c _ H => H) [] (List.Forall_nil _)) as Hall.
    rewrite Forall_forall in Hall. specialize (Hall d).
    rewrite list_elem_of_In in Hall. specialize (Hall Hd).
    rewrite Forall_forall in Hall. by apply (Hall COMMA).
  - intros Hblank. unfold csv_list.
    pose proof (split_on_pieces (fun c => is_space c = true) COMMA csv) as Hall.
    specialize (Hall (fun c Hc Hne => match Hblank c Hc with
                                      | or_introl H => match Hne H with end
                                      | or_intror H => H
                                      end) [] (List.Forall_nil _)).
    induction Hall as [|d ds Hd _ IH]; [reflexivity|].
    assert (Hstrip : strip d = []) by (unfold strip; by rewrite (lstrip_by_all _ _ Hd)).
    cbn [List.filter]. rewrite Hstrip. exact IH.
  - intros l Hl. unfold csv_list. destruct l as [|p l]; [reflexivity|].
    rewrite split_on_join.
    + induction Hl as [|d ds (Hne & Hs & _) _ IH]; [reflexivity|].
      cbn [List.filter]. rewrite Hs, Hne. cbn [map]. by rewrite Hs, IH.
    + done.
    + eapply Forall_impl; [exact Hl|]. by intros d (_ & _ & ?).
Qed.

End ConfigFacts.

(** ** The log stream *)

Section LoggerFacts.

Import Logger.

Variable env : App.Env.

Lemma shown_app (a b : list str) : shown env (a ++ b) = shown env a ++ shown env b.
Proof. apply List.filter_app. Qed.

Lemma due_step (bus bus' : LogBus) :
  broadcaster_step env bus = Some bus' ->
  (fun q => q ++ shown env (queue bus')) <$> clients bus'
  = (fun q => q ++ shown env (queue bus)) <$> clients bus.
Proof.
  unfold broadcaster_step. destruct (queue bus) as [|msg rest] eqn:E; [done|].
  intros H. apply (inj Some) in H. subst bus'.
  unfold shown. cbn [List.filter]. destruct (hidden env msg); cbn [negb queue clients].
  - reflexivity.
  - rewrite <- map_fmap_compose. apply map_fmap_ext. intros i q _.
    cbn. by rewrite <- app_assoc.
Qed.

Lemma broadcaster_drains (msgs : list str) : forall cs : gmap nat (list str),
  broadcaster (length msgs) env {| queue := msgs; clients := cs |}
  = {| queue := []; clients := (fun q => q ++ shown env msgs) <$> cs |}.
Proof.
  induction msgs as [|msg rest IH]; intros cs.
  - cbn [length broadcaster]. f_equal. rewrite <- (map_fmap_id cs) at 1.
    apply map_fmap_ext. intros i q _. cbn. by rewrite app_nil_r.
  - cbn [length broadcaster]. unfold broadcaster_step. cbn [queue clients].
    unfold shown. cbn [List.filter].
    destruct (hidden env msg); cbn [negb]; rewrite IH; [reflexivity|].
    f_equal. rewrite <- map_fmap_compose. apply map_fmap_ext. intros i q _.
    cbn. by rewrite <- app_assoc.
Qed.

Lemma log_all (msgs : list str) : forall (console : list str) (bus : LogBus),
  fold_left (fun st msg => log env msg st) msgs (console, bus)
  = (console ++ shown env msgs,
     {| queue := queue bus ++ msgs; clients := clients bus |}).
Proof.
  induction msgs as [|msg rest IH]; intros console bus.
  - cbn [fold_left]. unfold shown. cbn [List.filter].
    rewrite !app_nil_r. by destruct bus.
  - cbn [fold_left]. unfold log at 2. cbn [fst snd]. rewrite IH.
    unfold publish, shown. cbn [queue clients List.filter].
    rewrite <- (app_assoc (queue bus)). cbn [app].
    destruct (hidden env msg); cbn [negb]; [reflexivity|].
    by rewrite <- app_assoc.
Qed.

(** X19: the log stream loses and reorders nothing it is meant to show.
    A message is hidden exactly when [hide_mcp] holds and [[MCP]] occurs
    somewhere in it, and [hide_mcp] is off only when the provider is
    [mcp] and [LOG_HIDE_MCP] is not [true] (letter case ignored).  A
    round of the broadcaster leaves what each client has received
    together with what is still due to it unchanged; after as many
    rounds as messages wait, the queue is empty and every client has
    received, after what it had, the visible messages in the order of
    their publication; and the console shows the same messages of a run
    of [log] calls, which queues them all. *)
Theorem log_stream_delivers_visible_messages_in_order
    (bus : LogBus) (console msgs : list str) :
  (forall msg, hidden env msg = hide_mcp env && contains (py "[MCP]") msg)
  /\ (hide_mcp env = false <->
      lower (App.getenv env "SEARCH_PROVIDER" (py "ddgs")) = py "mcp"
      /\ lower (App.getenv env "LOG_HIDE_MCP" (py "false")) <> py "true")
  /\ (forall bus', broadcaster_step env bus = Some bus' ->
        (fun q => q ++ shown env (queue bus')) <$> clients bus'
        = (fun q => q ++ shown env (queue bus)) <$> clients bus)
  /\ (let st := fold_left (fun st msg => log env msg st) msgs (console, bus) in
      let bus' := broadcaster (length (queue st.2)) env st.2 in
      st.1 = console ++ shown env msgs
      /\ queue st.2 = queue bus ++ msgs
      /\ queue bus' = []
      /\ clients bus'
         = (fun q => q ++ shown env (queue bus) ++ shown env msgs) <$> clients bus).
Proof.
  split; [|split; [|split]].
  - intros msg. unfold hidden. f_equal.
    destruct (startswith (py "[MCP]") msg) eqn:E; [|reflexivity].
    by rewrite (contains_of_startswith _ _ E).
  - unfold hide_mcp.
    rewrite orb_false_iff, negb_false_iff, bool_decide_eq_true, bool_decide_eq_false.
    reflexivity.
  - apply due_step.
  - cbv zeta. rewrite log_all. cbn [fst snd queue].
    rewrite broadcaster_drains. cbn [queue clients]. by rewrite shown_app.
Qed.

End LoggerFacts.

(** A value of [TRUSTED_DOMAINS] with blanks and a stray comma, and the
    stream of a process whose provider is not [mcp]. *)
Example csv_list_example :
  AppConfig.csv_list (py " people.com.cn, ,cctv.com ,") = [py "people.com.cn"; py "cctv.com"].
Proof. vm_compute. reflexivity. Qed.

Example log_stream_example :
  let st := fold_left (fun st msg => Logger.log ∅ msg st)
              [py "[检索] 开始"; py "x [MCP] y"; py "[抓取] 完成"]
              ([], Logger.subscribe 7 Logger.new) in
  st.1 = [py "[检索] 开始"; py "[抓取] 完成"]
  /\ Logger.clients (Logger.broadcaster 3 ∅ st.2) !! 7%nat
     = Some [py "[检索] 开始"; py "[抓取] 完成"].
Proof. vm_compute. split; reflexivity. Qed.

(** ** The fallback report on items of any JSON type (claim C7) *)

Section ReportAnyFacts.

Import LLMSearch ReportAny.

Variable py_str : value -> str.
Variable num_eqb : value -> value -> bool.
Variable num_ltb : value -> value -> bool.

Local Abbreviation count_sources := (count_sources num_eqb).
Local Abbreviation source_counts := (source_counts num_eqb).
Local Abbreviation raises := (raises num_eqb).
Local Abbreviation bump := (bump num_eqb).
Local Abbreviation dom_text := (dom_text py_str num_ltb).
Local Abbreviation sorted_sources := (sorted_sources num_ltb).
Local Abbreviation issue_lines := (issue_lines py_str).
Local Abbreviation reference_lines := (reference_lines py_str).
Local Abbreviation build_fallback_markdown :=
  (build_fallback_markdown py_str num_eqb num_ltb).

(** The draft opens with its title line, whatever its parts are. *)
Lemma assemble_head topic n dt issues references :
  exists rest,
    assemble topic n dt issues references
    = py "# " ++ str_or topic (py "报告") ++ [LF] ++ rest.
Proof.
  unfold assemble. cbn [app join].
  eexists. rewrite <- !app_assoc. reflexivity.
Qed.

Lemma assemble_facts topic n dt issues references :
  let md := assemble topic n dt issues references in
  nonempty md = true
  /\ startswith (py "# " ++ str_or topic (py "报告")) md = true
  /\ contains (str_or topic (py "报告")) md = true
  /\ contains topic md = true.
Proof.
  intros md. subst md.
  destruct (assemble_head topic n dt issues references) as [rest ->].
  split; [reflexivity|]. split; [|split].
  - rewrite app_assoc. apply startswith_app.
  - apply contains_middle.
  - destruct topic as [|c topic]; [apply contains_nil|].
    apply contains_middle.
Qed.

(** The counting loop raises exactly on a source without hash. *)
Lemma count_sources_bad (items : list JDict) : forall d,
  existsb bad_source items = true -> count_sources items d = None.
Proof.
  induction items as [|it items IH]; intros d H; [discriminate H|].
  cbn [existsb] in H. cbn [ReportAny.count_sources].
  unfold bad_source in H.
  destruct (truthy (source_of it)); cbn [andb] in H; [|by apply IH].
  destruct (hashable (source_of it)); cbn [negb orb] in H; [by apply IH|reflexivity].
Qed.

Lemma count_sources_good (items : list JDict) : forall d,
  existsb bad_source items = false -> is_Some (count_sources items d).
Proof.
  induction items as [|it items IH]; intros d H; [by eexists|].
  cbn [existsb] in H. apply orb_false_iff in H as [H1 H2].
  cbn [ReportAny.count_sources]. unfold bad_source in H1.
  destruct (truthy (source_of it)); cbn [andb] in H1; [|by apply IH].
  destruct (hashable (source_of it)); [by apply IH|discriminate H1].
Qed.

(** The loop over the texts raises exactly on a text without [strip]. *)
Lemma issue_lines_bad (items : list JDict) :
  existsb bad_text items = true -> issue_lines items = None.
Proof.
  induction items as [|it items IH]; intros H; [discriminate H|].
  cbn [existsb] in H. cbn [ReportAny.issue_lines]. unfold bad_text in H.
  destruct (article_text_of it) as [t|]; [|reflexivity].
  cbn [orb] in H. rewrite (IH H). by destruct (nonempty t).
Qed.

Lemma issue_lines_good (items : list JDict) :
  existsb bad_text items = false -> is_Some (issue_lines items).
Proof.
  induction items as [|it items IH]; intros H; [by eexists|].
  cbn [existsb] in H. apply orb_false_iff in H as [H1 H2].
  cbn [ReportAny.issue_lines]. unfold bad_text in H1.
  destruct (article_text_of it) as [t|]; [|discriminate H1].
  destruct (IH H2) as [l ->]. destruct (nonempty t); by eexists.
Qed.

(** The text of the sources is there unless the sort raises. *)
Lemma dom_text_none (d : list (value * nat)) :
  dom_text d = None <-> mixed_tie d = true.
Proof.
  unfold ReportAny.dom_text, ReportAny.sorted_sources.
  destruct d as [|p d]; [by split|].
  destruct (mixed_tie (p :: d)); by split.
Qed.

(** Counting sources that are strings gives keys that are strings, and
    such keys never meet a number. *)
Lemma bump_str (src : value) (d : list (value * nat)) :
  is_str src = true -> Forall (fun p => is_str p.1 = true) d ->
  Forall (fun p => is_str p.1 = true) (bump src d).
Proof.
  intros Hs. induction 1 as [|[k n] d Hk Hd IH]; cbn [ReportAny.bump].
  - by constructor.
  - destruct (key_eqb num_eqb k src); constructor; done.
Qed.

Lemma count_sources_str (items : list JDict) : forall d d',
  Forall (fun it => is_str (source_of it) = true) items ->
  Forall (fun p => is_str p.1 = true) d ->
  count_sources items d = Some d' ->
  Forall (fun p => is_str p.1 = true) d'.
Proof.
  induction items as [|it items IH]; intros d d' Hitems Hd; cbn [ReportAny.count_sources].
  - by intros [= <-].
  - apply Forall_cons in Hitems as [Hit Hitems].
    destruct (truthy (source_of it)); [|by apply IH].
    destruct (hashable (source_of it)); [|done].
    apply IH; [exact Hitems|]. by apply bump_str.
Qed.

Lemma mixed_tie_str (d : list (value * nat)) :
  Forall (fun p => is_str p.1 = true) d -> mixed_tie d = false.
Proof.
  intros Hd. unfold mixed_tie.
  assert (Hno : forall a, is_str a.1 = true -> existsb (mixed a) d = false).
  { intros a Ha. induction Hd as [|b d Hb _ IH]; [reflexivity|].
    cbn [existsb]. rewrite IH, orb_false_r. unfold mixed.
    rewrite Ha, Hb. cbn [xorb]. apply andb_false_r. }
  assert (Hall : forall l : list (value * nat),
             Forall (fun p => is_str p.1 = true) l ->
             existsb (fun a => existsb (mixed a) d) l = false).
  { intros l Hl. induction Hl as [|a l Ha _ IH]; [reflexivity|].
    cbn [existsb]. by rewrite (Hno a Ha), IH. }
  by apply Hall.
Qed.

Lemma plain_items_do_not_raise (items : list JDict) :
  Forall (fun it => plain_item it = true) items -> raises items = false.
Proof.
  intros H. unfold ReportAny.raises.
  assert (Hstr : Forall (fun it => is_str (source_of it) = true) items).
  { eapply Forall_impl; [exact H|]. intros it Hit. unfold plain_item in Hit.
    by apply andb_prop in Hit as [? _]. }
  assert (Hsrc : existsb bad_source items = false).
  { clear H. induction Hstr as [|it items Hit _ IH]; [reflexivity|].
    cbn [existsb]. rewrite IH, orb_false_r. unfold bad_source.
    destruct (source_of it); try discriminate Hit. apply andb_false_r. }
  assert (Htxt : existsb bad_text items = false).
  { clear Hstr Hsrc. induction H as [|it items Hit _ IH]; [reflexivity|].
    cbn [existsb]. rewrite IH, orb_false_r. unfold plain_item in Hit.
    apply andb_prop in Hit as [_ Hit]. by apply negb_true_iff in Hit. }
  rewrite Hsrc, Htxt, orb_false_r. cbn [orb].
  unfold ReportAny.source_counts.
  destruct (count_sources items []) as [d|] eqn:E; [|reflexivity].
  change (default [] (Some d)) with d. apply mixed_tie_str.
  by apply (count_sources_str items [] d Hstr (List.Forall_nil _)).
Qed.

(** *** Items whose fields are strings

    On the dicts of items of the typed model the draft is the one of
    [Report.build_fallback_markdown]. *)

Lemma jget_of_item (it : Item) :
  jget (of_item it) "href" = JStr (get it "href")
  /\ jget (of_item it) "url" = JStr (get it "url")
  /\ jget (of_item it) "source" = JStr (get it "source")
  /\ jget (of_item it) "title" = JStr (get it "title")
  /\ jget (of_item it) "article_title" = JStr (get it "article_title")
  /\ jget (of_item it) "article_text" = JStr (get it "article_text").
Proof. repeat split; reflexivity. Qed.

Lemma v_or_str (a : str) (v : value) :
  v_or (JStr a) v = if nonempty a then JStr a else v.
Proof. reflexivity. Qed.

Lemma fmt_if (b : bool) (a : str) (v : value) :
  fmt py_str (if b then JStr a else v) = if b then a else fmt py_str v.
Proof. by destruct b. Qed.

Lemma source_of_item (it : Item) : source_of (of_item it) = JStr (get it "source").
Proof.
  unfold source_of. destruct (jget_of_item it) as (_ & _ & -> & _).
  rewrite v_or_str. by destruct (get it "source").
Qed.

Lemma href_of_item (it : Item) :
  fmt py_str (href_or_url (of_item it)) = str_or (get it "href") (get it "url").
Proof.
  unfold href_or_url. destruct (jget_of_item it) as (-> & -> & _).
  rewrite !v_or_str, !fmt_if. unfold str_or. cbn [fmt].
  destruct (nonempty (get it "href")); [reflexivity|].
  by destruct (get it "url").
Qed.

Lemma article_text_of_item (it : Item) :
  article_text_of (of_item it) = Some (Report.article_text_of it).
Proof.
  unfold article_text_of. destruct (jget_of_item it) as (_ & _ & _ & _ & _ & ->).
  rewrite v_or_str. unfold Report.article_text_of.
  by destruct (get it "article_text").
Qed.

Lemma bullet_of_item (it : Item) (a b c d : str) :
  bullet py_str (v_or (JStr a) (v_or (JStr b) (v_or (JStr c) (JStr d)))) (of_item it)
  = py "- [" ++ str_or a (str_or b (str_or c d)) ++ py "]("
    ++ str_or (get it "href") (get it "url") ++ py ") — " ++ get it "source".
Proof.
  unfold bullet. rewrite href_of_item, source_of_item, !v_or_str, !fmt_if.
  reflexivity.
Qed.

Lemma lifted_str (d : list (str * nat)) :
  Forall (fun p : value * nat => is_str p.1 = true) (lifted d).
Proof. unfold lifted. apply Forall_forall. by intros p (q & -> & _)%list_elem_of_fmap. Qed.

Lemma bump_lifted (s : str) (d : list (str * nat)) :
  bump (JStr s) (lifted d) = lifted (Report.bump s d).
Proof.
  induction d as [|[k n] d IH]; [reflexivity|].
  cbn [lifted map Report.bump ReportAny.bump fst snd key_eqb].
  destruct (decide (k = s)) as [e|e].
  - by rewrite (bool_decide_eq_true_2 _ e).
  - rewrite (bool_decide_eq_false_2 _ e). cbn [map fst snd]. f_equal. exact IH.
Qed.

Lemma count_sources_lifted (items : list Item) : forall d,
  count_sources (map of_item items) (lifted d)
  = Some (lifted (fold_left (fun d it =>
                               let src := get it "source" in
                               if nonempty src then Report.bump src d else d)
                    items d)).
Proof.
  induction items as [|it items IH]; intros d; [reflexivity|].
  cbn [map ReportAny.count_sources fold_left]. rewrite source_of_item.
  cbn [truthy hashable]. destruct (nonempty (get it "source")); [|apply IH].
  rewrite bump_lifted. apply IH.
Qed.

Lemma insert_sorted_lifted (x : str * nat) (l : list (str * nat)) :
  insert_sorted num_ltb (JStr x.1, x.2) (lifted l)
  = lifted (Report.insert_sorted x l).
Proof.
  induction l as [|y l IH]; [reflexivity|].
  cbn [lifted map Report.insert_sorted ReportAny.insert_sorted].
  change (before num_ltb (JStr x.1, x.2) (JStr y.1, y.2)) with (Report.before x y).
  destruct (Report.before x y); [reflexivity|].
  cbn [map]. f_equal. exact IH.
Qed.

Lemma sorted_lifted (d : list (str * nat)) :
  fold_right (insert_sorted num_ltb) [] (lifted d) = lifted (Report.sorted_sources d).
Proof.
  induction d as [|x d IH]; [reflexivity|].
  cbn [lifted map fold_right]. fold (lifted d). rewrite IH.
  unfold Report.sorted_sources. cbn [fold_right].
  apply (insert_sorted_lifted x).
Qed.

Lemma dom_text_of_items (items : list Item) :
  dom_text (lifted (Report.count_sources items)) = Some (Report.dom_text items).
Proof.
  unfold ReportAny.dom_text, Report.dom_text, ReportAny.sorted_sources.
  destruct (Report.count_sources items) as [|p d] eqn:E; [reflexivity|].
  rewrite mixed_tie_str by apply lifted_str.
  change (lifted (p :: d)) with ((JStr p.1, p.2) :: lifted d) at 1.
  cbv iota. rewrite sorted_lifted. cbn [fmap option_fmap option_map]. f_equal. f_equal.
  unfold lifted. rewrite firstn_map, map_map. reflexivity.
Qed.

Lemma issue_lines_of_items (items : list Item) :
  issue_lines (map of_item items) = Some (Report.issue_lines items).
Proof.
  induction items as [|it items IH]; [reflexivity|].
  cbn [map ReportAny.issue_lines Report.issue_lines].
  rewrite article_text_of_item, IH.
  destruct (nonempty (Report.article_text_of it)); [|reflexivity].
  destruct (jget_of_item it) as (_ & _ & Hs & Ht & Ha & _). rewrite Hs, Ht, Ha.
  rewrite bullet_of_item. cbn [fmap option_fmap option_map].
  unfold Report.first_of. by destruct (nonempty (Report.ellipsize 180 _)).
Qed.

Lemma reference_lines_of_items (items : list Item) :
  reference_lines (map of_item items) = Report.reference_lines items.
Proof.
  unfold ReportAny.reference_lines, Report.reference_lines. rewrite map_map.
  apply map_ext. intros it.
  destruct (jget_of_item it) as (_ & _ & Hs & Ht & Ha & _). rewrite Hs, Ht, Ha.
  apply bullet_of_item.
Qed.

Lemma typed_draft (topic : str) (items : list Item) :
  build_fallback_markdown topic (map of_item items)
  = Some (Report.build_fallback_markdown topic items).
Proof.
  unfold ReportAny.build_fallback_markdown.
  change (@nil (value * nat)) with (lifted []).
  rewrite count_sources_lifted.
  change (fold_left _ items []) with (Report.count_sources items).
  rewrite dom_text_of_items, issue_lines_of_items, reference_lines_of_items.
  by rewrite length_map.
Qed.


End ReportAnyFacts.

